(** * E-Commerce Sales Insights Dashboard: the aggregation pipeline

    A shallow embedding of the data pipeline of the dashboard:

    - [Home] ([app/page.tsx]): the facet sets ([categories], [regions]) and
      the filter ([filteredData]);
    - [SalesTrend.processData] ([components/charts/sales-trend.tsx]);
    - [TopProducts.topProducts] ([components/charts/top-products.tsx]);
    - [RegionalSales.chartData] ([components/charts/regional-sales.tsx]);
    - [ExportData.csvContent] ([app/page.tsx]): the text of the CSV export.

    Conventions of the embedding.

    - A JavaScript [number] is an IEEE 754 binary64.  The two charts that
      add amounts are embedded twice.  [Machine.SalesTrend] and
      [Machine.RegionalSales] take the arithmetic as a parameter
      ([Arith.t]): [Arith.binary64] is the arithmetic of the engine, with
      its rounding, its infinities and [NaN]; [Arith.exact] is the
      arithmetic of the rationals.  What is stated of every arithmetic
      holds of the program; what needs exact sums says so.
      [SalesTrend], [TopProducts] and [RegionalSales] are the callbacks
      in exact arithmetic only, a number being a rational ([Q], equality
      [Qeq]) or [NaN]: they serve the statements that do not depend on
      rounding, or that speak of exact arithmetic.
    - A property of a record that may be missing is an [option]; [None] is
      [undefined].
    - A call that may throw returns a [JS.result].
    - [date-fns], the engine's date parser and [recharts] are not part of
      the repository: they are parameters ([DateFns.t], [Recharts.t]) of
      the definitions that call them. *)

From Stdlib Require Import List String Ascii Bool ZArith QArith Qround Qabs.
From Stdlib Require Import Lia Lqa Permutation Sorted Morphisms DecimalString.
From Stdlib Require Qcanon SpecFloat.
Import ListNotations.

Local Open Scope string_scope.
Local Open Scope Q_scope.

(* ================================================================== *)
(** * The JavaScript fragment the components use *)
(* ================================================================== *)

Module JS.

(** ** Exceptions *)

Inductive exn : Set := RangeError | TypeError.

Inductive result (A : Type) : Type :=
| Ok (a : A)
| Throw (e : exn).
Arguments Ok {A} a.
Arguments Throw {A} e.

Definition bind {A B : Type} (m : result A) (k : A -> result B) : result B :=
  match m with
  | Ok a => k a
  | Throw e => Throw e
  end.

(** [Array.prototype.filter] with a callback that may throw: the first
    exception leaves the loop. *)
Fixpoint filterM {A : Type} (f : A -> result bool) (l : list A)
  : result (list A) :=
  match l with
  | [] => Ok []
  | x :: l' =>
      bind (f x) (fun keep =>
      bind (filterM f l') (fun r =>
      Ok (if keep then x :: r else r)))
  end.

(** [Array.prototype.map] with a callback that may throw. *)
Fixpoint mapM {A B : Type} (f : A -> result B) (l : list A)
  : result (list B) :=
  match l with
  | [] => Ok []
  | x :: l' =>
      bind (f x) (fun y =>
      bind (mapM f l') (fun r =>
      Ok (y :: r)))
  end.

(** [Array.prototype.forEach] whose callback updates a captured object
    [acc] and may throw. *)
Fixpoint forEachM {A S : Type} (f : S -> A -> result S) (l : list A) (acc : S)
  : result S :=
  match l with
  | [] => Ok acc
  | x :: l' => bind (f acc x) (forEachM f l')
  end.

(** ** Numbers *)

Inductive number : Type :=
| Num (q : Q)
| NaN.

(** [ToNumber]: [undefined] becomes [NaN]. *)
Definition ToNumber (v : option number) : number :=
  match v with
  | Some n => n
  | None => NaN
  end.

Definition add (a b : number) : number :=
  match a, b with
  | Num x, Num y => Num (x + y)
  | _, _ => NaN
  end.

Definition sub (a b : number) : number :=
  match a, b with
  | Num x, Num y => Num (x - y)
  | _, _ => NaN
  end.

Definition mul (a b : number) : number :=
  match a, b with
  | Num x, Num y => Num (x * y)
  | _, _ => NaN
  end.

(** ** Truthiness and [||] *)

Definition truthy_string (v : option string) : bool :=
  match v with
  | Some s => negb (String.eqb s "")
  | None => false
  end.

Definition truthy_number (v : option Q) : bool :=
  match v with
  | Some q => negb (Qeq_bool q 0)
  | None => false
  end.

(** [a || b] on two properties. *)
Definition or_string (a b : option string) : option string :=
  if truthy_string a then a else b.

Definition or_number (a b : option Q) : option Q :=
  if truthy_number a then a else b.

(** [a || d] where [d] is a literal. *)
Definition or_string_lit (a : option string) (d : string) : string :=
  match a with
  | Some s => if String.eqb s "" then d else s
  | None => d
  end.

Definition or_number_lit (a : option Q) (d : Q) : Q :=
  match a with
  | Some q => if Qeq_bool q 0 then d else q
  | None => d
  end.

(** [parseFloat(x)] of a finite number [x]: [ToString] followed by the
    parse gives [x] back. *)
Definition parseFloat (x : Q) : Q := x.

(** [Number(x.toFixed(2))].  [toFixed] picks the integer [n] with
    [n / 100] closest to [|x|], the larger one on a tie, and keeps the
    sign.  From [1e21] on [toFixed] is [ToString]: a double of that size
    is an integer, which rounding to hundredths leaves as it is. *)
Definition toFixed2 (x : Q) : Q :=
  let n := Qfloor (Qabs x * inject_Z 100 + (1 # 2)) in
  if Qle_bool 0 x then n # 100 else (- n) # 100.

(** ** [Array.prototype.sort] with a comparator

    The sort is stable; [a] stays before [b] unless the comparator is
    positive on [(a, b)], and a [NaN] from the comparator counts as [0].
    For a consistent comparator this fixes the result; it is computed
    here by insertion. *)

Definition positive (n : number) : bool :=
  match n with
  | Num q => negb (Qle_bool q 0)
  | NaN => false
  end.

Fixpoint insert {A : Type} (cmp : A -> A -> number) (x : A) (l : list A)
  : list A :=
  match l with
  | [] => [x]
  | y :: l' => if positive (cmp x y) then y :: insert cmp x l' else x :: l
  end.

Fixpoint sort {A : Type} (cmp : A -> A -> number) (l : list A) : list A :=
  match l with
  | [] => []
  | x :: l' => insert cmp x (sort cmp l')
  end.

(** [a] may stand before [b]. *)
Definition before {A : Type} (cmp : A -> A -> number) (a b : A) : Prop :=
  positive (cmp a b) = false.

(** A comparator is consistent on the values that satisfy [P] when
    [before] is a total preorder on them. *)
Record consistent {A : Type} (P : A -> Prop) (cmp : A -> A -> number)
  : Prop := {
  before_total :
    forall a b, P a -> P b -> positive (cmp a b) = true -> before cmp b a;
  before_trans :
    forall a b c, P a -> P b -> P c ->
      before cmp a b -> before cmp b c -> before cmp a c
}.

(** [Array.prototype.sort()] on strings: order of the code units. *)
Definition default_compare (a b : string) : number :=
  match String.compare a b with
  | Lt => Num (-1)
  | Eq => Num 0
  | Gt => Num 1
  end.

(** [Array.prototype.slice(0, n)] and [slice(n)]. *)
Definition slice_to {A : Type} (n : nat) (l : list A) : list A := firstn n l.
Definition slice_from {A : Type} (n : nat) (l : list A) : list A := skipn n l.

(** ** [Set] of strings: insertion order, no duplicate *)

Definition Set_add (s : list string) (x : string) : list string :=
  if in_dec string_dec x s then s else s ++ [x].

(** ** Plain objects used as dictionaries

    An object literal [{}] inherits from [Object.prototype]; a read of one
    of these names on an object without such an own property finds the
    inherited member. *)
Definition Object_prototype_methods : list string :=
  [ "constructor"; "hasOwnProperty"; "isPrototypeOf";
    "propertyIsEnumerable"; "toLocaleString"; "toString"; "valueOf";
    "__defineGetter__"; "__defineSetter__";
    "__lookupGetter__"; "__lookupSetter__" ].

Definition inherits (k : string) : bool :=
  if in_dec string_dec k ("__proto__" :: Object_prototype_methods)
  then true else false.

(** Own properties in insertion order. *)
Definition object (V : Type) : Type := list (string * V).

Fixpoint get {V : Type} (o : object V) (k : string) : option V :=
  match o with
  | [] => None
  | (k', v) :: o' => if String.eqb k' k then Some v else get o' k
  end.

Fixpoint set {V : Type} (o : object V) (k : string) (v : V) : object V :=
  match o with
  | [] => [(k, v)]
  | (k', v') :: o' =>
      if String.eqb k' k then (k', v) :: o' else (k', v') :: set o' k v
  end.

(** An array index is a canonical numeric string below [2^32 - 1]. *)
Definition digit (c : ascii) : option N :=
  let n := N_of_ascii c in
  if ((48 <=? n) && (n <=? 57))%N then Some (n - 48)%N else None.

Fixpoint digits (s : string) (acc : N) : option N :=
  match s with
  | EmptyString => Some acc
  | String c s' =>
      match digit c with
      | Some d => digits s' (10 * acc + d)%N
      | None => None
      end
  end.

Definition array_index (k : string) : option N :=
  match k with
  | EmptyString => None
  | String "0" EmptyString => Some 0%N
  | String "0" _ => None
  | _ =>
      if (10 <? String.length k)%nat then None
      else match digits k 0 with
           | Some n => if (n <? 4294967295)%N then Some n else None
           | None => None
           end
  end.

Definition is_index {V : Type} (kv : string * V) : bool :=
  match array_index (fst kv) with Some _ => true | None => false end.

Definition index_compare {V : Type} (a b : string * V) : number :=
  match array_index (fst a), array_index (fst b) with
  | Some i, Some j => Num (inject_Z (Z.of_N i) - inject_Z (Z.of_N j))
  | _, _ => Num 0
  end.

(** [Object.entries] / [Object.values]: array indices in ascending
    order, then the other keys in insertion order. *)
Definition entries {V : Type} (o : object V) : list (string * V) :=
  sort index_compare (filter is_index o)
    ++ filter (fun kv => negb (is_index kv)) o.

Definition values {V : Type} (o : object V) : list V :=
  map snd (entries o).

End JS.

Notation "x <- m ;; k" := (JS.bind m (fun x => k))
  (at level 61, m at next level, right associativity).

(* ================================================================== *)
(** * Dates: the engine's [Date] and the [date-fns] functions *)
(* ================================================================== *)

Module DateFns.
Import JS.

(** A [Date] is its time value: milliseconds since the epoch, or
    [Invalid Date] ([None]). *)
Definition Date : Type := option Z.

(** What the components import.  [Date_parse s] is [new Date(s)] and
    [format_day d] is [format(d, 'yyyy-MM-dd')].  None of this is code of
    the repository: the functions below follow the documented behaviour
    of the engine and of the releases of date-fns. *)
Record t : Type := {
  Date_parse : string -> Date;
  parseISO : option string -> result Date;
  isWithinInterval : Date -> Date -> Date -> result bool;
  format_day : Date -> result string
}.

(** What every release of the library guarantees for [format]: a valid
    date has a formatted day, [Invalid Date] is refused, and a formatted
    day is not the name of a member of [Object.prototype] (it starts
    with a digit). *)
Record Laws (L : t) : Prop := {
  format_valid : forall ms, exists key, format_day L (Some ms) = Ok key;
  format_invalid : format_day L None = Throw RangeError;
  format_own : forall d key, format_day L d = Ok key -> inherits key = false
}.

(** ** [isWithinInterval]

    date-fns 2.x refuses an interval whose start is after its end or has
    an invalid bound. *)
Definition isWithinInterval_v2 (date start end_ : Date) : result bool :=
  match start, end_ with
  | Some s, Some e =>
      if (s <=? e)%Z then
        Ok match date with
           | Some x => ((s <=? x) && (x <=? e))%Z
           | None => false
           end
      else Throw RangeError
  | _, _ => Throw RangeError
  end.

(** date-fns 3.x and 4.x put the two bounds in ascending order first;
    comparisons with an invalid date are false. *)
Definition isWithinInterval_v3 (date start end_ : Date) : result bool :=
  Ok match date, start, end_ with
     | Some x, Some s, Some e =>
         ((Z.min s e <=? x) && (x <=? Z.max s e))%Z
     | _, _, _ => false
     end.

(** ** Calendar dates [YYYY-MM-DD]

    The concrete library reads and writes calendar dates in the form
    [YYYY-MM-DD], the value of an [<input type="date">], with the
    environment's time zone taken to be UTC; any other text is an
    [Invalid Date]. *)

Definition is_leap (y : Z) : bool :=
  ((y mod 4 =? 0) && (negb (y mod 100 =? 0) || (y mod 400 =? 0)))%Z.

Definition days_in_month (y m : Z) : Z :=
  (if m =? 2 then (if is_leap y then 29 else 28)
   else if (m =? 4) || (m =? 6) || (m =? 9) || (m =? 11) then 30
   else 31)%Z.

Definition days_from_civil (y m d : Z) : Z :=
  (let y' := if m <=? 2 then y - 1 else y in
   let era := y' / 400 in
   let yoe := y' - era * 400 in
   let doy := (153 * (if 2 <? m then m - 3 else m + 9) + 2) / 5 + d - 1 in
   let doe := yoe * 365 + yoe / 4 - yoe / 100 + doy in
   era * 146097 + doe - 719468)%Z.

Definition civil_from_days (z : Z) : Z * Z * Z :=
  (let z' := z + 719468 in
   let era := z' / 146097 in
   let doe := z' - era * 146097 in
   let yoe := (doe - doe / 1460 + doe / 36524 - doe / 146096) / 365 in
   let doy := doe - (365 * yoe + yoe / 4 - yoe / 100) in
   let mp := (5 * doy + 2) / 153 in
   let d := doy - (153 * mp + 2) / 5 + 1 in
   let m := if mp <? 10 then mp + 3 else mp - 9 in
   ((yoe + era * 400 + (if m <=? 2 then 1 else 0), m), d))%Z.

Definition ms_per_day : Z := 86400000.

Definition field (s : string) (from len : nat) : option Z :=
  match digits (substring from len s) 0 with
  | Some n => Some (Z.of_N n)
  | None => None
  end.

Definition parse_calendar (s : string) : Date :=
  if negb (String.length s =? 10)%nat then None
  else
    match field s 0 4, String.get 4 s, field s 5 2, String.get 7 s,
          field s 8 2 with
    | Some y, Some "-"%char, Some m, Some "-"%char, Some d =>
        if ((1 <=? m) && (m <=? 12) && (1 <=? d)
            && (d <=? days_in_month y m))%Z
        then Some (days_from_civil y m d * ms_per_day)%Z
        else None
    | _, _, _, _, _ => None
    end.

Fixpoint zeros (n : nat) : string :=
  match n with
  | O => EmptyString
  | S n' => String "0" (zeros n')
  end.

(** [addLeadingZeros(n, width)] *)
Definition addLeadingZeros (n : Z) (width : nat) : string :=
  let s := NilZero.string_of_uint (N.to_uint (Z.to_N n)) in
  zeros (width - String.length s) ++ s.

Definition format_calendar (d : Date) : result string :=
  match d with
  | None => Throw RangeError
  | Some ms =>
      let '(y, m, dd) := civil_from_days (ms / ms_per_day) in
      let year_of_era := (if 0 <? y then y else 1 - y)%Z in
      Ok (addLeadingZeros year_of_era 4 ++ "-"
            ++ addLeadingZeros m 2 ++ "-" ++ addLeadingZeros dd 2)
  end.

(** [parseISO] of date-fns 2.x answers [Invalid Date] to an argument
    that is not a string. *)
Definition parseISO_v2 (s : option string) : result Date :=
  match s with
  | Some s => Ok (parse_calendar s)
  | None => Ok None
  end.

(** [parseISO] of date-fns 3.x and 4.x splits its argument at once, a
    [TypeError] on [undefined]. *)
Definition parseISO_v3 (s : option string) : result Date :=
  match s with
  | Some s => Ok (parse_calendar s)
  | None => Throw TypeError
  end.

Definition v2 : t := {|
  Date_parse := parse_calendar;
  parseISO := parseISO_v2;
  isWithinInterval := isWithinInterval_v2;
  format_day := format_calendar
|}.

Definition v3 : t := {|
  Date_parse := parse_calendar;
  parseISO := parseISO_v3;
  isWithinInterval := isWithinInterval_v3;
  format_day := format_calendar
|}.

End DateFns.

(* ================================================================== *)
(** * The records *)
(* ================================================================== *)

(** [type SalesData] of [app/page.tsx].  The index signature
    [[key: string]: any] admits further keys; the chart components read
    four of them ([date], [product], [price], [amount]). *)
Module SalesData.

Record t : Type := {
  orderId : option string;
  orderDate : option string;
  productName : option string;
  category : option string;
  quantity : option Q;
  unitPrice : option Q;
  sales : option Q;
  profit : option Q;
  region : option string;
  country : option string;
  date : option string;
  product : option string;
  price : option Q;
  amount : option Q
}.

End SalesData.

(* ================================================================== *)
(** * [app/page.tsx]: facets and filter *)
(* ================================================================== *)

Module Home.
Import JS.

Record DateRange : Type := { start : string; end_ : string }.

Record Filters : Type := {
  dateRange : DateRange;
  category : string;
  region : string
}.

Record Facets : Type := {
  categories : list string;
  regions : list string
}.

(** [if (v) s.add(v)] *)
Definition add_truthy (s : list string) (v : option string) : list string :=
  match v with
  | Some x => if truthy_string v then Set_add s x else s
  | None => s
  end.

(** The [useMemo] of [categories] and [regions] (lines 83-96). *)
Definition facets (data : list SalesData.t) : Facets :=
  let '(cats, regs) :=
    fold_left
      (fun '(cats, regs) item =>
         (add_truthy cats (SalesData.category item),
          add_truthy regs (SalesData.region item)))
      data ([], []) in
  {| categories := sort default_compare cats;
     regions := sort default_compare regs |}.

(** [item.category !== filters.category] *)
Definition strict_ne (v : option string) (s : string) : bool :=
  match v with
  | Some x => negb (String.eqb x s)
  | None => true
  end.

(** The category and region tests of the callback (lines 112-122). *)
Definition facet_tests (filters : Filters) (item : SalesData.t) : bool :=
  if negb (String.eqb (category filters) "")
     && strict_ne (SalesData.category item) (category filters)
  then false
  else if negb (String.eqb (region filters) "")
          && strict_ne (SalesData.region item) (region filters)
  then false
  else true.

(** The callback of [data.filter] (lines 100-123). *)
Definition keep (L : DateFns.t) (filters : Filters) (item : SalesData.t)
  : result bool :=
  if negb (String.eqb (start (dateRange filters)) "")
     && negb (String.eqb (end_ (dateRange filters)) "")
  then
    orderDate <- DateFns.parseISO L (SalesData.orderDate item) ;;
    startDate <- DateFns.parseISO L (Some (start (dateRange filters))) ;;
    endDate <- DateFns.parseISO L (Some (end_ (dateRange filters))) ;;
    within <- DateFns.isWithinInterval L orderDate startDate endDate ;;
    if negb within then Ok false else Ok (facet_tests filters item)
  else Ok (facet_tests filters item).

(** The [useMemo] of [filteredData] (lines 99-124). *)
Definition filteredData (L : DateFns.t) (data : list SalesData.t)
    (filters : Filters) : result (list SalesData.t) :=
  filterM (keep L filters) data.

(** What one render of [Home] derives from its state [data],
    [filters]. *)
Record Derived : Type := {
  derived_facets : Facets;
  derived_filteredData : result (list SalesData.t)
}.

Definition render (L : DateFns.t) (data : list SalesData.t)
    (filters : Filters) : Derived :=
  {| derived_facets := facets data;
     derived_filteredData := filteredData L data filters |}.

End Home.

(* ================================================================== *)
(** * [components/charts/sales-trend.tsx] *)
(* ================================================================== *)

(** The callbacks in exact arithmetic; [Machine.SalesTrend] has them with
    the arithmetic of the engine. *)
Module SalesTrend.
Import JS.

Record DailyData : Type := {
  date : string;
  sales : Q;
  profit : Q;
  revenue : Q
}.

(** [parseFloat(item.sales || item.amount || 0)] *)
Definition saleAmount (item : SalesData.t) : Q :=
  parseFloat
    (or_number_lit (or_number (SalesData.sales item) (SalesData.amount item))
       0).

(** [parseFloat(item.profit || 0)] *)
Definition profitAmount (item : SalesData.t) : Q :=
  parseFloat (or_number_lit (SalesData.profit item) 0).

(** [format(new Date(date), 'yyyy-MM-dd')] for the date the callback
    reads; [None] when the callback returns at [if (!date) return]. *)
Definition dateKey (L : DateFns.t) (item : SalesData.t)
  : result (option string) :=
  let date := or_string (SalesData.date item) (SalesData.orderDate item) in
  match date with
  | Some d =>
      if truthy_string date then
        key <- DateFns.format_day L (DateFns.Date_parse L d) ;;
        Ok (Some key)
      else Ok None
  | None => Ok None
  end.

(** The three [+=] on the bucket. *)
Definition accumulate (b : DailyData) (item : SalesData.t) : DailyData :=
  {| date := date b;
     sales := sales b + saleAmount item;
     profit := profit b + profitAmount item;
     revenue := revenue b + (saleAmount item - profitAmount item) |}.

(** The callback of [data.forEach] (lines 19-39).  A key that names an
    inherited member of the dictionary reads as present: the three [+=]
    then land on that member and the dictionary gets no entry. *)
Definition step (L : DateFns.t) (dailyData : object DailyData)
    (item : SalesData.t) : result (object DailyData) :=
  key <- dateKey L item ;;
  match key with
  | None => Ok dailyData
  | Some dateKey =>
      match get dailyData dateKey with
      | Some b => Ok (set dailyData dateKey (accumulate b item))
      | None =>
          if inherits dateKey then Ok dailyData
          else
            let b := {| date := dateKey; sales := 0; profit := 0;
                        revenue := 0 |} in
            Ok (set dailyData dateKey (accumulate b item))
      end
  end.

Definition getTime (d : DateFns.Date) : number :=
  match d with
  | Some ms => Num (inject_Z ms)
  | None => NaN
  end.

(** [new Date(a.date).getTime() - new Date(b.date).getTime()] *)
Definition by_date (L : DateFns.t) (a b : DailyData) : number :=
  sub (getTime (DateFns.Date_parse L (date a)))
      (getTime (DateFns.Date_parse L (date b))).

(** [processData] (lines 13-44). *)
Definition processData (L : DateFns.t) (data : list SalesData.t)
  : result (list DailyData) :=
  match data with
  | [] => Ok []
  | _ =>
      dailyData <- forEachM (step L) data [] ;;
      Ok (sort (by_date L) (values dailyData))
  end.

End SalesTrend.

(* ================================================================== *)
(** * The hooks that [top-products.tsx] imports *)
(* ================================================================== *)

(** [top-products.tsx] takes [useMemo] from ['recharts'] (line 3); the
    other charts take it from ['react'].  What the name is bound to
    depends on the package: a hook, or [undefined] when the package has
    no export of that name. *)
Module Recharts.

(** A hook like React's [useMemo]: it is given the factory. *)
Definition hook : Type :=
  forall T : Type, (unit -> JS.result T) -> JS.result T.

Record t : Type := {
  useMemo : option hook
}.

(** The package as published: chart components and their helpers, and no
    [useMemo]. *)
Definition published : t := {| useMemo := None |}.

End Recharts.

Module React.

(** [useMemo(factory, deps)] on a first render: the factory is called. *)
Definition useMemo : Recharts.hook := fun T factory => factory tt.

End React.

(* ================================================================== *)
(** * [components/charts/top-products.tsx] *)
(* ================================================================== *)

Module TopProducts.
Import JS.

(** The objects the reducer pushes.  [quantity] starts as
    [item.quantity], which may be [undefined]. *)
Record Product : Type := {
  product : option string;
  quantity : option number;
  sales : number
}.

(** [p.product === item.product] *)
Definition strict_eq (a b : option string) : bool :=
  match a, b with
  | Some x, Some y => String.eqb x y
  | None, None => true
  | _, _ => false
  end.

Definition num (v : option Q) : option number := option_map Num v.

(** [item.quantity * item.price] *)
Definition lineSales (item : SalesData.t) : number :=
  mul (ToNumber (num (SalesData.quantity item)))
      (ToNumber (num (SalesData.price item))).

(** The reducer (lines 42-55): the first entry of [acc] with the item's
    product is updated in place, otherwise a new entry is pushed. *)
Fixpoint reducer (acc : list Product) (item : SalesData.t) : list Product :=
  match acc with
  | [] =>
      [ {| product := SalesData.product item;
           quantity := num (SalesData.quantity item);
           sales := lineSales item |} ]
  | existing :: acc' =>
      if strict_eq (product existing) (SalesData.product item) then
        {| product := product existing;
           quantity :=
             Some (add (ToNumber (quantity existing))
                       (ToNumber (num (SalesData.quantity item))));
           sales := add (sales existing) (lineSales item) |} :: acc'
      else existing :: reducer acc' item
  end.

(** [(a, b) => b.quantity - a.quantity] *)
Definition by_quantity (a b : Product) : number :=
  sub (ToNumber (quantity b)) (ToNumber (quantity a)).

(** The full ranking: [data.reduce(...).sort(...)]. *)
Definition ranking (data : list SalesData.t) : list Product :=
  sort by_quantity (fold_left reducer data []).

(** [.slice(0, limit)] of the ranking. *)
Definition processed (limit : nat) (data : list SalesData.t)
  : list Product :=
  slice_to limit (ranking data).

(** The factory given to [useMemo] (lines 40-60). *)
Definition factory (data : list SalesData.t) (isMobile : bool)
  : list Product :=
  let processed := processed (if isMobile then 5 else 10)%nat data in
  if isMobile then rev processed else processed.

(** [topProducts] (lines 40-60): the call of the imported [useMemo] on the
    factory.  A call of [undefined] throws [TypeError]. *)
Definition topProducts (R : Recharts.t) (data : list SalesData.t)
    (isMobile : bool) : result (list Product) :=
  match Recharts.useMemo R with
  | Some useMemo => useMemo (list Product) (fun _ => Ok (factory data isMobile))
  | None => Throw TypeError
  end.

End TopProducts.

(* ================================================================== *)
(** * [components/charts/regional-sales.tsx] *)
(* ================================================================== *)

(** The callbacks in exact arithmetic; [Machine.RegionalSales] has them
    with the arithmetic of the engine. *)
Module RegionalSales.
Import JS.

Record ChartData : Type := {
  name : string;
  value : Q
}.

(** What a key of [regionMap] can hold: a number, or the text that
    [+=] makes of an inherited function of [{}]. *)
Inductive slot : Type :=
| Amount (q : Q)
| Text.

(** [(item.price || 0) * (item.quantity || 0)] *)
Definition lineTotal (item : SalesData.t) : Q :=
  or_number_lit (SalesData.price item) 0
  * or_number_lit (SalesData.quantity item) 0.

(** [item.region || 'Unknown'] *)
Definition regionOf (item : SalesData.t) : string :=
  or_string_lit (SalesData.region item) "Unknown".

(** The reducer (lines 575-582).  On a fresh [{}], [acc[region]] of an
    inherited name is truthy, so no [0] is stored: [+=] on [__proto__]
    reaches the setter, which ignores a string, and on any other
    inherited name it stores a text. *)
Definition reducer (acc : object slot) (item : SalesData.t) : object slot :=
  let region := regionOf item in
  match get acc region with
  | Some (Amount q) =>
      set acc region (Amount ((if Qeq_bool q 0 then 0 else q) + lineTotal item))
  | Some Text => set acc region Text
  | None =>
      if String.eqb region "__proto__" then acc
      else if inherits region then set acc region Text
      else set acc region (Amount (0 + lineTotal item))
  end.

(** [([name, value]) => ({ name, value: Number(value.toFixed(2)) })];
    a text has no [toFixed]. *)
Definition toChartData (kv : string * slot) : result ChartData :=
  match snd kv with
  | Amount q => Ok {| name := fst kv; value := toFixed2 q |}
  | Text => Throw TypeError
  end.

(** [(a, b) => b.value - a.value] *)
Definition by_value (a b : ChartData) : number :=
  Num (value b - value a).

(** [otherRegions.reduce((sum, region) => sum + region.value, 0)] *)
Definition total (l : list ChartData) : Q :=
  fold_left (fun sum region => sum + value region) l 0.

(** [Object.entries(regionMap).map(...).sort(...)] *)
Definition sortedData (data : list SalesData.t) : result (list ChartData) :=
  let regionMap := fold_left reducer data [] in
  l <- mapM toChartData (entries regionMap) ;;
  Ok (sort by_value l).

(** [chartData] (lines 572-605). *)
Definition chartData (data : list SalesData.t) (isMobile : bool)
  : result (list ChartData) :=
  match data with
  | [] => Ok []
  | _ =>
      sortedData <- sortedData data ;;
      if isMobile && (5 <? List.length sortedData)%nat then
        let topRegions := slice_to 4 sortedData in
        let otherRegions := slice_from 4 sortedData in
        let otherTotal := total otherRegions in
        Ok (topRegions
              ++ [ {| name := "Other"; value := toFixed2 otherTotal |} ])%list
      else Ok sortedData
  end.

End RegionalSales.

(* ================================================================== *)
(** * The numbers of the engine *)
(* ================================================================== *)

(** A JavaScript number is an IEEE 754 binary64: [+], [-] and [*] round
    their exact result to the nearest double.  The components are
    written once, over the operations they use ([Arith.t]), and read
    with two arithmetics: [Arith.binary64], the one of the engine, and
    [Arith.exact], the rationals, where nothing is rounded. *)
Module Binary64.

Definition prec : Z := 53.
Definition emax : Z := 1024.

Definition double : Type := SpecFloat.spec_float.

Definition NaN : double := SpecFloat.S754_nan.

(** The double nearest to the rational [q], ties to even: what a decimal
    literal reads as. *)
Definition Number (q : Q) : double :=
  let d := SpecFloat.S754_finite false (Qden q) 0 in
  match Qnum q with
  | Z0 => SpecFloat.S754_zero false
  | Zpos n => SpecFloat.SFdiv prec emax (SpecFloat.S754_finite false n 0) d
  | Zneg n => SpecFloat.SFdiv prec emax (SpecFloat.S754_finite true n 0) d
  end.

Definition add : double -> double -> double := SpecFloat.SFadd prec emax.
Definition sub : double -> double -> double := SpecFloat.SFsub prec emax.
Definition mul : double -> double -> double := SpecFloat.SFmul prec emax.

(** [ToBoolean]: zeros and [NaN] are falsy. *)
Definition truthy (x : double) : bool :=
  match x with
  | SpecFloat.S754_zero _ | SpecFloat.S754_nan => false
  | _ => true
  end.

(** The rational a finite double stands for. *)
Definition value (x : double) : option Q :=
  match x with
  | SpecFloat.S754_zero _ => Some 0
  | SpecFloat.S754_finite s m e =>
      let v := inject_Z (Z.pos m) * (2 ^ e) in
      Some (if s then - v else v)
  | _ => None
  end.

(** [Number(x.toFixed(2))].  [toFixed] works on the absolute value: it
    picks the integer [n] with [n / 100] closest to it, the larger one on
    a tie, and writes the sign of [x] before the digits; from [1e21] on,
    and for an infinity or [NaN], it is [ToString].  [Number] reads the
    text back as the nearest double. *)
Definition toFixed2 (x : double) : double :=
  match x with
  | SpecFloat.S754_zero _ => SpecFloat.S754_zero false
  | SpecFloat.S754_finite s m e =>
      let v := inject_Z (Z.pos m) * (2 ^ e) in
      if Qle_bool (inject_Z (10 ^ 21)) v then x
      else
        match Qfloor (v * inject_Z 100 + (1 # 2)) with
        | Z.pos n =>
            SpecFloat.SFdiv prec emax (SpecFloat.S754_finite s n 0)
              (SpecFloat.S754_finite false 100 0)
        | _ => SpecFloat.S754_zero s
        end
  | _ => x
  end.

(** What [sort] reads of the number a comparator returns: its sign, and
    [NaN]. *)
Definition sign (x : double) : JS.number :=
  match x with
  | SpecFloat.S754_nan => JS.NaN
  | SpecFloat.S754_zero _ => JS.Num 0
  | SpecFloat.S754_infinity s | SpecFloat.S754_finite s _ _ =>
      JS.Num (if s then - (1) else 1)
  end.

End Binary64.

Module Arith.

(** What the components ask of the numbers. *)
Record t : Type := {
  num : Type;
  (** the number a numeric literal of the data reads as *)
  Number : Q -> num;
  add : num -> num -> num;
  sub : num -> num -> num;
  mul : num -> num -> num;
  truthy : num -> bool;
  (** [Number(x.toFixed(2))] *)
  toFixed2 : num -> num;
  (** what [sort] reads of a comparator's result *)
  sign : num -> JS.number
}.

Definition zero (A : t) : num A := Number A 0.

Definition binary64 : t :=
  {| num := Binary64.double;
     Number := Binary64.Number;
     add := Binary64.add;
     sub := Binary64.sub;
     mul := Binary64.mul;
     truthy := Binary64.truthy;
     toFixed2 := Binary64.toFixed2;
     sign := Binary64.sign |}.

(** The rationals, in lowest terms. *)
Definition exact : t :=
  {| num := Qcanon.Qc;
     Number := Qcanon.Q2Qc;
     add := Qcanon.Qcplus;
     sub := Qcanon.Qcminus;
     mul := Qcanon.Qcmult;
     truthy := fun x => negb (Qeq_bool (Qcanon.this x) 0);
     toFixed2 := fun x => Qcanon.Q2Qc (JS.toFixed2 (Qcanon.this x));
     sign := fun x => JS.Num (Qcanon.this x) |}.

(** Arithmetic without rounding: the laws of the rationals that the sums
    of the components rest on, and that binary64 lacks. *)
Record Exact (A : t) : Prop := {
  add_comm : forall x y : num A, add A x y = add A y x;
  add_assoc : forall x y z : num A,
    add A x (add A y z) = add A (add A x y) z;
  add_zero : forall x : num A, add A (zero A) x = x;
  sub_zero : sub A (zero A) (zero A) = zero A;
  sub_add : forall x y x' y' : num A,
    sub A (add A x x') (add A y y') = add A (sub A x y) (sub A x' y');
  falsy_zero : forall x : num A, truthy A x = false -> x = zero A;
  toFixed2_zero : toFixed2 A (zero A) = zero A;
  toFixed2_idem : forall x : num A,
    toFixed2 A (toFixed2 A x) = toFixed2 A x;
  toFixed2_add : forall x y : num A,
    toFixed2 A x = x -> toFixed2 A y = y ->
    toFixed2 A (add A x y) = add A x y
}.

End Arith.


(** What [Array.prototype.sort] does, whatever the algorithm of the
    engine: it rearranges the elements, and puts them in the order of the
    comparator when the comparator is consistent on them.  [JS.sort] is
    one such sort. *)
Module Engine.

Record Sorts {T : Type}
    (sort : (T -> T -> JS.number) -> list T -> list T) : Prop := {
  sort_permutes : forall cmp l, Permutation (sort cmp l) l;
  sort_orders :
    forall cmp l,
      JS.consistent (fun x => In x l) cmp ->
      StronglySorted (JS.before cmp) (sort cmp l)
}.

End Engine.

(* ================================================================== *)
(** * The charts over the numbers of the engine *)
(* ================================================================== *)

(** The callbacks of [sales-trend.tsx] and [regional-sales.tsx] once
    more, with the arithmetic and the sort of the engine as parameters.
    A numeric property of a record is the number its literal reads as.
    [SalesTrend] and [RegionalSales] above are these callbacks in exact
    arithmetic, sorted by insertion. *)
Module Machine.

Section Numbers.

Variable A : Arith.t.

(** A numeric property of a record, as the engine holds it. *)
Definition property (v : option Q) : option (Arith.num A) :=
  option_map (Arith.Number A) v.

(** [a || b] on two numeric properties. *)
Definition or_number (a b : option (Arith.num A))
  : option (Arith.num A) :=
  match a with
  | Some x => if Arith.truthy A x then a else b
  | None => b
  end.

(** [a || 0] *)
Definition or_zero (a : option (Arith.num A)) : Arith.num A :=
  match a with
  | Some x => if Arith.truthy A x then x else Arith.zero A
  | None => Arith.zero A
  end.

(** [parseFloat(x)] of a number [x]: the text of a number reads back as
    the same number. *)
Definition parseFloat (x : Arith.num A) : Arith.num A := x.

End Numbers.

Module SalesTrend.
Import JS.

Record DailyData (num : Type) : Type := {
  date : string;
  sales : num;
  profit : num;
  revenue : num
}.
Arguments Build_DailyData {num} date sales profit revenue.
Arguments date {num} d.
Arguments sales {num} d.
Arguments profit {num} d.
Arguments revenue {num} d.

Section Numbers.

Variable A : Arith.t.

(** [parseFloat(item.sales || item.amount || 0)] *)
Definition saleAmount (item : SalesData.t) : Arith.num A :=
  Machine.parseFloat A
    (or_zero A
       (Machine.or_number A (property A (SalesData.sales item))
          (property A (SalesData.amount item)))).

(** [parseFloat(item.profit || 0)] *)
Definition profitAmount (item : SalesData.t) : Arith.num A :=
  Machine.parseFloat A (or_zero A (property A (SalesData.profit item))).

(** The three [+=] on the bucket. *)
Definition accumulate (b : DailyData (Arith.num A)) (item : SalesData.t)
  : DailyData (Arith.num A) :=
  {| date := date b;
     sales := Arith.add A (sales b) (saleAmount item);
     profit := Arith.add A (profit b) (profitAmount item);
     revenue :=
       Arith.add A (revenue b)
         (Arith.sub A (saleAmount item) (profitAmount item)) |}.

(** The callback of [data.forEach] (lines 19-39). *)
Definition step (L : DateFns.t)
    (dailyData : object (DailyData (Arith.num A))) (item : SalesData.t)
  : result (object (DailyData (Arith.num A))) :=
  key <- SalesTrend.dateKey L item ;;
  match key with
  | None => Ok dailyData
  | Some dateKey =>
      match get dailyData dateKey with
      | Some b => Ok (set dailyData dateKey (accumulate b item))
      | None =>
          if inherits dateKey then Ok dailyData
          else
            let b := {| date := dateKey; sales := Arith.zero A;
                        profit := Arith.zero A;
                        revenue := Arith.zero A |} in
            Ok (set dailyData dateKey (accumulate b item))
      end
  end.

(** [new Date(a.date).getTime() - new Date(b.date).getTime()]: times
    are whole milliseconds, which binary64 subtracts exactly. *)
Definition by_date (L : DateFns.t) (a b : DailyData (Arith.num A))
  : number :=
  sub (SalesTrend.getTime (DateFns.Date_parse L (date a)))
      (SalesTrend.getTime (DateFns.Date_parse L (date b))).

Variable sort :
  (DailyData (Arith.num A) -> DailyData (Arith.num A) -> number) ->
  list (DailyData (Arith.num A)) -> list (DailyData (Arith.num A)).

(** [processData] (lines 13-44). *)
Definition processData (L : DateFns.t) (data : list SalesData.t)
  : result (list (DailyData (Arith.num A))) :=
  match data with
  | [] => Ok []
  | _ =>
      dailyData <- forEachM (step L) data [] ;;
      Ok (sort (by_date L) (values dailyData))
  end.

End Numbers.

End SalesTrend.

Module RegionalSales.
Import JS.

Record ChartData (num : Type) : Type := {
  name : string;
  value : num
}.
Arguments Build_ChartData {num} name value.
Arguments name {num} c.
Arguments value {num} c.

(** What a key of [regionMap] can hold: a number, or the text that
    [+=] makes of an inherited function of [{}]. *)
Inductive slot (num : Type) : Type :=
| Amount (x : num)
| Text.
Arguments Amount {num} x.
Arguments Text {num}.

Section Numbers.

Variable A : Arith.t.

(** [(item.price || 0) * (item.quantity || 0)] *)
Definition lineTotal (item : SalesData.t) : Arith.num A :=
  Arith.mul A (or_zero A (property A (SalesData.price item)))
    (or_zero A (property A (SalesData.quantity item))).

(** [if (!acc[region]) acc[region] = 0; acc[region] += total] on a key
    that holds the number [x]: a falsy [x], a zero or [NaN], is replaced
    by [0] first. *)
Definition add_line (x : Arith.num A) (item : SalesData.t) : Arith.num A :=
  Arith.add A (if Arith.truthy A x then x else Arith.zero A)
    (lineTotal item).

(** The reducer (lines 575-582). *)
Definition reducer (acc : object (slot (Arith.num A))) (item : SalesData.t)
  : object (slot (Arith.num A)) :=
  let region := RegionalSales.regionOf item in
  match get acc region with
  | Some (Amount x) => set acc region (Amount (add_line x item))
  | Some Text => set acc region Text
  | None =>
      if String.eqb region "__proto__" then acc
      else if inherits region then set acc region Text
      else set acc region (Amount (add_line (Arith.zero A) item))
  end.

(** [([name, value]) => ({ name, value: Number(value.toFixed(2)) })];
    a text has no [toFixed]. *)
Definition toChartData (kv : string * slot (Arith.num A))
  : result (ChartData (Arith.num A)) :=
  match snd kv with
  | Amount x => Ok {| name := fst kv; value := Arith.toFixed2 A x |}
  | Text => Throw TypeError
  end.

(** [(a, b) => b.value - a.value] *)
Definition by_value (a b : ChartData (Arith.num A)) : number :=
  Arith.sign A (Arith.sub A (value b) (value a)).

(** [otherRegions.reduce((sum, region) => sum + region.value, 0)] *)
Definition total (l : list (ChartData (Arith.num A))) : Arith.num A :=
  fold_left (fun sum region => Arith.add A sum (value region)) l
    (Arith.zero A).

Variable sort :
  (ChartData (Arith.num A) -> ChartData (Arith.num A) -> number) ->
  list (ChartData (Arith.num A)) -> list (ChartData (Arith.num A)).

(** [Object.entries(regionMap).map(...).sort(...)] *)
Definition sortedData (data : list SalesData.t)
  : result (list (ChartData (Arith.num A))) :=
  let regionMap := fold_left reducer data [] in
  l <- mapM toChartData (entries regionMap) ;;
  Ok (sort by_value l).

(** [chartData] (lines 572-605). *)
Definition chartData (data : list SalesData.t) (isMobile : bool)
  : result (list (ChartData (Arith.num A))) :=
  match data with
  | [] => Ok []
  | _ =>
      sortedData <- sortedData data ;;
      if isMobile && (5 <? List.length sortedData)%nat then
        let topRegions := slice_to 4 sortedData in
        let otherRegions := slice_from 4 sortedData in
        let otherTotal := total otherRegions in
        Ok (topRegions
              ++ [ {| name := "Other";
                      value := Arith.toFixed2 A otherTotal |} ])%list
      else Ok sortedData
  end.

End Numbers.

End RegionalSales.

End Machine.

(* ================================================================== *)
(** * [app/page.tsx]: the CSV export *)
(* ================================================================== *)

(** [exportData] reads the records as plain objects: the columns are the
    own keys of the first record, and a cell is the text of a property
    read.  What a record is, its keys, a property read, the truthiness of
    a value and [String] belong to the engine and are parameters here.  A
    string is a sequence of characters, of which only the quote, the comma
    and the line feed matter.  The download that follows the text is not
    modelled. *)
Module ExportData.

Definition quote : ascii := "034"%char.
Definition comma : string := ",".
Definition line_feed : string := String "010"%char EmptyString.

(** [replace] with the global pattern of one quote character and two
    quote characters as the replacement: every quote is doubled. *)
Fixpoint replace_quotes (s : string) : string :=
  match s with
  | EmptyString => EmptyString
  | String c s' =>
      if Ascii.eqb c quote
      then String quote (String quote (replace_quotes s'))
      else String c (replace_quotes s')
  end.

(** A cell: the text between quotes, as the template literal writes it. *)
Definition quoted (s : string) : string :=
  String quote (replace_quotes s ++ String quote EmptyString).

Section Engine.

Variables Row V : Type.
Variable Object_keys : Row -> list string.
Variable read : Row -> string -> V.
Variable truthy : V -> bool.
Variable ToString : V -> string.

(** [String(row[fieldName] || '')]. *)
Definition text (row : Row) (fieldName : string) : string :=
  let v := read row fieldName in
  if truthy v then ToString v else EmptyString.

Definition cell (row : Row) (fieldName : string) : string :=
  quoted (text row fieldName).

Definition line (headers : list string) (row : Row) : string :=
  String.concat comma (map (cell row) headers).

(** The text of the file; [None] when [exportData] returns at once. *)
Definition csvContent (filteredData : list Row) : option string :=
  match filteredData with
  | [] => None
  | first :: _ =>
      let headers := Object_keys first in
      Some (String.concat line_feed
              (String.concat comma headers
                 :: map (line headers) filteredData))
  end.

End Engine.

End ExportData.

(* ================================================================== *)
(** * Vocabulary of the statements *)
(* ================================================================== *)

Module Spec.

(** [x] is a non-empty value of the property [proj] of some record. *)
Definition observed (proj : SalesData.t -> option string)
    (data : list SalesData.t) (x : string) : Prop :=
  x <> "" /\ exists item, In item data /\ proj item = Some x.

Definition sorted_strings (l : list string) : Prop :=
  StronglySorted (fun a b => String.leb a b = true) l.

(** The date the time series reads from a record, [item.date ||
    item.orderDate], is there and the engine parses it. *)
Definition has_valid_date (L : DateFns.t) (item : SalesData.t) : Prop :=
  exists d ms,
    JS.or_string (SalesData.date item) (SalesData.orderDate item) = Some d
    /\ d <> "" /\ DateFns.Date_parse L d = Some ms.

(** The sum of [f] over a sequence. *)
Definition sum {A : Type} (f : A -> Q) (l : list A) : Q :=
  fold_right (fun x acc => f x + acc) 0 l.

(** The record has a [quantity]. *)
Definition has_quantity (item : SalesData.t) : Prop :=
  SalesData.quantity item <> None.

(** The sum of the quantities of the records of one product. *)
Definition quantity_sum (product : option string)
    (data : list SalesData.t) : Q :=
  sum (fun item =>
         if TopProducts.strict_eq product (SalesData.product item)
         then match SalesData.quantity item with
              | Some q => q
              | None => 0
              end
         else 0)
      data.

(** The entry holds the quantity sum of its product. *)
Definition holds_quantity_sum (data : list SalesData.t)
    (p : TopProducts.Product) : Prop :=
  exists q,
    TopProducts.quantity p = Some (JS.Num q)
    /\ q == quantity_sum (TopProducts.product p) data.

(** [acc] groups the records [seen] by product: one entry per product,
    every product of [seen] has its entry, and every entry holds the
    quantity sum of its product. *)
Record grouped (seen : list SalesData.t) (acc : list TopProducts.Product)
  : Prop := {
  grouped_keys : NoDup (map TopProducts.product acc);
  grouped_cover :
    forall item, In item seen ->
      In (SalesData.product item) (map TopProducts.product acc);
  grouped_sums : Forall (holds_quantity_sum seen) acc
}.

(** An amount in whole hundredths. *)
Definition whole_cents (x : Q) : Prop := exists z : Z, x == z # 100.


(** The date range with its two bounds exchanged. *)
Definition exchanged (filters : Home.Filters) : Home.Filters :=
  {| Home.dateRange :=
       {| Home.start := Home.end_ (Home.dateRange filters);
          Home.end_ := Home.start (Home.dateRange filters) |};
     Home.category := Home.category filters;
     Home.region := Home.region filters |}.

(** The callback of the filter answers [true], without throwing. *)
Definition kept (L : DateFns.t) (filters : Home.Filters)
    (item : SalesData.t) : bool :=
  match Home.keep L filters item with
  | JS.Ok true => true
  | _ => false
  end.

(** The selection [sel] of a facet admits the value [v]: there is no
    selection, or [v] is the selected string. *)
Definition admits (sel : string) (v : option string) : Prop :=
  sel = "" \/ v = Some sel.

(** The time series reads a date from the record: [item.date ||
    item.orderDate] is truthy. *)
Definition dated (item : SalesData.t) : bool :=
  JS.truthy_string
    (JS.or_string (SalesData.date item) (SalesData.orderDate item)).

(** The date the time series reads is there, and the engine does not
    parse it. *)
Definition has_unparseable_date (L : DateFns.t) (item : SalesData.t)
  : Prop :=
  exists d,
    JS.or_string (SalesData.date item) (SalesData.orderDate item) = Some d
    /\ d <> "" /\ DateFns.Date_parse L d = None.

(** The day of [a] parses to a time that is not after the one of [b]. *)
Definition not_after (L : DateFns.t) (a b : SalesTrend.DailyData) : Prop :=
  exists ta tb,
    DateFns.Date_parse L (SalesTrend.date a) = Some ta
    /\ DateFns.Date_parse L (SalesTrend.date b) = Some tb
    /\ (ta <= tb)%Z.

(** Every bucket of the dictionary sits under its own day. *)
Definition keyed (o : JS.object SalesTrend.DailyData) : Prop :=
  Forall (fun kb => SalesTrend.date (snd kb) = fst kb) o.

(** The distinct elements of [l] that are not in [seen], in the order of
    their first occurrence. *)
Fixpoint first_seen (seen l : list (option string))
  : list (option string) :=
  match l with
  | [] => []
  | k :: l' =>
      if existsb (TopProducts.strict_eq k) seen then first_seen seen l'
      else k :: first_seen (k :: seen) l'
  end.

(** The entry has the quantity [q]. *)
Definition quantity_is (q : Q) (p : TopProducts.Product) : bool :=
  match TopProducts.quantity p with
  | Some (JS.Num x) => Qeq_bool x q
  | _ => false
  end.

(** The record has a [quantity] and a [price]. *)
Definition has_quantity_and_price (item : SalesData.t) : Prop :=
  SalesData.quantity item <> None /\ SalesData.price item <> None.

(** The sum of [quantity * price] over the records of one product. *)
Definition sales_sum (product : option string) (data : list SalesData.t)
  : Q :=
  sum (fun item =>
         if TopProducts.strict_eq product (SalesData.product item)
         then match SalesData.quantity item, SalesData.price item with
              | Some q, Some p => q * p
              | _, _ => 0
              end
         else 0)
      data.

(** The entry holds the sales sum of its product. *)
Definition holds_sales_sum (data : list SalesData.t)
    (p : TopProducts.Product) : Prop :=
  exists s,
    TopProducts.sales p = JS.Num s
    /\ s == sales_sum (TopProducts.product p) data.

(** The region of the record names a method of [Object.prototype]. *)
Definition method_region (item : SalesData.t) : Prop :=
  In (RegionalSales.regionOf item) JS.Object_prototype_methods.

(** The kind of slot a key of [regionMap] holds goes with the key: a text
    under the name of an inherited method, an amount under any other
    name. *)
Definition slot_of_key (kv : string * RegionalSales.slot) : Prop :=
  match snd kv with
  | RegionalSales.Text => In (fst kv) JS.Object_prototype_methods
  | RegionalSales.Amount _ => JS.inherits (fst kv) = false
  end.

(** Every amount of the dictionary satisfies [C]. *)
Definition amounts (C : Q -> Prop) (kv : string * RegionalSales.slot)
  : Prop :=
  match snd kv with
  | RegionalSales.Text => True
  | RegionalSales.Amount q => C q
  end.

(** The texts of the cells of a record, column by column. *)
Definition texts {Row V : Type} (read : Row -> string -> V)
    (truthy : V -> bool) (ToString : V -> string)
    (headers : list string) (row : Row) : list string :=
  map (ExportData.text Row V read truthy ToString row) headers.

(** A text that does not start with a quote. *)
Definition unquoted (r : string) : Prop :=
  match r with
  | EmptyString => True
  | String c _ => c <> ExportData.quote
  end.

(** The tail that [join] puts after its first element. *)
Fixpoint joined (sep : string) (ls : list string) : string :=
  match ls with
  | [] => EmptyString
  | x :: ls' => sep ++ x ++ joined sep ls'
  end.

(** [processData] files the record under [day]. *)
Definition of_day (L : DateFns.t) (day : string) (item : SalesData.t)
  : bool :=
  match SalesTrend.dateKey L item with
  | JS.Ok (Some key) => String.eqb key day
  | _ => false
  end.

(** [f] over a sequence, added up from [0] in the order of the
    sequence. *)
Definition running (A : Arith.t) {T : Type} (f : T -> Arith.num A)
    (l : list T) : Arith.num A :=
  fold_left (fun sum x => Arith.add A sum (f x)) l (Arith.zero A).

(** The bucket holds, in the column [g], the running sum of [f] over the
    records of its day. *)
Definition holds_day_sum (A : Arith.t) (L : DateFns.t)
    (f : SalesData.t -> Arith.num A)
    (g : Machine.SalesTrend.DailyData (Arith.num A) -> Arith.num A)
    (data : list SalesData.t) (b : Machine.SalesTrend.DailyData (Arith.num A)) : Prop :=
  g b = running A f (filter (of_day L (Machine.SalesTrend.date b)) data).

(** [sale - profit] of one record. *)
Definition margin (A : Arith.t) (item : SalesData.t) : Arith.num A :=
  Arith.sub A (Machine.SalesTrend.saleAmount A item)
    (Machine.SalesTrend.profitAmount A item).

(** The record counts for [region]. *)
Definition of_region (region : string) (item : SalesData.t) : bool :=
  String.eqb (RegionalSales.regionOf item) region.

(** What the reducer leaves under [region]: the line totals of the
    records of the region, added in order from [0], a running total that
    is falsy starting again from [0]. *)
Definition region_total (A : Arith.t) (region : string)
    (data : list SalesData.t) : Arith.num A :=
  fold_left (Machine.RegionalSales.add_line A)
    (filter (of_region region) data) (Arith.zero A).

(** The value of the entry is the total of its region, rounded to
    hundredths. *)
Definition rounds_total (A : Arith.t) (data : list SalesData.t)
    (r : Machine.RegionalSales.ChartData (Arith.num A)) : Prop :=
  Machine.RegionalSales.value r
  = Arith.toFixed2 A
      (region_total A (Machine.RegionalSales.name r) data).




(** The comparator of the sort is consistent on the entries; with
    binary64, none of their values is [NaN]. *)
Definition comparable (A : Arith.t)
    (l : list (Machine.RegionalSales.ChartData (Arith.num A))) : Prop :=
  JS.consistent (fun r => In r l) (Machine.RegionalSales.by_value A).

(** No entry compares below a later one. *)
Definition descending_by_value (A : Arith.t)
    (l : list (Machine.RegionalSales.ChartData (Arith.num A))) : Prop :=
  StronglySorted (JS.before (Machine.RegionalSales.by_value A)) l.

(** The buckets after the records [seen], for one column of the
    buckets: [g] is where the callback adds [f].  The keys are distinct,
    every bucket sits under its own day, every record of [seen] with a
    day of its own has its bucket, and every bucket holds the running sum
    of [f] over the records of its day. *)
Record filed (A : Arith.t) (L : DateFns.t)
    (f : SalesData.t -> Arith.num A)
    (g : Machine.SalesTrend.DailyData (Arith.num A) -> Arith.num A)
    (seen : list SalesData.t)
    (o : JS.object (Machine.SalesTrend.DailyData (Arith.num A))) : Prop := {
  filed_keys : NoDup (map fst o);
  filed_own :
    Forall (fun kb => Machine.SalesTrend.date (snd kb) = fst kb
                      /\ JS.inherits (fst kb) = false) o;
  filed_cover :
    forall item key,
      In item seen ->
      SalesTrend.dateKey L item = JS.Ok (Some key) ->
      JS.inherits key = false -> JS.get o key <> None;
  filed_sums :
    Forall (fun kb =>
              g (snd kb)
              = running A f (filter (of_day L (fst kb)) seen))
      o
}.

(** What a key of [regionMap] holds after the records [seen]: the total
    of its region, or a text under the name of an inherited member. *)
Definition slot_holds (A : Arith.t) (seen : list SalesData.t)
    (kv : string * Machine.RegionalSales.slot (Arith.num A)) : Prop :=
  match snd kv with
  | Machine.RegionalSales.Amount x =>
      JS.inherits (fst kv) = false
      /\ x = region_total A (fst kv) seen
  | Machine.RegionalSales.Text => JS.inherits (fst kv) = true
  end.

(** [regionMap] after the records [seen]. *)
Record mapped (A : Arith.t) (seen : list SalesData.t)
    (o : JS.object (Machine.RegionalSales.slot (Arith.num A))) : Prop := {
  mapped_keys : NoDup (map fst o);
  mapped_cover :
    forall item,
      In item seen ->
      JS.inherits (RegionalSales.regionOf item) = false ->
      JS.get o (RegionalSales.regionOf item) <> None;
  mapped_slots : Forall (slot_holds A seen) o
}.


(** The revenue of a bucket as the specification defines it: the sales
    of the bucket less its profit. *)
Definition derived_revenue (A : Arith.t)
    (b : Machine.SalesTrend.DailyData (Arith.num A)) : Arith.num A :=
  Arith.sub A (Machine.SalesTrend.sales b)
    (Machine.SalesTrend.profit b).

(** The sum of the rationals that the finite numbers [f x] stand for:
    the sum as the reals have it, without rounding. *)
Definition real_sum {T : Type} (f : T -> Binary64.double) (l : list T)
  : Q :=
  fold_right
    (fun x acc =>
       match Binary64.value (f x) with
       | Some q => q + acc
       | None => acc
       end)
    0 l.

(** The rational a number stands for, [0] where it stands for none. *)
Definition real (x : Binary64.double) : Q :=
  match Binary64.value x with
  | Some q => q
  | None => 0
  end.

(** [cmp] is consistent on the elements of [l], decided by trying every
    pair and every triple. *)
Definition consistent_on {T : Type} (cmp : T -> T -> JS.number)
    (l : list T) : bool :=
  forallb
    (fun a =>
       forallb
         (fun b =>
            implb (JS.positive (cmp a b)) (negb (JS.positive (cmp b a)))
            && forallb
                 (fun c =>
                    implb
                      (negb (JS.positive (cmp a b))
                       && negb (JS.positive (cmp b c)))
                      (negb (JS.positive (cmp a c))))
                 l)
         l)
    l.

End Spec.

(** Records and filters for the examples. *)
Module Sample.

Definition order (day category region product : string)
    (quantity price sales profit : Q) : SalesData.t :=
  {| SalesData.orderId := None;
     SalesData.orderDate := Some day;
     SalesData.productName := Some product;
     SalesData.category := Some category;
     SalesData.quantity := Some quantity;
     SalesData.unitPrice := Some price;
     SalesData.sales := Some sales;
     SalesData.profit := Some profit;
     SalesData.region := Some region;
     SalesData.country := None;
     SalesData.date := None;
     SalesData.product := Some product;
     SalesData.price := Some price;
     SalesData.amount := None |}.

Definition filters (start end_ category region : string) : Home.Filters :=
  {| Home.dateRange := {| Home.start := start; Home.end_ := end_ |};
     Home.category := category;
     Home.region := region |}.

(** A record without [quantity]. *)
Definition unquantified (product : string) (price : Q) : SalesData.t :=
  {| SalesData.orderId := None;
     SalesData.orderDate := None;
     SalesData.productName := Some product;
     SalesData.category := None;
     SalesData.quantity := None;
     SalesData.unitPrice := Some price;
     SalesData.sales := None;
     SalesData.profit := None;
     SalesData.region := None;
     SalesData.country := None;
     SalesData.date := None;
     SalesData.product := Some product;
     SalesData.price := Some price;
     SalesData.amount := None |}.

(** Seven regions, one sale of fractional price in each. *)
Definition seven_regions : list SalesData.t :=
  [ order "2024-03-01" "Toys" "North" "Kite" 1 (7025 # 100) 70 7;
    order "2024-03-02" "Toys" "South" "Kite" 2 (3010 # 100) 60 6;
    order "2024-03-03" "Toys" "East" "Kite" 1 (5050 # 100) 50 5;
    order "2024-03-04" "Toys" "West" "Kite" 4 (1001 # 100) 40 4;
    order "2024-03-05" "Toys" "Centre" "Kite" 1 (3099 # 100) 30 3;
    order "2024-03-06" "Toys" "Islands" "Kite" 1 (2049 # 100) 20 2;
    order "2024-03-07" "Toys" "Abroad" "Kite" 1 (1051 # 100) 10 1 ].

Definition january : list SalesData.t :=
  [ order "2024-01-15" "Toys" "East" "Kite" 3 10 30 4;
    order "2024-01-20" "Books" "West" "Atlas" 5 2 10 1;
    order "2024-01-15" "Toys" "West" "Kite" 1 10 10 2 ].

(** What [processData] makes of [january]. *)
Definition january_buckets : list SalesTrend.DailyData :=
  [ {| SalesTrend.date := "2024-01-15"; SalesTrend.sales := 0 + 30 + 10;
       SalesTrend.profit := 0 + 4 + 2;
       SalesTrend.revenue := 0 + (30 - 4) + (10 - 2) |};
    {| SalesTrend.date := "2024-01-20"; SalesTrend.sales := 0 + 10;
       SalesTrend.profit := 0 + 1;
       SalesTrend.revenue := 0 + (10 - 1) |} ].

(** Records whose values are strings, for the export. *)
Definition Row : Type := list (string * string).
Definition Object_keys (row : Row) : list string := map fst row.
Fixpoint read (row : Row) (fieldName : string) : option string :=
  match row with
  | [] => None
  | (k, v) :: row' => if String.eqb k fieldName then Some v else read row' fieldName
  end.
Definition truthy (v : option string) : bool :=
  match v with
  | Some s => negb (String.eqb s "")
  | None => false
  end.
Definition ToString (v : option string) : string :=
  match v with
  | Some s => s
  | None => "undefined"
  end.
Definition noted : list Row :=
  [ [("product", "Kite"); ("note", "fragile, large")];
    [("product", "Atlas"); ("note", "")] ].
Definition unnoted : list Row :=
  [ [("product", "Kite"); ("note", "fragile, large")];
    [("product", "Atlas")] ].

(** Two days, two sales on each. *)
Definition two_days : list SalesData.t :=
  [ order "2024-01-15" "Toys" "East" "Kite" 1 1 (1 # 10) 0;
    order "2024-01-20" "Toys" "East" "Kite" 1 1 (4 # 10) 0;
    order "2024-01-15" "Toys" "East" "Kite" 1 1 (1 # 10) 0;
    order "2024-01-20" "Toys" "East" "Kite" 1 1 (11 # 10) 0 ].

(** One day, two sales with their profit. *)
Definition one_day : list SalesData.t :=
  [ order "2024-01-15" "Toys" "East" "Kite" 1 1 (3 # 10) (1 # 10);
    order "2024-01-15" "Toys" "East" "Kite" 1 1 (7 # 10) (1 # 10) ].



(** A bucket and a chart entry of binary64, from decimal literals. *)
Definition bucket (day : string) (sales profit revenue : Q)
  : Machine.SalesTrend.DailyData Binary64.double :=
  Machine.SalesTrend.Build_DailyData day
    (Binary64.Number sales) (Binary64.Number profit)
    (Binary64.Number revenue).

Definition entry (name : string) (value : Q)
  : Machine.RegionalSales.ChartData Binary64.double :=
  Machine.RegionalSales.Build_ChartData name
    (Binary64.Number value).

(** A chart entry of exact arithmetic. *)
Definition exact_entry (name : string) (value : Q)
  : Machine.RegionalSales.ChartData Qcanon.Qc :=
  Machine.RegionalSales.Build_ChartData name (Qcanon.Q2Qc value).

End Sample.

(* ================================================================== *)
(** * Properties of the JavaScript fragment *)
(* ================================================================== *)

Example parse_calendar_epoch :
  DateFns.parse_calendar "1970-01-01" = Some 0%Z.
Proof. reflexivity. Qed.

Example parse_calendar_2024 :
  DateFns.parse_calendar "2024-02-29" = Some 1709164800000%Z.
Proof. reflexivity. Qed.

Example parse_calendar_bad_day :
  DateFns.parse_calendar "2023-02-29" = None.
Proof. reflexivity. Qed.

Example format_calendar_2024 :
  DateFns.format_calendar (Some 1709164800000%Z) = JS.Ok "2024-02-29".
Proof. reflexivity. Qed.

Section ResultFacts.
Import JS.
Context {A : Type}.

Lemma filterM_pure (p : A -> bool) (l : list A) :
  filterM (fun x => Ok (p x)) l = Ok (filter p l).
Proof.
  induction l as [|x l IH]; simpl; [reflexivity|].
  rewrite IH; simpl. reflexivity.
Qed.

Lemma filterM_kept (f : A -> result bool) (l r : list A) :
  filterM f l = Ok r -> Forall (fun x => f x = Ok true) r.
Proof.
  revert r; induction l as [|x l IH]; simpl; intros r H.
  - inversion H; constructor.
  - destruct (f x) as [keep|e] eqn:Hx; simpl in H; [|discriminate].
    destruct (filterM f l) as [r'|e] eqn:Hl; simpl in H; [|discriminate].
    inversion H; subst; clear H.
    destruct keep; auto.
Qed.

Lemma filterM_all_kept (f : A -> result bool) (r : list A) :
  Forall (fun x => f x = Ok true) r -> filterM f r = Ok r.
Proof.
  induction 1 as [|x r Hx _ IH]; simpl; [reflexivity|].
  rewrite Hx, IH; reflexivity.
Qed.

Lemma filterM_idempotent (f : A -> result bool) (l : list A) :
  bind (filterM f l) (filterM f) = filterM f l.
Proof.
  destruct (filterM f l) as [r|e] eqn:H; simpl; [|reflexivity].
  apply filterM_all_kept, (filterM_kept f l r H).
Qed.

End ResultFacts.

Section SortFacts.
Import JS.
Context {A : Type} (cmp : A -> A -> number).

Lemma insert_perm (x : A) (l : list A) : Permutation (insert cmp x l) (x :: l).
Proof.
  induction l as [|y l IH]; simpl; [apply Permutation_refl|].
  destruct (positive (cmp x y)); [|apply Permutation_refl].
  eapply Permutation_trans; [apply perm_skip, IH|apply perm_swap].
Qed.

Lemma sort_perm (l : list A) : Permutation (sort cmp l) l.
Proof.
  induction l as [|x l IH]; simpl; [constructor|].
  eapply Permutation_trans; [apply insert_perm|apply perm_skip, IH].
Qed.

Variable P : A -> Prop.
Hypothesis Hcmp : consistent P cmp.

Lemma insert_sorted (x : A) (l : list A) :
  P x -> Forall P l ->
  StronglySorted (before cmp) l -> StronglySorted (before cmp) (insert cmp x l).
Proof.
  intros Px Pl. induction 1 as [|y l Hl IH Hy]; simpl.
  - constructor; constructor.
  - inversion Pl as [|? ? Py Pl']; subst.
    destruct (positive (cmp x y)) eqn:Hxy.
    + constructor; [exact (IH Pl')|].
      eapply Permutation_Forall; [apply Permutation_sym, insert_perm|].
      constructor; [apply (before_total P cmp Hcmp); assumption|exact Hy].
    + constructor; [constructor; assumption|].
      constructor; [exact Hxy|].
      rewrite Forall_forall in Hy, Pl'. apply Forall_forall. intros z Hz.
      apply (before_trans P cmp Hcmp) with y; auto.
Qed.

Lemma sort_sorted (l : list A) :
  Forall P l -> StronglySorted (before cmp) (sort cmp l).
Proof.
  induction 1 as [|x l Px Pl IH]; simpl; [constructor|].
  apply insert_sorted; [exact Px| |exact IH].
  eapply Permutation_Forall; [apply Permutation_sym, sort_perm|exact Pl].
Qed.

End SortFacts.

Lemma StronglySorted_weaken {A : Type} (R R' : A -> A -> Prop) (l : list A) :
  (forall a b, R a b -> R' a b) -> StronglySorted R l -> StronglySorted R' l.
Proof.
  intros HR. induction 1 as [|x l Hl IH Hx]; constructor; [exact IH|].
  eapply Forall_impl; [|exact Hx]. intros y. apply HR.
Qed.

Lemma StronglySorted_weaken_on {A : Type} (P : A -> Prop)
    (R R' : A -> A -> Prop) (l : list A) :
  (forall a b, P a -> P b -> R a b -> R' a b) ->
  Forall P l -> StronglySorted R l -> StronglySorted R' l.
Proof.
  intros HR HP. induction 1 as [|x l Hl IH Hx]; [constructor|].
  inversion HP as [|? ? Px Pl]; subst.
  constructor; [exact (IH Pl)|].
  rewrite Forall_forall in Hx, Pl. apply Forall_forall. intros y Hy.
  apply HR; auto.
Qed.

Lemma Forall_firstn_of {A : Type} (P : A -> Prop) (n : nat) (l : list A) :
  Forall P l -> Forall P (firstn n l).
Proof.
  intros H. rewrite Forall_forall in H. apply Forall_forall. intros y Hy.
  apply H. rewrite <- (firstn_skipn n l). apply in_or_app. left. exact Hy.
Qed.

(** ** The order of strings *)

Lemma ascii_compare_refl (a : ascii) : Ascii.compare a a = Eq.
Proof. unfold Ascii.compare. apply N.compare_refl. Qed.

Lemma ascii_compare_lt_trans (a b c : ascii) :
  Ascii.compare a b = Lt -> Ascii.compare b c = Lt -> Ascii.compare a c = Lt.
Proof.
  unfold Ascii.compare. rewrite !N.compare_lt_iff. apply N.lt_trans.
Qed.

Lemma string_compare_lt_trans (s1 s2 s3 : string) :
  String.compare s1 s2 = Lt -> String.compare s2 s3 = Lt ->
  String.compare s1 s3 = Lt.
Proof.
  revert s2 s3; induction s1 as [|a s1 IH]; intros [|b s2] [|c s3]; simpl;
    try congruence.
  destruct (Ascii.compare a b) eqn:Hab; try discriminate;
    destruct (Ascii.compare b c) eqn:Hbc; try discriminate; intros H1 H2.
  - apply Ascii.compare_eq_iff in Hab, Hbc; subst.
    rewrite ascii_compare_refl. eapply IH; eassumption.
  - apply Ascii.compare_eq_iff in Hab; subst. rewrite Hbc. reflexivity.
  - apply Ascii.compare_eq_iff in Hbc; subst. rewrite Hab. reflexivity.
  - rewrite (ascii_compare_lt_trans a b c Hab Hbc). reflexivity.
Qed.

Lemma string_compare_refl (s : string) : String.compare s s = Eq.
Proof.
  induction s as [|a s IH]; simpl; [reflexivity|].
  rewrite ascii_compare_refl. exact IH.
Qed.

Lemma string_leb_trans (s1 s2 s3 : string) :
  String.leb s1 s2 = true -> String.leb s2 s3 = true ->
  String.leb s1 s3 = true.
Proof.
  unfold String.leb.
  destruct (String.compare s1 s2) eqn:H12; try discriminate;
    destruct (String.compare s2 s3) eqn:H23; try discriminate; intros _ _.
  - apply String.compare_eq_iff in H12. apply String.compare_eq_iff in H23.
    subst. rewrite string_compare_refl. reflexivity.
  - apply String.compare_eq_iff in H12. subst. rewrite H23. reflexivity.
  - apply String.compare_eq_iff in H23. subst. rewrite H12. reflexivity.
  - rewrite (string_compare_lt_trans _ _ _ H12 H23). reflexivity.
Qed.

Lemma default_compare_before (a b : string) :
  JS.before JS.default_compare a b <-> String.leb a b = true.
Proof.
  unfold JS.before, JS.default_compare, String.leb.
  destruct (String.compare a b); simpl; split; congruence.
Qed.

Lemma default_compare_consistent :
  JS.consistent (fun _ => True) JS.default_compare.
Proof.
  split.
  - intros a b _ _ H. apply default_compare_before.
    destruct (String.leb_total a b) as [Hab|Hba]; [|exact Hba].
    apply default_compare_before in Hab. unfold JS.before in Hab. congruence.
  - intros a b c _ _ _. rewrite !default_compare_before.
    apply string_leb_trans.
Qed.

Lemma Set_add_In (s : list string) (x y : string) :
  In y (JS.Set_add s x) <-> In y s \/ y = x.
Proof.
  unfold JS.Set_add. destruct (in_dec string_dec x s) as [Hin|Hout].
  - split; [auto|]. intros [H|H]; subst; assumption.
  - rewrite in_app_iff; simpl. intuition.
Qed.

Lemma Set_add_NoDup (s : list string) (x : string) :
  NoDup s -> NoDup (JS.Set_add s x).
Proof.
  unfold JS.Set_add. intros Hs. destruct (in_dec string_dec x s) as [Hin|Hout].
  - exact Hs.
  - apply NoDup_app; [exact Hs|repeat constructor; simpl; tauto|].
    intros y Hy [Hx|[]]. subst. contradiction.
Qed.

(* ================================================================== *)
(** * [app/page.tsx]: the filter *)
(* ================================================================== *)

(** C7. Filtering the filtered records again with the same filters
    changes nothing: [filter(filter(R, S), S)] is [filter(R, S)], an
    exception of the first pass included. *)
Theorem filteredData_idempotent (L : DateFns.t) (data : list SalesData.t)
    (filters : Home.Filters) :
  (filtered <- Home.filteredData L data filters ;;
   Home.filteredData L filtered filters)
  = Home.filteredData L data filters.
Proof. unfold Home.filteredData. apply filterM_idempotent. Qed.

Example filteredData_twice_january :
  let filters := Sample.filters "2024-01-01" "2024-01-16" "Toys" "" in
  Home.filteredData DateFns.v3 Sample.january filters
  = JS.Ok [ Sample.order "2024-01-15" "Toys" "East" "Kite" 3 10 30 4;
            Sample.order "2024-01-15" "Toys" "West" "Kite" 1 10 10 2 ].
Proof. reflexivity. Qed.

Lemma keep_open_range (L : DateFns.t) (filters : Home.Filters)
    (item : SalesData.t) :
  Home.start (Home.dateRange filters) = ""
  \/ Home.end_ (Home.dateRange filters) = "" ->
  Home.keep L filters item = JS.Ok (Home.facet_tests filters item).
Proof.
  unfold Home.keep. intros [H|H]; rewrite H; simpl.
  - reflexivity.
  - rewrite andb_false_r. reflexivity.
Qed.

(** C10. If either bound of the date range is the empty string, no date
    test is made: the filter keeps exactly the records that pass the
    category and region tests, whatever their order dates. *)
Theorem filteredData_open_range (L : DateFns.t) (data : list SalesData.t)
    (filters : Home.Filters) :
  Home.start (Home.dateRange filters) = ""
  \/ Home.end_ (Home.dateRange filters) = "" ->
  Home.filteredData L data filters
  = JS.Ok (filter (Home.facet_tests filters) data).
Proof.
  intros H. unfold Home.filteredData.
  rewrite <- filterM_pure.
  induction data as [|item data IH]; simpl; [reflexivity|].
  rewrite (keep_open_range L filters item H), IH. reflexivity.
Qed.

Lemma filteredData_open_range_witness :
  Home.filteredData DateFns.v2 Sample.january
    (Sample.filters "" "1999-12-31" "" "West")
  = JS.Ok [ Sample.order "2024-01-20" "Books" "West" "Atlas" 5 2 10 1;
            Sample.order "2024-01-15" "Toys" "West" "Kite" 1 10 10 2 ].
Proof.
  exact (filteredData_open_range DateFns.v2 Sample.january
           (Sample.filters "" "1999-12-31" "" "West") (or_introl eq_refl)).
Defined.

(** C4, the claim as stated fails: a range whose start is after its end
    does not give the empty sequence.  date-fns 3.x keeps the record
    between the two bounds, date-fns 2.x throws. *)
Lemma filteredData_inverted_range_counterexample :
  let item := Sample.order "2024-01-15" "Toys" "East" "Kite" 3 10 30 4 in
  let filters := Sample.filters "2024-01-31" "2024-01-01" "" "" in
  Home.filteredData DateFns.v3 [item] filters = JS.Ok [item]
  /\ Home.filteredData DateFns.v2 [item] filters = JS.Throw JS.RangeError
  /\ Home.filteredData DateFns.v3 [item] filters <> JS.Ok []
  /\ Home.filteredData DateFns.v2 [item] filters <> JS.Ok [].
Proof. repeat split; try reflexivity; discriminate. Qed.

Lemma isWithinInterval_v3_exchange (d s e : DateFns.Date) :
  DateFns.isWithinInterval_v3 d s e = DateFns.isWithinInterval_v3 d e s.
Proof.
  unfold DateFns.isWithinInterval_v3.
  destruct d as [x|], s as [s|], e as [e|]; try reflexivity.
  rewrite (Z.min_comm s e), (Z.max_comm s e). reflexivity.
Qed.

(** C4 as amended. When the start of the date range is after its end,
    date-fns 3.x and 4.x filter as if the two bounds were exchanged, and
    date-fns 2.x throws [RangeError] unless there is no record at all. *)
Theorem filteredData_inverted_range (data : list SalesData.t)
    (filters : Home.Filters) (s e : Z) :
  DateFns.parse_calendar (Home.start (Home.dateRange filters)) = Some s ->
  DateFns.parse_calendar (Home.end_ (Home.dateRange filters)) = Some e ->
  (e < s)%Z ->
  Home.filteredData DateFns.v3 data filters
  = Home.filteredData DateFns.v3 data (Spec.exchanged filters)
  /\ Home.filteredData DateFns.v2 data filters
     = match data with
       | [] => JS.Ok []
       | _ :: _ => JS.Throw JS.RangeError
       end.
Proof.
  intros Hs He Hlt. split.
  - unfold Home.filteredData.
    induction data as [|item data IH]; simpl; [reflexivity|].
    rewrite IH. f_equal.
    unfold Home.keep, Spec.exchanged.
    cbn [Home.dateRange Home.start Home.end_ Home.category Home.region
         DateFns.parseISO DateFns.isWithinInterval DateFns.v3].
    rewrite (andb_comm
               (negb (Home.end_ (Home.dateRange filters) =? "")%string)).
    destruct (negb (Home.start (Home.dateRange filters) =? "")%string
              && negb (Home.end_ (Home.dateRange filters) =? "")%string);
      [|reflexivity].
    destruct (DateFns.parseISO_v3 (SalesData.orderDate item)) as [d|err];
      [|reflexivity].
    cbn [JS.bind DateFns.parseISO_v3].
    rewrite isWithinInterval_v3_exchange. reflexivity.
  - destruct data as [|item data]; [reflexivity|].
    unfold Home.filteredData; simpl. unfold Home.keep; simpl.
    assert (Hne : forall str x, DateFns.parse_calendar str = Some x ->
                    (str =? "")%string = false).
    { intros str x H. destruct (String.eqb_spec str ""); [|reflexivity].
      subst. discriminate. }
    rewrite (Hne _ _ Hs), (Hne _ _ He); simpl.
    rewrite Hs, He.
    unfold DateFns.isWithinInterval_v2.
    destruct (Z.leb_spec s e); [lia|].
    unfold DateFns.parseISO_v2.
    destruct (SalesData.orderDate item); reflexivity.
Qed.

Lemma filteredData_inverted_range_witness :
  Home.filteredData DateFns.v3 Sample.january
    (Sample.filters "2024-01-18" "2024-01-01" "" "")
  = Home.filteredData DateFns.v3 Sample.january
      (Spec.exchanged (Sample.filters "2024-01-18" "2024-01-01" "" ""))
  /\ Home.filteredData DateFns.v2 Sample.january
       (Sample.filters "2024-01-18" "2024-01-01" "" "")
     = JS.Throw JS.RangeError.
Proof.
  exact (filteredData_inverted_range Sample.january
           (Sample.filters "2024-01-18" "2024-01-01" "" "")
           1705536000000%Z 1704067200000%Z eq_refl eq_refl eq_refl).
Defined.

(* ================================================================== *)
(** * [app/page.tsx]: the facet sets *)
(* ================================================================== *)

Section FacetFacts.
Variable proj : SalesData.t -> option string.

(** One of the two sets the loop of [facets] fills. *)
Let collect (data : list SalesData.t) (s : list string) : list string :=
  fold_left (fun s item => Home.add_truthy s (proj item)) data s.

Lemma add_truthy_In (s : list string) (v : option string) (y : string) :
  In y (Home.add_truthy s v) <-> In y s \/ (y <> "" /\ v = Some y).
Proof.
  unfold Home.add_truthy. destruct v as [x|]; simpl.
  - destruct (String.eqb_spec x ""); simpl.
    + subst. split; [auto|]. intros [H|[H1 H2]]; [exact H|].
      inversion H2; subst. contradiction.
    + rewrite Set_add_In. split; intros [H|H]; auto.
      * subst. auto.
      * destruct H as [_ H]. inversion H. auto.
  - split; [auto|]. intros [H|[_ H]]; [exact H|discriminate].
Qed.

Lemma add_truthy_NoDup (s : list string) (v : option string) :
  NoDup s -> NoDup (Home.add_truthy s v).
Proof.
  unfold Home.add_truthy. destruct v as [x|]; [|auto].
  destruct (JS.truthy_string (Some x)); [apply Set_add_NoDup|auto].
Qed.

Lemma collect_In (data : list SalesData.t) (s : list string) (y : string) :
  In y (collect data s) <-> In y s \/ Spec.observed proj data y.
Proof.
  unfold collect, Spec.observed.
  revert s; induction data as [|item data IH]; intros s; simpl.
  - split; [auto|]. intros [H|[_ [item [[] _]]]]. exact H.
  - rewrite IH, add_truthy_In. split.
    + intros [[H|[Hy Hv]]|[Hy [i [Hi Hv]]]]; eauto 8.
    + intros [H|[Hy [i [[Hi|Hi] Hv]]]]; subst; eauto 8.
Qed.

Lemma collect_NoDup (data : list SalesData.t) (s : list string) :
  NoDup s -> NoDup (collect data s).
Proof.
  unfold collect. revert s; induction data as [|item data IH]; intros s Hs;
    simpl; [exact Hs|].
  apply IH, add_truthy_NoDup, Hs.
Qed.

Lemma sorted_collect (data : list SalesData.t) :
  let l := JS.sort JS.default_compare (collect data []) in
  Spec.sorted_strings l /\ NoDup l
  /\ forall x, In x l <-> Spec.observed proj data x.
Proof.
  intros l. subst l. split; [|split].
  - unfold Spec.sorted_strings.
    eapply StronglySorted_weaken;
      [|apply (sort_sorted _ _ default_compare_consistent),
          Forall_forall; trivial].
    intros a b. apply default_compare_before.
  - eapply Permutation_NoDup;
      [apply Permutation_sym, sort_perm|apply collect_NoDup; constructor].
  - intros x. split.
    + intros H. eapply Permutation_in in H; [|apply sort_perm].
      apply collect_In in H. destruct H as [[]|H]. exact H.
    + intros H. eapply Permutation_in; [apply Permutation_sym, sort_perm|].
      apply collect_In. right. exact H.
Qed.

End FacetFacts.

Lemma facets_fold (data : list SalesData.t) (cats regs : list string) :
  fold_left
    (fun '(cats, regs) item =>
       (Home.add_truthy cats (SalesData.category item),
        Home.add_truthy regs (SalesData.region item)))
    data (cats, regs)
  = (fold_left (fun s item => Home.add_truthy s (SalesData.category item))
       data cats,
     fold_left (fun s item => Home.add_truthy s (SalesData.region item))
       data regs).
Proof.
  revert cats regs; induction data as [|item data IH]; intros cats regs;
    simpl; [reflexivity|apply IH].
Qed.

(** C8. The facet sets are the sorted, duplicate-free, non-empty values of
    [category] and of [region] observed in the whole record set, and a
    render derives the same sets from the records whatever the filters
    are. *)
Theorem facets_observed_and_stable (L : DateFns.t) (data : list SalesData.t) :
  let F := Home.facets data in
  (Spec.sorted_strings (Home.categories F) /\ NoDup (Home.categories F)
   /\ forall x, In x (Home.categories F)
                <-> Spec.observed SalesData.category data x)
  /\ (Spec.sorted_strings (Home.regions F) /\ NoDup (Home.regions F)
      /\ forall x, In x (Home.regions F)
                   <-> Spec.observed SalesData.region data x)
  /\ forall filters filters',
       Home.derived_facets (Home.render L data filters) = F
       /\ Home.derived_facets (Home.render L data filters')
          = Home.derived_facets (Home.render L data filters).
Proof.
  unfold Home.facets. rewrite facets_fold. simpl.
  split; [apply (sorted_collect SalesData.category)|].
  split; [apply (sorted_collect SalesData.region)|].
  intros filters filters'. unfold Home.render, Home.facets; simpl.
  rewrite facets_fold. split; reflexivity.
Qed.

Example facets_january :
  Home.facets Sample.january
  = {| Home.categories := ["Books"; "Toys"];
       Home.regions := ["East"; "West"] |}.
Proof. reflexivity. Qed.

(** The facets of the filtered records are another matter: they shrink
    with the filter. *)
Example facets_of_filtered_january :
  Home.filteredData DateFns.v3 Sample.january
    (Sample.filters "" "" "Books" "")
  = JS.Ok [ Sample.order "2024-01-20" "Books" "West" "Atlas" 5 2 10 1 ]
  /\ Home.facets [ Sample.order "2024-01-20" "Books" "West" "Atlas" 5 2 10 1 ]
     = {| Home.categories := ["Books"]; Home.regions := ["West"] |}.
Proof. split; reflexivity. Qed.

(* ================================================================== *)
(** * The concrete libraries satisfy the laws of [format] *)
(* ================================================================== *)

Lemma string_of_uint_head (u : Decimal.uint) :
  exists c rest,
    NilZero.string_of_uint u = String c rest /\ JS.digit c <> None.
Proof.
  destruct u; simpl; eexists; eexists; (split; [reflexivity|discriminate]).
Qed.

Lemma addLeadingZeros_head (n : Z) (width : nat) :
  exists c rest,
    DateFns.addLeadingZeros n width = String c rest /\ JS.digit c <> None.
Proof.
  unfold DateFns.addLeadingZeros.
  destruct (string_of_uint_head (N.to_uint (Z.to_N n))) as (c & rest & E & Hc).
  rewrite E.
  destruct (width - String.length (String c rest))%nat; simpl.
  - exists c, rest. split; [reflexivity|exact Hc].
  - eexists; eexists. split; [reflexivity|discriminate].
Qed.

Lemma digit_head_own (c : ascii) (rest : string) :
  JS.digit c <> None -> JS.inherits (String c rest) = false.
Proof.
  intros Hc. unfold JS.inherits.
  destruct (in_dec string_dec (String c rest)
              ("__proto__" :: JS.Object_prototype_methods)) as [Hin|];
    [|reflexivity].
  exfalso. simpl in Hin.
  repeat (destruct Hin as [Hin|Hin];
          [inversion Hin; subst; apply Hc; reflexivity|]).
  exact Hin.
Qed.

Lemma format_calendar_laws (L : DateFns.t) :
  DateFns.format_day L = DateFns.format_calendar -> DateFns.Laws L.
Proof.
  intros E. split; rewrite E.
  - intros ms. unfold DateFns.format_calendar.
    destruct (DateFns.civil_from_days (ms / DateFns.ms_per_day)) as [[y m] d].
    eexists. reflexivity.
  - reflexivity.
  - intros [ms|] key; unfold DateFns.format_calendar; [|discriminate].
    destruct (DateFns.civil_from_days (ms / DateFns.ms_per_day)) as [[y m] d].
    intros H; inversion H; subst; clear H.
    match goal with
    | |- JS.inherits (DateFns.addLeadingZeros ?n ?w ++ _)%string = false =>
        destruct (addLeadingZeros_head n w) as (c & rest & E' & Hc)
    end.
    rewrite E'. simpl. apply digit_head_own, Hc.
Qed.

Lemma v2_laws : DateFns.Laws DateFns.v2.
Proof. apply format_calendar_laws. reflexivity. Qed.

Lemma v3_laws : DateFns.Laws DateFns.v3.
Proof. apply format_calendar_laws. reflexivity. Qed.

(* ================================================================== *)
(** * Sums over sequences and dictionaries *)
(* ================================================================== *)

Section SumFacts.
Context {A : Type} (f : A -> Q).

Lemma sum_app (l l' : list A) :
  Spec.sum f (l ++ l') == Spec.sum f l + Spec.sum f l'.
Proof.
  induction l as [|x l IH]; simpl; [ring|]. rewrite IH. ring.
Qed.

Lemma sum_perm (l l' : list A) :
  Permutation l l' -> Spec.sum f l == Spec.sum f l'.
Proof.
  induction 1 as [|x l l' _ IH|x y l|l l' l'' _ IH1 _ IH2]; simpl.
  - reflexivity.
  - rewrite IH. reflexivity.
  - ring.
  - rewrite IH1. exact IH2.
Qed.

Lemma sum_map {B : Type} (g : B -> A) (l : list B) :
  Spec.sum f (map g l) = Spec.sum (fun x => f (g x)) l.
Proof.
  induction l as [|x l IH]; simpl; [reflexivity|]. rewrite IH. reflexivity.
Qed.

End SumFacts.

Section ObjectFacts.
Context {V : Type}.

Lemma filter_split_perm {A : Type} (p : A -> bool) (l : list A) :
  Permutation (filter p l ++ filter (fun x => negb (p x)) l) l.
Proof.
  induction l as [|x l IH]; simpl; [constructor|].
  destruct (p x); simpl.
  - apply perm_skip, IH.
  - eapply Permutation_trans;
      [apply Permutation_sym, Permutation_middle|apply perm_skip, IH].
Qed.

Lemma entries_perm (o : JS.object V) : Permutation (JS.entries o) o.
Proof.
  unfold JS.entries.
  eapply Permutation_trans; [|apply (filter_split_perm JS.is_index)].
  apply Permutation_app_tail, sort_perm.
Qed.

Variable f : V -> Q.

(** The sum of [f] over the values of a dictionary. *)
Let total (o : JS.object V) : Q := Spec.sum (fun kv => f (snd kv)) o.

Lemma set_sum_present (o : JS.object V) (k : string) (b v : V) :
  JS.get o k = Some b -> total (JS.set o k v) + f b == total o + f v.
Proof.
  unfold total. induction o as [|[k' v'] o IH]; simpl; [discriminate|].
  destruct (String.eqb k' k); simpl.
  - intros H; inversion H; subst. ring.
  - intros H. specialize (IH H).
    rewrite <- Qplus_assoc, IH. ring.
Qed.

Lemma set_sum_absent (o : JS.object V) (k : string) (v : V) :
  JS.get o k = None -> total (JS.set o k v) == total o + f v.
Proof.
  unfold total. induction o as [|[k' v'] o IH]; simpl; [intros _; ring|].
  destruct (String.eqb k' k); simpl; [discriminate|].
  intros H. rewrite (IH H). ring.
Qed.

Lemma values_sum (o : JS.object V) : Spec.sum f (JS.values o) == total o.
Proof.
  unfold JS.values, total. rewrite sum_map.
  apply sum_perm, entries_perm.
Qed.

End ObjectFacts.

(* ================================================================== *)
(** * [sales-trend.tsx]: the daily buckets *)
(* ================================================================== *)

Section SalesTrendFacts.
Variable L : DateFns.t.
Hypothesis HL : DateFns.Laws L.

Lemma dateKey_valid (item : SalesData.t) :
  Spec.has_valid_date L item ->
  exists key, SalesTrend.dateKey L item = JS.Ok (Some key)
              /\ JS.inherits key = false.
Proof.
  intros (d & ms & Hd & Hne & Hp). unfold SalesTrend.dateKey.
  rewrite Hd. unfold JS.truthy_string.
  destruct (String.eqb_spec d ""); [contradiction|]. simpl.
  rewrite Hp. destruct (DateFns.format_valid L HL ms) as [key Hk].
  rewrite Hk. simpl. exists key. split; [reflexivity|].
  apply (DateFns.format_own L HL _ _ Hk).
Qed.

End SalesTrendFacts.

Example processData_january :
  SalesTrend.processData DateFns.v3 Sample.january
  = JS.Ok [ {| SalesTrend.date := "2024-01-15"; SalesTrend.sales := 0 + 30 + 10;
               SalesTrend.profit := 0 + 4 + 2;
               SalesTrend.revenue := 0 + (30 - 4) + (10 - 2) |};
            {| SalesTrend.date := "2024-01-20"; SalesTrend.sales := 0 + 10;
               SalesTrend.profit := 0 + 1;
               SalesTrend.revenue := 0 + (10 - 1) |} ].
Proof. reflexivity. Qed.

(** The scenario of the specification: two records of one day. *)
Example processData_scenario :
  SalesTrend.processData DateFns.v3
    [ Sample.order "2024-01-01" "" "" "A" 1 10 10 2;
      Sample.order "2024-01-01" "" "" "B" 1 20 20 3 ]
  = JS.Ok [ {| SalesTrend.date := "2024-01-01";
               SalesTrend.sales := 0 + 10 + 20;
               SalesTrend.profit := 0 + 2 + 3;
               SalesTrend.revenue := 0 + (10 - 2) + (20 - 3) |} ]
  /\ 0 + (10 - 2) + (20 - 3) == 25.
Proof. split; reflexivity. Qed.

(** C5, the failing input.  A record whose date is a text the engine
    cannot parse makes [processData] throw [RangeError] (from [format]),
    with either release of date-fns; the record is not skipped.  With a
    date bound of the filter cleared, such a record reaches the chart
    through [filteredData]. *)
Theorem processData_unparseable_date_throws :
  let item := Sample.order "pending" "Toys" "East" "Kite" 3 10 30 4 in
  SalesTrend.processData DateFns.v3 [item] = JS.Throw JS.RangeError
  /\ SalesTrend.processData DateFns.v2 [item] = JS.Throw JS.RangeError
  /\ SalesTrend.processData DateFns.v3 (Sample.january ++ [item])
     = JS.Throw JS.RangeError
  /\ (filtered <- Home.filteredData DateFns.v3 (Sample.january ++ [item])
                    (Sample.filters "" "2024-12-31" "" "") ;;
      SalesTrend.processData DateFns.v3 filtered)
     = JS.Throw JS.RangeError.
Proof. repeat split; reflexivity. Qed.

(* ================================================================== *)
(** * [top-products.tsx]: the ranking *)
(* ================================================================== *)

Lemma option_string_dec (a b : option string) : {a = b} + {a <> b}.
Proof. decide equality. apply string_dec. Qed.

Lemma strict_eq_true (a b : option string) :
  TopProducts.strict_eq a b = true <-> a = b.
Proof.
  destruct a as [x|], b as [y|]; simpl; split; try congruence.
  - intros H. apply String.eqb_eq in H. congruence.
  - intros H. inversion H. apply String.eqb_refl.
Qed.

Lemma strict_eq_false (a b : option string) :
  TopProducts.strict_eq a b = false <-> a <> b.
Proof.
  rewrite <- strict_eq_true. destruct (TopProducts.strict_eq a b);
    split; congruence.
Qed.

Lemma quantity_sum_snoc (key : option string) (seen : list SalesData.t)
    (item : SalesData.t) :
  Spec.quantity_sum key (seen ++ [item])
  == Spec.quantity_sum key seen
     + (if TopProducts.strict_eq key (SalesData.product item)
        then match SalesData.quantity item with Some q => q | None => 0 end
        else 0).
Proof. unfold Spec.quantity_sum. rewrite sum_app. simpl. ring. Qed.

Lemma quantity_sum_unseen (key : option string) (seen : list SalesData.t) :
  (forall item, In item seen -> SalesData.product item <> key) ->
  Spec.quantity_sum key seen == 0.
Proof.
  unfold Spec.quantity_sum. induction seen as [|item seen IH]; intros H; simpl.
  - reflexivity.
  - rewrite IH by (intros i Hi; apply H; right; exact Hi).
    assert (E : TopProducts.strict_eq key (SalesData.product item) = false).
    { apply strict_eq_false. intros E. apply (H item); [left; reflexivity|].
      symmetry; exact E. }
    rewrite E. ring.
Qed.

Lemma holds_snoc_other (seen : list SalesData.t) (item : SalesData.t)
    (p : TopProducts.Product) :
  Spec.holds_quantity_sum seen p ->
  TopProducts.product p <> SalesData.product item ->
  Spec.holds_quantity_sum (seen ++ [item]) p.
Proof.
  intros (q & Hq & Hs) Hne. exists q. split; [exact Hq|].
  rewrite quantity_sum_snoc, Hs.
  apply strict_eq_false in Hne. rewrite Hne. ring.
Qed.

Lemma reducer_keys_present (acc : list TopProducts.Product)
    (item : SalesData.t) :
  In (SalesData.product item) (map TopProducts.product acc) ->
  map TopProducts.product (TopProducts.reducer acc item)
  = map TopProducts.product acc.
Proof.
  induction acc as [|p acc IH]; simpl; [tauto|].
  destruct (TopProducts.strict_eq (TopProducts.product p)
              (SalesData.product item)) eqn:E; simpl; [reflexivity|].
  intros [H|H]; [apply strict_eq_false in E; contradiction|].
  rewrite (IH H). reflexivity.
Qed.

Lemma reducer_keys_absent (acc : list TopProducts.Product)
    (item : SalesData.t) :
  ~ In (SalesData.product item) (map TopProducts.product acc) ->
  map TopProducts.product (TopProducts.reducer acc item)
  = (map TopProducts.product acc ++ [SalesData.product item])%list.
Proof.
  induction acc as [|p acc IH]; simpl; [reflexivity|].
  intros H.
  destruct (TopProducts.strict_eq (TopProducts.product p)
              (SalesData.product item)) eqn:E; simpl.
  - apply strict_eq_true in E. tauto.
  - rewrite IH by tauto. reflexivity.
Qed.

Lemma reducer_sums (seen : list SalesData.t) (item : SalesData.t)
    (acc : list TopProducts.Product) :
  Spec.has_quantity item ->
  NoDup (map TopProducts.product acc) ->
  (~ In (SalesData.product item) (map TopProducts.product acc) ->
   Spec.quantity_sum (SalesData.product item) seen == 0) ->
  Forall (Spec.holds_quantity_sum seen) acc ->
  Forall (Spec.holds_quantity_sum (seen ++ [item]))
    (TopProducts.reducer acc item).
Proof.
  intros Hq. unfold Spec.has_quantity in Hq.
  destruct (SalesData.quantity item) as [qi|] eqn:Eq; [clear Hq|congruence].
  induction acc as [|p acc IH]; simpl; intros Hnd Hz Hacc.
  - constructor; [|constructor]. exists qi. unfold TopProducts.num; simpl.
    rewrite Eq; simpl. split; [reflexivity|].
    rewrite quantity_sum_snoc, Hz by tauto.
    rewrite (proj2 (strict_eq_true _ _) eq_refl), Eq. ring.
  - inversion Hnd as [|? ? Hp Hnd']; subst.
    inversion Hacc as [|? ? (q & Hpq & Hps) Hacc']; subst.
    destruct (TopProducts.strict_eq (TopProducts.product p)
                (SalesData.product item)) eqn:E.
    + constructor.
      * exists (q + qi). simpl. rewrite Hpq. unfold TopProducts.num.
        rewrite Eq; simpl. split; [reflexivity|].
        rewrite quantity_sum_snoc, E, Eq, Hps. reflexivity.
      * apply strict_eq_true in E.
        rewrite Forall_forall in Hacc'. apply Forall_forall. intros p' Hp'.
        apply holds_snoc_other; [apply Hacc', Hp'|].
        rewrite <- E. intros E'. apply Hp. rewrite <- E'.
        apply in_map, Hp'.
    + constructor.
      * apply holds_snoc_other; [exists q; auto|].
        apply strict_eq_false, E.
      * apply IH; [exact Hnd'| |exact Hacc'].
        intros H. apply Hz. apply strict_eq_false in E. simpl. tauto.
Qed.

Lemma reducer_grouped (seen : list SalesData.t) (item : SalesData.t)
    (acc : list TopProducts.Product) :
  Spec.has_quantity item ->
  Spec.grouped seen acc ->
  Spec.grouped (seen ++ [item]) (TopProducts.reducer acc item).
Proof.
  intros Hq [Hk Hc Hs].
  destruct (in_dec option_string_dec (SalesData.product item)
              (map TopProducts.product acc)) as [Hin|Hout].
  - split.
    + rewrite reducer_keys_present by exact Hin. exact Hk.
    + rewrite reducer_keys_present by exact Hin.
      intros i Hi. apply in_app_or in Hi. destruct Hi as [Hi|[Hi|[]]];
        [apply Hc, Hi|subst; exact Hin].
    + apply reducer_sums; auto. tauto.
  - split.
    + rewrite reducer_keys_absent by exact Hout.
      apply NoDup_app; [exact Hk|repeat constructor; simpl; tauto|].
      intros k Hk1 [Hk2|[]]. subst. contradiction.
    + rewrite reducer_keys_absent by exact Hout.
      intros i Hi. apply in_or_app. apply in_app_or in Hi.
      destruct Hi as [Hi|[Hi|[]]]; [left; apply Hc, Hi|].
      subst. right. left. reflexivity.
    + apply reducer_sums; auto. intros _. apply quantity_sum_unseen.
      intros i Hi E. apply Hout. rewrite <- E. apply Hc, Hi.
Qed.

Lemma fold_reducer_grouped (data seen : list SalesData.t)
    (acc : list TopProducts.Product) :
  Forall Spec.has_quantity data ->
  Spec.grouped seen acc ->
  Spec.grouped (seen ++ data) (fold_left TopProducts.reducer data acc).
Proof.
  intros H; revert seen acc; induction H as [|item data Hi _ IH];
    intros seen acc Hg; simpl.
  - rewrite app_nil_r. exact Hg.
  - replace (seen ++ item :: data)%list with ((seen ++ [item]) ++ data)%list
      by (rewrite <- app_assoc; reflexivity).
    apply IH, reducer_grouped; assumption.
Qed.

Lemma by_quantity_consistent :
  JS.consistent
    (fun p => exists q, TopProducts.quantity p = Some (JS.Num q))
    TopProducts.by_quantity.
Proof.
  split.
  - intros a b [x Ha] [y Hb]. unfold JS.before, TopProducts.by_quantity.
    rewrite Ha, Hb; simpl.
    destruct (Qle_bool (y - x) 0) eqn:E1; [discriminate|]. intros _.
    destruct (Qle_bool (x - y) 0) eqn:E2; [reflexivity|].
    exfalso.
    assert (H1 : ~ y - x <= 0) by (rewrite <- Qle_bool_iff; congruence).
    assert (H2 : ~ x - y <= 0) by (rewrite <- Qle_bool_iff; congruence).
    lra.
  - intros a b c [x Ha] [y Hb] [z Hc].
    unfold JS.before, TopProducts.by_quantity.
    rewrite Ha, Hb, Hc; simpl. rewrite !negb_false_iff, !Qle_bool_iff. lra.
Qed.

Example ranking_january :
  TopProducts.ranking Sample.january
  = [ {| TopProducts.product := Some "Atlas";
         TopProducts.quantity := Some (JS.Num 5);
         TopProducts.sales := JS.Num (5 * 2) |};
      {| TopProducts.product := Some "Kite";
         TopProducts.quantity := Some (JS.Num (3 + 1));
         TopProducts.sales := JS.Num (3 * 10 + 1 * 10) |} ].
Proof. reflexivity. Qed.


(* ================================================================== *)
(** * Rounding to hundredths *)
(* ================================================================== *)

Lemma Qfloor_half (z : Z) : Qfloor (inject_Z z + (1 # 2)) = z.
Proof.
  unfold Qfloor, Qplus, inject_Z; simpl.
  replace (z * 2 + 1)%Z with (1 + z * 2)%Z by ring.
  rewrite Z.div_add by discriminate. reflexivity.
Qed.

Lemma whole_cents_plus (x y : Q) :
  Spec.whole_cents x -> Spec.whole_cents y -> Spec.whole_cents (x + y).
Proof.
  intros [a Ha] [b Hb]. exists (a + b)%Z. rewrite Ha, Hb.
  unfold Qeq, Qplus; simpl. ring.
Qed.

Lemma whole_cents_toFixed2 (x : Q) : Spec.whole_cents (JS.toFixed2 x).
Proof.
  unfold JS.toFixed2. destruct (Qle_bool 0 x); eexists; reflexivity.
Qed.

Lemma toFixed2_whole_cents (x : Q) :
  Spec.whole_cents x -> JS.toFixed2 x == x.
Proof.
  intros [z Hz]. unfold JS.toFixed2.
  assert (Hn : Qfloor (Qabs x * inject_Z 100 + (1 # 2)) = Z.abs z).
  { rewrite <- (Qfloor_half (Z.abs z)). apply Qfloor_comp.
    rewrite Hz. unfold Qeq, Qabs, Qmult, Qplus, inject_Z; simpl. ring. }
  rewrite Hn. transitivity (z # 100); [|symmetry; exact Hz].
  destruct (Qle_bool 0 x) eqn:E.
  - apply Qle_bool_iff in E. rewrite Hz in E.
    assert (0 <= z)%Z by (unfold Qle in E; simpl in E; lia).
    rewrite Z.abs_eq by assumption. reflexivity.
  - assert (E' : ~ 0 <= x) by (rewrite <- Qle_bool_iff; congruence).
    rewrite Hz in E'.
    assert (z < 0)%Z by (unfold Qle in E'; simpl in E'; lia).
    rewrite Z.abs_neq by lia. rewrite Z.opp_involutive. reflexivity.
Qed.

Example toFixed2_rounds_down : JS.toFixed2 (4 # 1000) == 0.
Proof. reflexivity. Qed.

Example toFixed2_tie : JS.toFixed2 (125 # 1000) == 13 # 100.
Proof. reflexivity. Qed.

Example toFixed2_negative : JS.toFixed2 (- (126 # 1000)) == - (13 # 100).
Proof. reflexivity. Qed.

(* ================================================================== *)
(** * [regional-sales.tsx]: the regions *)
(* ================================================================== *)

Lemma mapM_Ok_Forall2 {A B : Type} (f : A -> JS.result B) (l : list A)
    (r : list B) :
  JS.mapM f l = JS.Ok r -> Forall2 (fun x y => f x = JS.Ok y) l r.
Proof.
  revert r; induction l as [|x l IH]; simpl; intros r H.
  - inversion H. constructor.
  - destruct (f x) as [y|e] eqn:Hx; simpl in H; [|discriminate].
    destruct (JS.mapM f l) as [r'|e] eqn:Hl; simpl in H; [|discriminate].
    inversion H; subst. constructor; [exact Hx|apply IH; reflexivity].
Qed.

Lemma total_sum (l : list RegionalSales.ChartData) :
  RegionalSales.total l == Spec.sum RegionalSales.value l.
Proof.
  unfold RegionalSales.total.
  assert (H : forall a,
            fold_left (fun sum region => sum + RegionalSales.value region) l a
            == a + Spec.sum RegionalSales.value l).
  { induction l as [|x l IH]; intros a; simpl; [ring|]. rewrite IH. ring. }
  rewrite H. ring.
Qed.

(** The scenarios of the specification. *)
Example chartData_seven_regions :
  RegionalSales.chartData Sample.seven_regions true
  = JS.Ok
      [ {| RegionalSales.name := "North"; RegionalSales.value := 7025 # 100 |};
        {| RegionalSales.name := "South"; RegionalSales.value := 6020 # 100 |};
        {| RegionalSales.name := "East"; RegionalSales.value := 5050 # 100 |};
        {| RegionalSales.name := "West"; RegionalSales.value := 4004 # 100 |};
        {| RegionalSales.name := "Other";
           RegionalSales.value := 6199 # 100 |} ].
Proof. reflexivity. Qed.

Example chartData_east :
  RegionalSales.chartData
    [ Sample.order "2024-01-01" "" "East" "A" 1 100 100 0;
      Sample.order "2024-01-01" "" "East" "B" 1 50 50 0 ] false
  = JS.Ok [ {| RegionalSales.name := "East";
               RegionalSales.value := 15000 # 100 |} ].
Proof. reflexivity. Qed.

(** A region named as a member of [Object.prototype] is outside the
    theorems above: the chart throws, or loses the record. *)
Example chartData_inherited_region :
  RegionalSales.chartData
    [ Sample.order "2024-01-01" "" "constructor" "A" 1 100 100 0 ] false
  = JS.Throw JS.TypeError
  /\ RegionalSales.chartData
       [ Sample.order "2024-01-01" "" "East" "A" 1 100 100 0;
         Sample.order "2024-01-01" "" "__proto__" "B" 1 50 50 0 ] false
     = JS.Ok [ {| RegionalSales.name := "East";
                  RegionalSales.value := 10000 # 100 |} ].
Proof. split; reflexivity. Qed.

(** Keys that are array indices come first in [Object.entries]. *)
Example entries_order :
  JS.entries [("b", 1%Z); ("10", 2%Z); ("a", 3%Z); ("2", 4%Z); ("02", 5%Z)]
  = [("2", 4%Z); ("10", 2%Z); ("b", 1%Z); ("a", 3%Z); ("02", 5%Z)].
Proof. reflexivity. Qed.

(* ================================================================== *)
(** * [app/page.tsx]: more on the filter and the facets *)
(* ================================================================== *)

Lemma filterM_Ok_filter {A : Type} (f : A -> JS.result bool) (l r : list A) :
  JS.filterM f l = JS.Ok r ->
  r = filter (fun x => match f x with JS.Ok true => true | _ => false end) l.
Proof.
  revert r; induction l as [|x l IH]; simpl; intros r H.
  - inversion H. reflexivity.
  - destruct (f x) as [b|e]; simpl in H; [|discriminate].
    destruct (JS.filterM f l) as [r'|e]; simpl in H; [|discriminate].
    inversion H; subst; clear H. rewrite (IH r' eq_refl).
    destruct b; reflexivity.
Qed.

Lemma keep_true_facet_tests (L : DateFns.t) (filters : Home.Filters)
    (item : SalesData.t) :
  Home.keep L filters item = JS.Ok true ->
  Home.facet_tests filters item = true.
Proof.
  unfold Home.keep.
  destruct (negb (Home.start (Home.dateRange filters) =? "")%string
            && negb (Home.end_ (Home.dateRange filters) =? "")%string).
  - destruct (DateFns.parseISO L (SalesData.orderDate item)); simpl;
      [|discriminate].
    destruct (DateFns.parseISO L _); simpl; [|discriminate].
    destruct (DateFns.parseISO L _); simpl; [|discriminate].
    destruct (DateFns.isWithinInterval L _ _ _) as [[|]|]; simpl;
      congruence.
  - congruence.
Qed.

Lemma strict_ne_false (v : option string) (s : string) :
  Home.strict_ne v s = false <-> v = Some s.
Proof.
  destruct v as [x|]; simpl; [|split; discriminate].
  rewrite negb_false_iff, String.eqb_eq. split; congruence.
Qed.

Lemma facet_tests_admits (filters : Home.Filters) (item : SalesData.t) :
  Home.facet_tests filters item = true <->
  Spec.admits (Home.category filters) (SalesData.category item)
  /\ Spec.admits (Home.region filters) (SalesData.region item).
Proof.
  unfold Home.facet_tests, Spec.admits.
  destruct (String.eqb_spec (Home.category filters) "") as [Ec|Ec];
    destruct (String.eqb_spec (Home.region filters) "") as [Er|Er];
    simpl;
    repeat match goal with
      | |- context [Home.strict_ne ?v ?s] =>
          let E := fresh "E" in
          destruct (Home.strict_ne v s) eqn:E;
          [|apply strict_ne_false in E]
      end;
    simpl; split; try tauto; try discriminate;
    intros [[H1|H1] [H2|H2]]; try contradiction;
    repeat match goal with
      | E : Home.strict_ne ?v ?s = true, H : ?v = Some ?s |- _ =>
          apply strict_ne_false in H; congruence
      end.
Qed.

(** X1. When the filter returns, it returns exactly the records for
    which its callback answers [true], in their original order, and every
    one of them has the selected category and the selected region. *)
Theorem filteredData_selects (L : DateFns.t) (data : list SalesData.t)
    (filters : Home.Filters) (r : list SalesData.t) :
  Home.filteredData L data filters = JS.Ok r ->
  r = filter (Spec.kept L filters) data
  /\ Forall (fun item =>
               Spec.admits (Home.category filters) (SalesData.category item)
               /\ Spec.admits (Home.region filters) (SalesData.region item))
       r.
Proof.
  intros H. split.
  - apply (filterM_Ok_filter _ _ _ H).
  - eapply Forall_impl; [|apply (filterM_kept _ _ _ H)].
    intros item Hk. apply facet_tests_admits.
    apply (keep_true_facet_tests L), Hk.
Qed.

Lemma filteredData_selects_witness :
  let filters := Sample.filters "2024-01-01" "2024-01-16" "Toys" "West" in
  let r := [ Sample.order "2024-01-15" "Toys" "West" "Kite" 1 10 10 2 ] in
  r = filter (Spec.kept DateFns.v3 filters) Sample.january
  /\ Forall (fun item =>
               Spec.admits (Home.category filters) (SalesData.category item)
               /\ Spec.admits (Home.region filters) (SalesData.region item))
       r.
Proof.
  intros filters r.
  apply (filteredData_selects DateFns.v3 Sample.january filters r).
  vm_compute. reflexivity.
Defined.

Lemma filterM_compose {A : Type} (f g h : A -> JS.result bool) (l : list A) :
  (forall x,
     match f x with
     | JS.Throw e => h x = JS.Throw e
     | JS.Ok false => h x = JS.Ok false
     | JS.Ok true => exists b, g x = JS.Ok b /\ h x = JS.Ok b
     end) ->
  JS.bind (JS.filterM f l) (JS.filterM g) = JS.filterM h l.
Proof.
  intros H. induction l as [|x l IH]; simpl; [reflexivity|].
  specialize (H x). rewrite <- IH.
  destruct (f x) as [[|]|e]; simpl.
  - destruct H as (b & Hg & Hh). rewrite Hh; simpl.
    destruct (JS.filterM f l) as [r|e]; simpl; [|reflexivity].
    rewrite Hg; simpl. reflexivity.
  - rewrite H; simpl.
    destruct (JS.filterM f l) as [r|e]; simpl; [|reflexivity].
    destruct (JS.filterM g r); reflexivity.
  - rewrite H. reflexivity.
Qed.

(** X2. Narrowing by category and then by region, over the same date
    range, is filtering by both at once, exceptions included. *)
Theorem filteredData_category_then_region (L : DateFns.t)
    (data : list SalesData.t) (range : Home.DateRange)
    (category region : string) :
  (r <- Home.filteredData L data
          {| Home.dateRange := range; Home.category := category;
             Home.region := "" |} ;;
   Home.filteredData L r
     {| Home.dateRange := range; Home.category := "";
        Home.region := region |})
  = Home.filteredData L data
      {| Home.dateRange := range; Home.category := category;
         Home.region := region |}.
Proof.
  unfold Home.filteredData. apply filterM_compose. intros item.
  unfold Home.keep, Home.facet_tests; simpl.
  destruct (negb (Home.start range =? "")%string
            && negb (Home.end_ range =? "")%string).
  - destruct (DateFns.parseISO L (SalesData.orderDate item)); simpl;
      [|reflexivity].
    destruct (DateFns.parseISO L (Some (Home.start range))); simpl;
      [|reflexivity].
    destruct (DateFns.parseISO L (Some (Home.end_ range))); simpl;
      [|reflexivity].
    destruct (DateFns.isWithinInterval L _ _ _) as [[|]|]; simpl;
      try reflexivity.
    destruct (negb (category =? "")%string
              && Home.strict_ne (SalesData.category item) category);
      simpl; [reflexivity|]. eexists. split; reflexivity.
  - destruct (negb (category =? "")%string
              && Home.strict_ne (SalesData.category item) category);
      simpl; [reflexivity|]. eexists. split; reflexivity.
Qed.

Lemma facets_In (data : list SalesData.t) (x : string) :
  (In x (Home.categories (Home.facets data))
   <-> Spec.observed SalesData.category data x)
  /\ (In x (Home.regions (Home.facets data))
      <-> Spec.observed SalesData.region data x).
Proof.
  unfold Home.facets. rewrite facets_fold. simpl. split.
  - apply (sorted_collect SalesData.category).
  - apply (sorted_collect SalesData.region).
Qed.

Lemma filterM_keep_open (L : DateFns.t) (data : list SalesData.t)
    (filters : Home.Filters) :
  Home.start (Home.dateRange filters) = ""
  \/ Home.end_ (Home.dateRange filters) = "" ->
  JS.filterM (Home.keep L filters) data
  = JS.Ok (filter (Home.facet_tests filters) data).
Proof.
  intros H. rewrite <- filterM_pure.
  induction data as [|item data IH]; simpl; [reflexivity|].
  rewrite (keep_open_range L filters item H), IH. reflexivity.
Qed.

(** X3. While the date range is open, every value the category or the
    region dropdown offers selects at least one record: the filter
    returns, and not the empty sequence. *)
Theorem facets_offer_matches (L : DateFns.t) (data : list SalesData.t)
    (range : Home.DateRange) (x : string) :
  Home.start range = "" \/ Home.end_ range = "" ->
  (In x (Home.categories (Home.facets data)) ->
   exists r item,
     Home.filteredData L data
       {| Home.dateRange := range; Home.category := x; Home.region := "" |}
     = JS.Ok r
     /\ In item r /\ SalesData.category item = Some x)
  /\ (In x (Home.regions (Home.facets data)) ->
      exists r item,
        Home.filteredData L data
          {| Home.dateRange := range; Home.category := ""; Home.region := x |}
        = JS.Ok r
        /\ In item r /\ SalesData.region item = Some x).
Proof.
  intros Hopen. destruct (facets_In data x) as [Hc Hr].
  split; intros Hin.
  - apply Hc in Hin. destruct Hin as (Hx & item & Hi & Hv).
    eexists. exists item. unfold Home.filteredData.
    rewrite filterM_keep_open by exact Hopen.
    split; [reflexivity|]. split; [|exact Hv].
    apply filter_In. split; [exact Hi|].
    apply facet_tests_admits. split; [right; exact Hv|left; reflexivity].
  - apply Hr in Hin. destruct Hin as (Hx & item & Hi & Hv).
    eexists. exists item. unfold Home.filteredData.
    rewrite filterM_keep_open by exact Hopen.
    split; [reflexivity|]. split; [|exact Hv].
    apply filter_In. split; [exact Hi|].
    apply facet_tests_admits. split; [left; reflexivity|right; exact Hv].
Qed.

Lemma facets_offer_matches_witness :
  let range := {| Home.start := ""; Home.end_ := "2024-01-16" |} in
  (exists r item,
     Home.filteredData DateFns.v2 Sample.january
       {| Home.dateRange := range; Home.category := "Books";
          Home.region := "" |}
     = JS.Ok r
     /\ In item r /\ SalesData.category item = Some "Books")
  /\ (exists r item,
        Home.filteredData DateFns.v2 Sample.january
          {| Home.dateRange := range; Home.category := "";
             Home.region := "East" |}
        = JS.Ok r
        /\ In item r /\ SalesData.region item = Some "East").
Proof.
  intros range. split.
  - apply (facets_offer_matches DateFns.v2 Sample.january range "Books"
             (or_introl eq_refl)).
    vm_compute. auto.
  - apply (facets_offer_matches DateFns.v2 Sample.january range "East"
             (or_introl eq_refl)).
    vm_compute. auto.
Defined.

(** X4. The facets of a filtered result are among the facets of the
    whole record set: filtering can only remove options. *)
Theorem facets_of_filtered_included (L : DateFns.t)
    (data : list SalesData.t) (filters : Home.Filters)
    (r : list SalesData.t) :
  Home.filteredData L data filters = JS.Ok r ->
  incl (Home.categories (Home.facets r)) (Home.categories (Home.facets data))
  /\ incl (Home.regions (Home.facets r)) (Home.regions (Home.facets data)).
Proof.
  intros H.
  assert (Hincl : incl r data).
  { rewrite (filterM_Ok_filter _ _ _ H). intros item Hi.
    apply filter_In in Hi. tauto. }
  split; intros x Hx.
  - apply (proj1 (facets_In data x)). apply (proj1 (facets_In r x)) in Hx.
    destruct Hx as (Hne & item & Hi & Hv).
    split; [exact Hne|]. exists item. split; [apply Hincl, Hi|exact Hv].
  - apply (proj2 (facets_In data x)). apply (proj2 (facets_In r x)) in Hx.
    destruct Hx as (Hne & item & Hi & Hv).
    split; [exact Hne|]. exists item. split; [apply Hincl, Hi|exact Hv].
Qed.

Lemma facets_of_filtered_included_witness :
  let r := [ Sample.order "2024-01-20" "Books" "West" "Atlas" 5 2 10 1 ] in
  incl (Home.categories (Home.facets r))
    (Home.categories (Home.facets Sample.january))
  /\ incl (Home.regions (Home.facets r))
       (Home.regions (Home.facets Sample.january)).
Proof.
  intros r.
  apply (facets_of_filtered_included DateFns.v3 Sample.january
           (Sample.filters "" "" "Books" "") r).
  vm_compute. reflexivity.
Defined.

(* ================================================================== *)
(** * [sales-trend.tsx]: more on the daily buckets *)
(* ================================================================== *)

Lemma processData_unfold (L : DateFns.t) (data : list SalesData.t) :
  SalesTrend.processData L data
  = (dailyData <- JS.forEachM (SalesTrend.step L) data [] ;;
     JS.Ok (JS.sort (SalesTrend.by_date L) (JS.values dailyData))).
Proof. destruct data; reflexivity. Qed.

Lemma dateKey_cases (L : DateFns.t) (item : SalesData.t) :
  (Spec.dated item = false /\ SalesTrend.dateKey L item = JS.Ok None)
  \/ (Spec.dated item = true
      /\ exists d,
           JS.or_string (SalesData.date item) (SalesData.orderDate item)
           = Some d
           /\ d <> ""
           /\ SalesTrend.dateKey L item
              = (key <- DateFns.format_day L (DateFns.Date_parse L d) ;;
                 JS.Ok (Some key))).
Proof.
  unfold Spec.dated, SalesTrend.dateKey.
  destruct (JS.or_string (SalesData.date item) (SalesData.orderDate item))
    as [d|]; simpl.
  - destruct (String.eqb_spec d ""); simpl.
    + left. split; reflexivity.
    + right. split; [reflexivity|]. exists d. repeat split. assumption.
  - left. split; reflexivity.
Qed.

Lemma step_undated (L : DateFns.t) (o : JS.object SalesTrend.DailyData)
    (item : SalesData.t) :
  Spec.dated item = false -> SalesTrend.step L o item = JS.Ok o.
Proof.
  intros H. unfold SalesTrend.step.
  destruct (dateKey_cases L item) as [[_ E]|[E _]]; [|congruence].
  rewrite E. reflexivity.
Qed.

Lemma forEach_dated (L : DateFns.t) (data : list SalesData.t)
    (o : JS.object SalesTrend.DailyData) :
  JS.forEachM (SalesTrend.step L) data o
  = JS.forEachM (SalesTrend.step L) (filter Spec.dated data) o.
Proof.
  revert o; induction data as [|item data IH]; intros o; simpl;
    [reflexivity|].
  destruct (Spec.dated item) eqn:E; simpl.
  - destruct (SalesTrend.step L o item); simpl; [apply IH|reflexivity].
  - rewrite (step_undated L o item E). simpl. apply IH.
Qed.

(** X5. Records without a date do not count: [processData] gives the
    same result, or the same exception, with and without them. *)
Theorem processData_skips_undated (L : DateFns.t) (data : list SalesData.t) :
  SalesTrend.processData L data
  = SalesTrend.processData L (filter Spec.dated data).
Proof. rewrite !processData_unfold, forEach_dated. reflexivity. Qed.

Example processData_undated_january :
  SalesTrend.processData DateFns.v3
    (Sample.unquantified "Atlas" 2 :: Sample.january)
  = SalesTrend.processData DateFns.v3 Sample.january.
Proof. reflexivity. Qed.

Section SalesTrendErrors.
Variable L : DateFns.t.
Hypothesis HL : DateFns.Laws L.

Lemma dateKey_unparseable (item : SalesData.t) :
  Spec.has_unparseable_date L item ->
  SalesTrend.dateKey L item = JS.Throw JS.RangeError.
Proof.
  intros (d & Hd & Hne & Hp). unfold SalesTrend.dateKey.
  rewrite Hd. unfold JS.truthy_string.
  destruct (String.eqb_spec d ""); [contradiction|]. simpl.
  rewrite Hp, (DateFns.format_invalid L HL). reflexivity.
Qed.

Lemma dateKey_parseable (item : SalesData.t) :
  ~ Spec.has_unparseable_date L item ->
  exists key, SalesTrend.dateKey L item = JS.Ok key.
Proof.
  intros Hn. destruct (dateKey_cases L item) as [[_ E]|[_ (d & Hd & Hne & E)]].
  - exists None. exact E.
  - rewrite E. destruct (DateFns.Date_parse L d) as [ms|] eqn:Hp.
    + destruct (DateFns.format_valid L HL ms) as [key Hk].
      rewrite Hk. eexists. reflexivity.
    + exfalso. apply Hn. exists d. auto.
Qed.

Lemma dateKey_throws_RangeError (item : SalesData.t) (e : JS.exn) :
  SalesTrend.dateKey L item = JS.Throw e -> e = JS.RangeError.
Proof.
  destruct (dateKey_cases L item) as [[_ E]|[_ (d & _ & _ & E)]]; rewrite E.
  - discriminate.
  - destruct (DateFns.Date_parse L d) as [ms|].
    + destruct (DateFns.format_valid L HL ms) as [key Hk]. rewrite Hk.
      discriminate.
    + rewrite (DateFns.format_invalid L HL). simpl. congruence.
Qed.

Lemma dateKey_own (item : SalesData.t) (key : string) :
  SalesTrend.dateKey L item = JS.Ok (Some key) -> JS.inherits key = false.
Proof.
  destruct (dateKey_cases L item) as [[_ E]|[_ (d & _ & _ & E)]]; rewrite E.
  - discriminate.
  - destruct (DateFns.format_day L (DateFns.Date_parse L d)) as [k|e] eqn:Hk;
      simpl; [|discriminate].
    intros H; inversion H; subst. apply (DateFns.format_own L HL _ _ Hk).
Qed.

Lemma step_returns (o : JS.object SalesTrend.DailyData) (item : SalesData.t)
    (key : option string) :
  SalesTrend.dateKey L item = JS.Ok key ->
  exists o', SalesTrend.step L o item = JS.Ok o'.
Proof.
  intros E. unfold SalesTrend.step. rewrite E. simpl.
  destruct key as [k|]; [|eexists; reflexivity].
  destruct (JS.get o k); [eexists; reflexivity|].
  destruct (JS.inherits k); eexists; reflexivity.
Qed.

Lemma forEach_throws (data : list SalesData.t)
    (o : JS.object SalesTrend.DailyData) :
  Exists (Spec.has_unparseable_date L) data ->
  JS.forEachM (SalesTrend.step L) data o = JS.Throw JS.RangeError.
Proof.
  intros H; revert o; induction H as [item data Hi|item data _ IH];
    intros o; simpl.
  - unfold SalesTrend.step. rewrite (dateKey_unparseable item Hi).
    reflexivity.
  - destruct (SalesTrend.dateKey L item) as [key|e] eqn:E.
    + destruct (step_returns o item key E) as [o' Ho]. rewrite Ho. simpl.
      apply IH.
    + unfold SalesTrend.step. rewrite E. simpl.
      rewrite (dateKey_throws_RangeError item e E). reflexivity.
Qed.

Lemma forEach_returns (data : list SalesData.t)
    (o : JS.object SalesTrend.DailyData) :
  Forall (fun item => ~ Spec.has_unparseable_date L item) data ->
  exists o', JS.forEachM (SalesTrend.step L) data o = JS.Ok o'.
Proof.
  intros H; revert o; induction H as [|item data Hi _ IH]; intros o; simpl.
  - eexists. reflexivity.
  - destruct (dateKey_parseable item Hi) as [key E].
    destruct (step_returns o item key E) as [o' Ho]. rewrite Ho. simpl.
    apply IH.
Qed.

(** X6. [processData] throws, and then [RangeError], exactly when some
    record carries a date that the engine cannot parse; records without
    a date never make it throw. *)
Theorem processData_throws_iff (data : list SalesData.t) :
  (Exists (Spec.has_unparseable_date L) data ->
   SalesTrend.processData L data = JS.Throw JS.RangeError)
  /\ (Forall (fun item => ~ Spec.has_unparseable_date L item) data ->
      exists buckets, SalesTrend.processData L data = JS.Ok buckets).
Proof.
  rewrite processData_unfold. split; intros H.
  - rewrite (forEach_throws data [] H). reflexivity.
  - destruct (forEach_returns data [] H) as [o Ho]. rewrite Ho. simpl.
    eexists. reflexivity.
Qed.

End SalesTrendErrors.

Lemma processData_throws_iff_witness :
  SalesTrend.processData DateFns.v3
    (Sample.january
       ++ [Sample.order "pending" "Toys" "East" "Kite" 3 10 30 4])
  = JS.Throw JS.RangeError
  /\ exists buckets,
       SalesTrend.processData DateFns.v3
         (Sample.unquantified "Atlas" 2 :: Sample.january)
       = JS.Ok buckets.
Proof.
  split.
  - apply (processData_throws_iff DateFns.v3 v3_laws).
    apply Exists_exists. eexists. split.
    + apply in_or_app. right. left. reflexivity.
    + exists "pending". repeat split. discriminate.
  - apply (processData_throws_iff DateFns.v3 v3_laws).
    repeat constructor; intros (d & Hd & Hne & Hp); vm_compute in Hd;
      try discriminate; inversion Hd; subst; vm_compute in Hp; discriminate.
Defined.

(** ** Keys of a dictionary *)

Section KeyFacts.
Context {V : Type}.

Lemma get_None_iff (o : JS.object V) (k : string) :
  JS.get o k = None <-> ~ In k (map fst o).
Proof.
  induction o as [|[k' v] o IH]; simpl; [tauto|].
  destruct (String.eqb_spec k' k).
  - split; [discriminate|]. intros H. exfalso. apply H. left. assumption.
  - rewrite IH. tauto.
Qed.

Lemma set_keys_present (o : JS.object V) (k : string) (b v : V) :
  JS.get o k = Some b -> map fst (JS.set o k v) = map fst o.
Proof.
  induction o as [|[k' v'] o IH]; simpl; [discriminate|].
  destruct (String.eqb k' k); simpl; [reflexivity|].
  intros H. rewrite (IH H). reflexivity.
Qed.

Lemma set_keys_absent (o : JS.object V) (k : string) (v : V) :
  JS.get o k = None -> map fst (JS.set o k v) = (map fst o ++ [k])%list.
Proof.
  induction o as [|[k' v'] o IH]; simpl; [reflexivity|].
  destruct (String.eqb k' k); simpl; [discriminate|].
  intros H. rewrite (IH H). reflexivity.
Qed.

Lemma set_keys_In (o : JS.object V) (k : string) (v : V) (x : string) :
  In x (map fst (JS.set o k v)) <-> In x (map fst o) \/ x = k.
Proof.
  destruct (JS.get o k) as [b|] eqn:E.
  - rewrite (set_keys_present o k b v E). split; [auto|].
    intros [H|H]; [exact H|]. subst.
    destruct (in_dec string_dec k (map fst o)) as [Hin|Hout]; [exact Hin|].
    apply get_None_iff in Hout. congruence.
  - rewrite (set_keys_absent o k v E), in_app_iff. simpl. intuition.
Qed.

Lemma set_keys_NoDup (o : JS.object V) (k : string) (v : V) :
  NoDup (map fst o) -> NoDup (map fst (JS.set o k v)).
Proof.
  intros H. destruct (JS.get o k) as [b|] eqn:E.
  - rewrite (set_keys_present o k b v E). exact H.
  - rewrite (set_keys_absent o k v E).
    apply NoDup_app; [exact H|repeat constructor; simpl; tauto|].
    intros x Hx [Hk|[]]. subst. apply get_None_iff in E. contradiction.
Qed.

Lemma set_Forall_entry (R : string * V -> Prop) (o : JS.object V)
    (k : string) (v : V) :
  Forall R o -> R (k, v) -> Forall R (JS.set o k v).
Proof.
  intros H Hv. induction H as [|[k' v'] o Hv' Ho IH]; simpl.
  - constructor; [exact Hv|constructor].
  - destruct (String.eqb_spec k' k); constructor; try assumption.
    subst. exact Hv.
Qed.

End KeyFacts.

Section BucketFacts.
Variable L : DateFns.t.
Hypothesis HL : DateFns.Laws L.

(** What one call of the callback does to the dictionary. *)
Lemma step_shape (o o' : JS.object SalesTrend.DailyData)
    (item : SalesData.t) :
  SalesTrend.step L o item = JS.Ok o' ->
  (Spec.dated item = false /\ SalesTrend.dateKey L item = JS.Ok None
   /\ o' = o)
  \/ (Spec.dated item = true
      /\ exists key b,
           SalesTrend.dateKey L item = JS.Ok (Some key)
           /\ o' = JS.set o key (SalesTrend.accumulate b item)
           /\ (JS.get o key = Some b
               \/ (JS.get o key = None
                   /\ b = {| SalesTrend.date := key; SalesTrend.sales := 0;
                             SalesTrend.profit := 0;
                             SalesTrend.revenue := 0 |}))).
Proof.
  unfold SalesTrend.step.
  destruct (dateKey_cases L item) as [[Hd E]|[Hd (d & _ & _ & E)]].
  - rewrite E. simpl. intros H; inversion H. left. auto.
  - destruct (SalesTrend.dateKey L item) as [[key|]|e] eqn:Ek; simpl;
      try discriminate.
    + pose proof (dateKey_own L HL item key Ek) as Hown.
      intros H. right. split; [exact Hd|].
      destruct (JS.get o key) as [b|] eqn:Hg.
      * inversion H; subst. exists key, b. repeat split; auto.
      * rewrite Hown in H. inversion H; subst.
        eexists key, _. repeat split; auto.
    + exfalso. destruct (DateFns.format_day L (DateFns.Date_parse L d));
        simpl in E; congruence.
Qed.

Lemma step_keyed (o o' : JS.object SalesTrend.DailyData)
    (item : SalesData.t) :
  SalesTrend.step L o item = JS.Ok o' -> Spec.keyed o -> Spec.keyed o'.
Proof.
  intros H Hk.
  destruct (step_shape o o' item H)
    as [(_ & _ & ->)|(_ & key & b & _ & -> & Hb)]; [exact Hk|].
  apply set_Forall_entry; [exact Hk|]. simpl.
  destruct Hb as [Hg|[_ ->]]; [|reflexivity].
  unfold Spec.keyed in Hk. rewrite Forall_forall in Hk.
  clear H. induction o as [|[k' b'] o IH]; simpl in Hg; [discriminate|].
  destruct (String.eqb_spec k' key).
  - inversion Hg; subst. apply (Hk (key, b)). left. reflexivity.
  - apply IH; [|exact Hg]. intros kb Hkb. apply Hk. right. exact Hkb.
Qed.

Lemma step_keys (o o' : JS.object SalesTrend.DailyData)
    (item : SalesData.t) (k : string) :
  SalesTrend.step L o item = JS.Ok o' ->
  (In k (map fst o')
   <-> In k (map fst o) \/ SalesTrend.dateKey L item = JS.Ok (Some k)).
Proof.
  intros H.
  destruct (step_shape o o' item H)
    as [(_ & E & ->)|(_ & key & b & E & -> & _)].
  - rewrite E. split; [auto|]. intros [Hk|Hk]; [exact Hk|discriminate].
  - rewrite set_keys_In, E. split; intros [Hk|Hk]; auto.
    + subst. auto.
    + inversion Hk. auto.
Qed.

Lemma step_NoDup (o o' : JS.object SalesTrend.DailyData)
    (item : SalesData.t) :
  SalesTrend.step L o item = JS.Ok o' ->
  NoDup (map fst o) -> NoDup (map fst o').
Proof.
  intros H Hn.
  destruct (step_shape o o' item H)
    as [(_ & _ & ->)|(_ & key & b & _ & -> & _)]; [exact Hn|].
  apply set_keys_NoDup, Hn.
Qed.

Lemma forEach_buckets (data : list SalesData.t)
    (o o' : JS.object SalesTrend.DailyData) :
  JS.forEachM (SalesTrend.step L) data o = JS.Ok o' ->
  (Spec.keyed o -> Spec.keyed o')
  /\ (NoDup (map fst o) -> NoDup (map fst o'))
  /\ forall k,
       In k (map fst o')
       <-> In k (map fst o)
           \/ exists item,
                In item data /\ SalesTrend.dateKey L item = JS.Ok (Some k).
Proof.
  revert o; induction data as [|item data IH]; intros o; simpl.
  - intros H; inversion H; subst. repeat split; auto.
    intros [Hk|(item & [] & _)]. exact Hk.
  - destruct (SalesTrend.step L o item) as [o1|e] eqn:E1; simpl;
      [|discriminate].
    intros H. destruct (IH o1 H) as (Hk & Hn & Hin).
    split; [|split].
    + intros Ho. apply Hk, (step_keyed o o1 item E1 Ho).
    + intros Ho. apply Hn, (step_NoDup o o1 item E1 Ho).
    + intros k. rewrite Hin, (step_keys o o1 item k E1). split.
      * intros [[Ho|Hi]|(i & Hi & Hk')]; eauto 6.
      * intros [Ho|(i & [Hi|Hi] & Hk')]; subst; eauto 6.
Qed.

Lemma keyed_dates (l : list (string * SalesTrend.DailyData)) :
  Spec.keyed l -> map SalesTrend.date (map snd l) = map fst l.
Proof.
  induction 1 as [|kb l Hkb _ IH]; simpl; [reflexivity|].
  rewrite Hkb, IH. reflexivity.
Qed.

(** X7. [processData] makes one bucket per day: the days of its buckets
    are pairwise distinct, and they are exactly the formatted days of the
    records. *)
Theorem processData_one_bucket_per_day (data : list SalesData.t)
    (buckets : list SalesTrend.DailyData) :
  SalesTrend.processData L data = JS.Ok buckets ->
  NoDup (map SalesTrend.date buckets)
  /\ forall day,
       In day (map SalesTrend.date buckets)
       <-> exists item,
             In item data /\ SalesTrend.dateKey L item = JS.Ok (Some day).
Proof.
  rewrite processData_unfold.
  destruct (JS.forEachM (SalesTrend.step L) data []) as [o|e] eqn:E; simpl;
    [|discriminate].
  intros H; inversion H; subst; clear H.
  destruct (forEach_buckets data [] o E) as (Hk & Hn & Hin).
  assert (Hp : Permutation (map SalesTrend.date
                              (JS.sort (SalesTrend.by_date L) (JS.values o)))
                 (map fst o)).
  { eapply Permutation_trans; [apply Permutation_map, sort_perm|].
    unfold JS.values. rewrite keyed_dates.
    - apply Permutation_map, entries_perm.
    - eapply Permutation_Forall;
        [apply Permutation_sym, entries_perm|apply Hk; constructor]. }
  split.
  - eapply Permutation_NoDup; [apply Permutation_sym, Hp|].
    apply Hn. constructor.
  - intros day. split; intros Hd.
    + eapply Permutation_in in Hd; [|exact Hp].
      apply Hin in Hd. destruct Hd as [[]|Hd]. exact Hd.
    + eapply Permutation_in; [apply Permutation_sym, Hp|].
      apply Hin. right. exact Hd.
Qed.

(** The sum of one column of the buckets: [f] is [sales], [profit] or
    [revenue], and [g] what a record adds to it. *)
Section Column.
Variable f : SalesTrend.DailyData -> Q.
Variable g : SalesData.t -> Q.
Hypothesis f_accumulate :
  forall b item, f (SalesTrend.accumulate b item) == f b + g item.
Hypothesis f_fresh :
  forall key,
    f {| SalesTrend.date := key; SalesTrend.sales := 0;
         SalesTrend.profit := 0; SalesTrend.revenue := 0 |} == 0.

Lemma step_column (o o' : JS.object SalesTrend.DailyData)
    (item : SalesData.t) :
  SalesTrend.step L o item = JS.Ok o' ->
  Spec.sum (fun kb => f (snd kb)) o'
  == Spec.sum (fun kb => f (snd kb)) o
     + (if Spec.dated item then g item else 0).
Proof.
  intros H.
  destruct (step_shape o o' item H)
    as [(Hd & _ & ->)|(Hd & key & b & _ & -> & Hb)]; rewrite Hd.
  - ring.
  - destruct Hb as [Hg|[Hg ->]].
    + pose proof (set_sum_present f o key b
                    (SalesTrend.accumulate b item) Hg) as Hs.
      apply (Qplus_inj_r _ _ (f b)). rewrite Hs, f_accumulate. ring.
    + rewrite (set_sum_absent f o key _ Hg), f_accumulate, f_fresh. ring.
Qed.

Lemma forEach_column (data : list SalesData.t)
    (o o' : JS.object SalesTrend.DailyData) :
  JS.forEachM (SalesTrend.step L) data o = JS.Ok o' ->
  Spec.sum (fun kb => f (snd kb)) o'
  == Spec.sum (fun kb => f (snd kb)) o
     + Spec.sum g (filter Spec.dated data).
Proof.
  revert o; induction data as [|item data IH]; intros o; simpl.
  - intros H; inversion H; subst. ring.
  - destruct (SalesTrend.step L o item) as [o1|e] eqn:E1; simpl;
      [|discriminate].
    intros H. rewrite (IH o1 H), (step_column o o1 item E1).
    destruct (Spec.dated item); simpl; ring.
Qed.

Lemma processData_column (data : list SalesData.t)
    (buckets : list SalesTrend.DailyData) :
  SalesTrend.processData L data = JS.Ok buckets ->
  Spec.sum f buckets == Spec.sum g (filter Spec.dated data).
Proof.
  rewrite processData_unfold.
  destruct (JS.forEachM (SalesTrend.step L) data []) as [o|e] eqn:E; simpl;
    [|discriminate].
  intros H; inversion H; subst; clear H.
  rewrite (sum_perm _ _ _ (sort_perm _ _)), values_sum.
  rewrite (forEach_column data [] o E). simpl. ring.
Qed.

End Column.

(** X8. Whenever [processData] returns, its buckets add up to the dated
    records: total [sales], total [profit], and total [revenue], which is
    total sales less total profit. *)
Theorem processData_totals (data : list SalesData.t)
    (buckets : list SalesTrend.DailyData) :
  SalesTrend.processData L data = JS.Ok buckets ->
  Spec.sum SalesTrend.sales buckets
  == Spec.sum SalesTrend.saleAmount (filter Spec.dated data)
  /\ Spec.sum SalesTrend.profit buckets
     == Spec.sum SalesTrend.profitAmount (filter Spec.dated data)
  /\ Spec.sum SalesTrend.revenue buckets
     == Spec.sum SalesTrend.saleAmount (filter Spec.dated data)
        - Spec.sum SalesTrend.profitAmount (filter Spec.dated data).
Proof.
  intros H. split; [|split].
  - apply (processData_column SalesTrend.sales SalesTrend.saleAmount);
      [intros; simpl; ring|intros; reflexivity|exact H].
  - apply (processData_column SalesTrend.profit SalesTrend.profitAmount);
      [intros; simpl; ring|intros; reflexivity|exact H].
  - rewrite (processData_column SalesTrend.revenue
               (fun item => SalesTrend.saleAmount item
                            - SalesTrend.profitAmount item));
      [|intros; simpl; ring|intros; reflexivity|exact H].
    induction (filter Spec.dated data) as [|item l IH]; simpl; [ring|].
    rewrite IH. ring.
Qed.

End BucketFacts.

Lemma processData_one_bucket_per_day_witness :
  NoDup (map SalesTrend.date Sample.january_buckets)
  /\ forall day,
       In day (map SalesTrend.date Sample.january_buckets)
       <-> exists item,
             In item Sample.january
             /\ SalesTrend.dateKey DateFns.v3 item = JS.Ok (Some day).
Proof.
  apply (processData_one_bucket_per_day DateFns.v3 v3_laws Sample.january).
  vm_compute. reflexivity.
Defined.

Lemma processData_totals_witness :
  Spec.sum SalesTrend.sales Sample.january_buckets
  == Spec.sum SalesTrend.saleAmount (filter Spec.dated Sample.january)
  /\ Spec.sum SalesTrend.profit Sample.january_buckets
     == Spec.sum SalesTrend.profitAmount (filter Spec.dated Sample.january)
  /\ Spec.sum SalesTrend.revenue Sample.january_buckets
     == Spec.sum SalesTrend.saleAmount (filter Spec.dated Sample.january)
        - Spec.sum SalesTrend.profitAmount
            (filter Spec.dated Sample.january).
Proof.
  apply (processData_totals DateFns.v3 v3_laws Sample.january).
  vm_compute. reflexivity.
Defined.

Lemma by_date_consistent (L : DateFns.t) :
  JS.consistent
    (fun b => DateFns.Date_parse L (SalesTrend.date b) <> None)
    (SalesTrend.by_date L).
Proof.
  split.
  - intros a b Ha Hb. unfold JS.before, SalesTrend.by_date.
    destruct (DateFns.Date_parse L (SalesTrend.date a)) as [ta|];
      [|contradiction].
    destruct (DateFns.Date_parse L (SalesTrend.date b)) as [tb|];
      [|contradiction].
    simpl. rewrite negb_true_iff, negb_false_iff, Qle_bool_iff. intros E.
    assert (H : ~ inject_Z ta - inject_Z tb <= 0)
      by (rewrite <- Qle_bool_iff; congruence).
    lra.
  - intros a b c Ha Hb Hc. unfold JS.before, SalesTrend.by_date.
    destruct (DateFns.Date_parse L (SalesTrend.date a)) as [ta|];
      [|contradiction].
    destruct (DateFns.Date_parse L (SalesTrend.date b)) as [tb|];
      [|contradiction].
    destruct (DateFns.Date_parse L (SalesTrend.date c)) as [tc|];
      [|contradiction].
    simpl. rewrite !negb_false_iff, !Qle_bool_iff. lra.
Qed.

(** X9. The buckets come out in ascending order of time, provided the
    engine parses their days back (days are written [yyyy-MM-dd]). *)
Theorem processData_ascending (L : DateFns.t) (data : list SalesData.t)
    (buckets : list SalesTrend.DailyData) :
  SalesTrend.processData L data = JS.Ok buckets ->
  Forall (fun b => DateFns.Date_parse L (SalesTrend.date b) <> None)
    buckets ->
  StronglySorted (Spec.not_after L) buckets.
Proof.
  rewrite processData_unfold.
  destruct (JS.forEachM (SalesTrend.step L) data []) as [o|e]; simpl;
    [|discriminate].
  intros H; inversion H; subst; clear H. intros HP.
  apply (StronglySorted_weaken_on
           (fun b => DateFns.Date_parse L (SalesTrend.date b) <> None)
           (JS.before (SalesTrend.by_date L))); [|exact HP|].
  - intros a b Ha Hb.
    unfold JS.before, SalesTrend.by_date, Spec.not_after.
    destruct (DateFns.Date_parse L (SalesTrend.date a)) as [ta|];
      [|contradiction].
    destruct (DateFns.Date_parse L (SalesTrend.date b)) as [tb|];
      [|contradiction].
    simpl. intros Hle.
    apply negb_false_iff in Hle. apply Qle_bool_iff in Hle.
    exists ta, tb. repeat split. rewrite Zle_Qle. lra.
  - apply (sort_sorted _ _ (by_date_consistent L)).
    eapply Permutation_Forall; [apply sort_perm|exact HP].
Qed.

Lemma processData_ascending_witness :
  StronglySorted (Spec.not_after DateFns.v3) Sample.january_buckets.
Proof.
  apply (processData_ascending DateFns.v3 Sample.january).
  - vm_compute. reflexivity.
  - repeat constructor; vm_compute; discriminate.
Defined.

(* ================================================================== *)
(** * [top-products.tsx]: more on the ranking *)
(* ================================================================== *)

Lemma fold_reducer_keys (data : list SalesData.t)
    (acc : list TopProducts.Product) :
  NoDup (map TopProducts.product acc) ->
  NoDup (map TopProducts.product (fold_left TopProducts.reducer data acc))
  /\ forall k,
       In k (map TopProducts.product (fold_left TopProducts.reducer data acc))
       <-> In k (map TopProducts.product acc)
           \/ In k (map SalesData.product data).
Proof.
  revert acc; induction data as [|item data IH]; intros acc Hn; simpl.
  - split; [exact Hn|]. intros k. tauto.
  - assert (Hstep : NoDup (map TopProducts.product
                             (TopProducts.reducer acc item))
                    /\ forall k,
                         In k (map TopProducts.product
                                 (TopProducts.reducer acc item))
                         <-> In k (map TopProducts.product acc)
                             \/ SalesData.product item = k).
    { destruct (in_dec option_string_dec (SalesData.product item)
                  (map TopProducts.product acc)) as [Hin|Hout].
      - rewrite reducer_keys_present by exact Hin. split; [exact Hn|].
        intros k. split; [auto|]. intros [H|H]; subst; assumption.
      - rewrite reducer_keys_absent by exact Hout. split.
        + apply NoDup_app; [exact Hn|repeat constructor; simpl; tauto|].
          intros k Hk [E|[]]. subst. contradiction.
        + intros k. rewrite in_app_iff. simpl. tauto. }
    destruct Hstep as [Hn' Hin'].
    destruct (IH _ Hn') as [Hn'' Hin'']. split; [exact Hn''|].
    intros k. rewrite Hin'', Hin'. tauto.
Qed.

(** X10. The ranking has exactly one entry for every distinct
    [product] of the records, whatever the records hold. *)
Theorem ranking_one_entry_per_product (data : list SalesData.t) :
  NoDup (map TopProducts.product (TopProducts.ranking data))
  /\ forall k,
       In k (map TopProducts.product (TopProducts.ranking data))
       <-> In k (map SalesData.product data).
Proof.
  destruct (fold_reducer_keys data [] (NoDup_nil _)) as [Hn Hin].
  assert (Hp : Permutation
                 (map TopProducts.product (TopProducts.ranking data))
                 (map TopProducts.product
                    (fold_left TopProducts.reducer data []))).
  { apply Permutation_map, sort_perm. }
  split.
  - eapply Permutation_NoDup; [apply Permutation_sym, Hp|exact Hn].
  - intros k. split; intros H.
    + eapply Permutation_in in H; [|exact Hp].
      apply Hin in H. destruct H as [[]|H]. exact H.
    + eapply Permutation_in; [apply Permutation_sym, Hp|].
      apply Hin. right. exact H.
Qed.

Lemma existsb_strict_eq (k : option string) (seen : list (option string)) :
  existsb (TopProducts.strict_eq k) seen = true <-> In k seen.
Proof.
  rewrite existsb_exists. split.
  - intros (x & Hx & E). apply strict_eq_true in E. subst. exact Hx.
  - intros H. exists k. split; [exact H|]. apply strict_eq_true. reflexivity.
Qed.

Lemma first_seen_ext (seen seen' l : list (option string)) :
  (forall k, In k seen <-> In k seen') ->
  Spec.first_seen seen l = Spec.first_seen seen' l.
Proof.
  revert seen seen'; induction l as [|k l IH]; intros seen seen' H; simpl;
    [reflexivity|].
  assert (E : existsb (TopProducts.strict_eq k) seen
              = existsb (TopProducts.strict_eq k) seen').
  { apply eq_true_iff_eq. rewrite !existsb_strict_eq. apply H. }
  rewrite E. destruct (existsb (TopProducts.strict_eq k) seen').
  - apply IH, H.
  - f_equal. apply IH. intros k'. simpl. rewrite (H k'). tauto.
Qed.

Lemma fold_reducer_first_seen (data : list SalesData.t)
    (acc : list TopProducts.Product) :
  map TopProducts.product (fold_left TopProducts.reducer data acc)
  = (map TopProducts.product acc
     ++ Spec.first_seen (map TopProducts.product acc)
          (map SalesData.product data))%list.
Proof.
  revert acc; induction data as [|item data IH]; intros acc; simpl.
  - rewrite app_nil_r. reflexivity.
  - rewrite IH.
    destruct (existsb (TopProducts.strict_eq (SalesData.product item))
                (map TopProducts.product acc)) eqn:E.
    + apply existsb_strict_eq in E.
      rewrite reducer_keys_present by exact E. reflexivity.
    + assert (Hout : ~ In (SalesData.product item)
                       (map TopProducts.product acc)).
      { intros Hin. apply existsb_strict_eq in Hin. congruence. }
      rewrite reducer_keys_absent by exact Hout.
      rewrite <- app_assoc. simpl. do 2 f_equal.
      apply first_seen_ext. intros k. rewrite in_app_iff. simpl. tauto.
Qed.

Lemma insert_stable {A : Type} (cmp : A -> A -> JS.number)
    (sel : A -> bool) (x : A) (l : list A) :
  (forall a b, sel a = true -> sel b = true ->
               JS.positive (cmp a b) = false) ->
  filter sel (JS.insert cmp x l) = filter sel (x :: l).
Proof.
  intros H. induction l as [|y l IH]; simpl; [reflexivity|].
  destruct (JS.positive (cmp x y)) eqn:E; [|reflexivity].
  simpl. rewrite IH. simpl.
  destruct (sel x) eqn:Ex, (sel y) eqn:Ey; try reflexivity.
  rewrite (H x y Ex Ey) in E. discriminate.
Qed.

Lemma sort_stable {A : Type} (cmp : A -> A -> JS.number)
    (sel : A -> bool) (l : list A) :
  (forall a b, sel a = true -> sel b = true ->
               JS.positive (cmp a b) = false) ->
  filter sel (JS.sort cmp l) = filter sel l.
Proof.
  intros H. induction l as [|x l IH]; simpl; [reflexivity|].
  rewrite (insert_stable cmp sel x _ H). simpl. rewrite IH. reflexivity.
Qed.

(** X11. Ties keep the order of first appearance.  When every record
    has a quantity, so that the comparator of the sort never answers
    [NaN] and is consistent, the reduction lists the products in the
    order in which the records first name them, the ranking is in the
    order of the comparator, and the sort leaves entries of equal
    quantity in the order of the reduction.  The quantities are added
    exactly, as whole quantities are: which entries tie is a matter of the
    exact sums. *)
Theorem ranking_ties_first_seen (data : list SalesData.t) :
  Forall Spec.has_quantity data ->
  map TopProducts.product (fold_left TopProducts.reducer data [])
  = Spec.first_seen [] (map SalesData.product data)
  /\ StronglySorted (JS.before TopProducts.by_quantity)
       (TopProducts.ranking data)
  /\ forall q,
       filter (Spec.quantity_is q) (TopProducts.ranking data)
       = filter (Spec.quantity_is q) (fold_left TopProducts.reducer data []).
Proof.
  intros H. split; [apply (fold_reducer_first_seen data [])|]. split.
  { apply (sort_sorted _ _ by_quantity_consistent).
    assert (G : Spec.grouped [] [])
      by (split; [constructor|intros item []|constructor]).
    pose proof (Spec.grouped_sums _ _ (fold_reducer_grouped data [] [] H G))
      as Hs.
    eapply Forall_impl; [|exact Hs].
    intros p (q & Hq & _). exists q. exact Hq. }
  intros q. apply sort_stable. intros a b Ha Hb.
  unfold Spec.quantity_is in Ha, Hb. unfold TopProducts.by_quantity.
  destruct (TopProducts.quantity a) as [[x|]|]; try discriminate.
  destruct (TopProducts.quantity b) as [[y|]|]; try discriminate.
  simpl. apply Qeq_bool_eq in Ha, Hb.
  rewrite negb_false_iff, Qle_bool_iff. lra.
Qed.

Lemma ranking_ties_first_seen_witness :
  let data :=
    [ Sample.order "2024-01-01" "" "" "B" 2 1 2 0;
      Sample.order "2024-01-01" "" "" "C" 5 1 5 0;
      Sample.order "2024-01-01" "" "" "A" 1 1 1 0;
      Sample.order "2024-01-02" "" "" "A" 1 1 1 0 ] in
  map TopProducts.product (fold_left TopProducts.reducer data [])
  = Spec.first_seen [] (map SalesData.product data)
  /\ StronglySorted (JS.before TopProducts.by_quantity)
       (TopProducts.ranking data)
  /\ forall q,
       filter (Spec.quantity_is q) (TopProducts.ranking data)
       = filter (Spec.quantity_is q) (fold_left TopProducts.reducer data []).
Proof.
  intros data. apply (ranking_ties_first_seen data).
  repeat constructor; discriminate.
Defined.

Example ranking_tie :
  map TopProducts.product
    (TopProducts.ranking
       [ Sample.order "2024-01-01" "" "" "B" 2 1 2 0;
         Sample.order "2024-01-01" "" "" "C" 5 1 5 0;
         Sample.order "2024-01-01" "" "" "A" 1 1 1 0;
         Sample.order "2024-01-02" "" "" "A" 1 1 1 0 ])
  = [Some "C"; Some "B"; Some "A"].
Proof. reflexivity. Qed.

Lemma sales_sum_snoc (key : option string) (seen : list SalesData.t)
    (item : SalesData.t) :
  Spec.sales_sum key (seen ++ [item])
  == Spec.sales_sum key seen
     + (if TopProducts.strict_eq key (SalesData.product item)
        then match SalesData.quantity item, SalesData.price item with
             | Some q, Some p => q * p
             | _, _ => 0
             end
        else 0).
Proof. unfold Spec.sales_sum. rewrite sum_app. simpl. ring. Qed.

Lemma sales_sum_unseen (key : option string) (seen : list SalesData.t) :
  (forall item, In item seen -> SalesData.product item <> key) ->
  Spec.sales_sum key seen == 0.
Proof.
  unfold Spec.sales_sum. induction seen as [|item seen IH]; intros H; simpl.
  - reflexivity.
  - rewrite IH by (intros i Hi; apply H; right; exact Hi).
    assert (E : TopProducts.strict_eq key (SalesData.product item) = false).
    { apply strict_eq_false. intros E. apply (H item); [left; reflexivity|].
      symmetry; exact E. }
    rewrite E. ring.
Qed.

Lemma holds_sales_snoc_other (seen : list SalesData.t) (item : SalesData.t)
    (p : TopProducts.Product) :
  Spec.holds_sales_sum seen p ->
  TopProducts.product p <> SalesData.product item ->
  Spec.holds_sales_sum (seen ++ [item]) p.
Proof.
  intros (s & Hs & Hsum) Hne. exists s. split; [exact Hs|].
  rewrite sales_sum_snoc, Hsum.
  apply strict_eq_false in Hne. rewrite Hne. ring.
Qed.

Lemma reducer_sales (seen : list SalesData.t) (item : SalesData.t)
    (acc : list TopProducts.Product) :
  Spec.has_quantity_and_price item ->
  NoDup (map TopProducts.product acc) ->
  (~ In (SalesData.product item) (map TopProducts.product acc) ->
   Spec.sales_sum (SalesData.product item) seen == 0) ->
  Forall (Spec.holds_sales_sum seen) acc ->
  Forall (Spec.holds_sales_sum (seen ++ [item]))
    (TopProducts.reducer acc item).
Proof.
  intros [Hq Hp]. 
  destruct (SalesData.quantity item) as [qi|] eqn:Eq; [clear Hq|congruence].
  destruct (SalesData.price item) as [pi|] eqn:Ep; [clear Hp|congruence].
  assert (Hline : TopProducts.lineSales item = JS.Num (qi * pi)).
  { unfold TopProducts.lineSales, TopProducts.num. rewrite Eq, Ep.
    reflexivity. }
  induction acc as [|p acc IH]; simpl; intros Hnd Hz Hacc.
  - constructor; [|constructor]. exists (qi * pi). simpl.
    split; [exact Hline|].
    rewrite sales_sum_snoc, Hz by tauto.
    rewrite (proj2 (strict_eq_true _ _) eq_refl), Eq, Ep. ring.
  - inversion Hnd as [|? ? Hpn Hnd']; subst.
    inversion Hacc as [|? ? (s & Hps & Hsum) Hacc']; subst.
    destruct (TopProducts.strict_eq (TopProducts.product p)
                (SalesData.product item)) eqn:E.
    + constructor.
      * exists (s + qi * pi). simpl. rewrite Hps, Hline.
        split; [reflexivity|].
        rewrite sales_sum_snoc, E, Eq, Ep, Hsum. reflexivity.
      * apply strict_eq_true in E.
        rewrite Forall_forall in Hacc'. apply Forall_forall. intros p' Hp'.
        apply holds_sales_snoc_other; [apply Hacc', Hp'|].
        rewrite <- E. intros E'. apply Hpn. rewrite <- E'.
        apply in_map, Hp'.
    + constructor.
      * apply holds_sales_snoc_other; [exists s; auto|].
        apply strict_eq_false, E.
      * apply IH; [exact Hnd'| |exact Hacc'].
        intros H. apply Hz. apply strict_eq_false in E. simpl. tauto.
Qed.

Lemma fold_reducer_sales (data seen : list SalesData.t)
    (acc : list TopProducts.Product) :
  Forall Spec.has_quantity_and_price data ->
  Spec.grouped seen acc ->
  Forall (Spec.holds_sales_sum seen) acc ->
  Forall (Spec.holds_sales_sum (seen ++ data))
    (fold_left TopProducts.reducer data acc).
Proof.
  intros H; revert seen acc; induction H as [|item data Hi _ IH];
    intros seen acc Hg Hs; simpl.
  - rewrite app_nil_r. exact Hs.
  - replace (seen ++ item :: data)%list with ((seen ++ [item]) ++ data)%list
      by (rewrite <- app_assoc; reflexivity).
    apply IH.
    + apply reducer_grouped; [apply Hi|exact Hg].
    + destruct Hg as [Hk Hc _].
      apply reducer_sales; auto.
      intros Hout. apply sales_sum_unseen.
      intros i Hin E. apply Hout. rewrite <- E. apply Hc, Hin.
Qed.

(** X12. When every record has a quantity and a price, every entry of
    the ranking holds, as its [sales], the sum of [quantity * price] over
    the records of its product. *)
Theorem ranking_sales_sums (data : list SalesData.t) :
  Forall Spec.has_quantity_and_price data ->
  Forall (Spec.holds_sales_sum data) (TopProducts.ranking data).
Proof.
  intros H.
  eapply Permutation_Forall; [apply Permutation_sym, sort_perm|].
  apply (fold_reducer_sales data [] [] H).
  - split; [constructor|intros _ []|constructor].
  - constructor.
Qed.

Lemma ranking_sales_sums_witness :
  Forall (Spec.holds_sales_sum Sample.january)
    (TopProducts.ranking Sample.january).
Proof.
  apply (ranking_sales_sums Sample.january).
  repeat constructor; discriminate.
Defined.

(* ================================================================== *)
(** * [regional-sales.tsx]: more on the regions *)
(* ================================================================== *)

Lemma get_In {V : Type} (o : JS.object V) (k : string) (v : V) :
  JS.get o k = Some v -> In (k, v) o.
Proof.
  induction o as [|[k' v'] o IH]; simpl; [discriminate|].
  destruct (String.eqb_spec k' k).
  - intros H; inversion H; subst. left. reflexivity.
  - intros H. right. apply IH, H.
Qed.

Lemma inherits_true (k : string) :
  JS.inherits k = true ->
  k = "__proto__" \/ In k JS.Object_prototype_methods.
Proof.
  unfold JS.inherits.
  destruct (in_dec string_dec k ("__proto__" :: JS.Object_prototype_methods))
    as [Hin|]; [|discriminate].
  intros _. destruct Hin as [H|H]; auto.
Qed.

Lemma method_inherits (k : string) :
  In k JS.Object_prototype_methods ->
  JS.inherits k = true /\ k <> "__proto__".
Proof.
  intros H. split.
  - unfold JS.inherits.
    destruct (in_dec string_dec k
                ("__proto__" :: JS.Object_prototype_methods)) as [|Hout];
      [reflexivity|]. exfalso. apply Hout. right. exact H.
  - intros ->. simpl in H.
    repeat (destruct H as [H|H]; [discriminate|]). exact H.
Qed.

Lemma reducer_slots (acc : JS.object RegionalSales.slot)
    (item : SalesData.t) :
  Forall Spec.slot_of_key acc ->
  Forall Spec.slot_of_key (RegionalSales.reducer acc item).
Proof.
  intros H. unfold RegionalSales.reducer.
  destruct (JS.get acc (RegionalSales.regionOf item)) as [[q|]|] eqn:Hg.
  - apply set_Forall_entry; [exact H|].
    rewrite Forall_forall in H. apply (H _ (get_In _ _ _ Hg)).
  - apply set_Forall_entry; [exact H|].
    rewrite Forall_forall in H. apply (H _ (get_In _ _ _ Hg)).
  - destruct (String.eqb_spec (RegionalSales.regionOf item) "__proto__")
      as [E|E]; [exact H|].
    destruct (JS.inherits (RegionalSales.regionOf item)) eqn:Hi.
    + apply set_Forall_entry; [exact H|].
      destruct (inherits_true _ Hi); [contradiction|assumption].
    + apply set_Forall_entry; [exact H|exact Hi].
Qed.

Lemma reducer_keys (acc : JS.object RegionalSales.slot)
    (item : SalesData.t) :
  (NoDup (map fst acc) -> NoDup (map fst (RegionalSales.reducer acc item)))
  /\ forall k,
       In k (map fst (RegionalSales.reducer acc item))
       <-> In k (map fst acc)
           \/ (k = RegionalSales.regionOf item /\ k <> "__proto__").
Proof.
  unfold RegionalSales.reducer.
  destruct (JS.get acc (RegionalSales.regionOf item)) as [s|] eqn:Hg.
  - assert (Hin : In (RegionalSales.regionOf item) (map fst acc)).
    { destruct (in_dec string_dec (RegionalSales.regionOf item)
                  (map fst acc)) as [Hin|Hout]; [exact Hin|].
      apply get_None_iff in Hout. congruence. }
    assert (Hs : forall v k,
              In k (map fst (JS.set acc (RegionalSales.regionOf item) v))
              <-> In k (map fst acc)
                  \/ (k = RegionalSales.regionOf item /\ k <> "__proto__")).
    { intros v k. rewrite set_keys_In. split.
      - intros [H|H]; [auto|]. subst. auto.
      - intros [H|[H _]]; auto. }
    destruct s as [q|]; (split; [apply set_keys_NoDup|apply Hs]).
  - destruct (String.eqb_spec (RegionalSales.regionOf item) "__proto__")
      as [E|E].
    + split; [auto|]. intros k. split; [auto|].
      intros [H|[H1 H2]]; [exact H|]. congruence.
    + assert (Hs : forall v k,
                In k (map fst (JS.set acc (RegionalSales.regionOf item) v))
                <-> In k (map fst acc)
                    \/ (k = RegionalSales.regionOf item
                        /\ k <> "__proto__")).
      { intros v k. rewrite set_keys_In. split.
        - intros [H|H]; [auto|]. subst. auto.
        - intros [H|[H _]]; auto. }
      destruct (JS.inherits (RegionalSales.regionOf item));
        (split; [apply set_keys_NoDup|apply Hs]).
Qed.

Lemma fold_reducer_keys_slots (data : list SalesData.t)
    (acc : JS.object RegionalSales.slot) :
  (Forall Spec.slot_of_key acc ->
   Forall Spec.slot_of_key (fold_left RegionalSales.reducer data acc))
  /\ (NoDup (map fst acc) ->
      NoDup (map fst (fold_left RegionalSales.reducer data acc)))
  /\ forall k,
       In k (map fst (fold_left RegionalSales.reducer data acc))
       <-> In k (map fst acc)
           \/ (k <> "__proto__"
               /\ exists item,
                    In item data /\ RegionalSales.regionOf item = k).
Proof.
  revert acc; induction data as [|item data IH]; intros acc; simpl.
  - repeat split; auto. intros [H|(_ & i & [] & _)]. exact H.
  - destruct (IH (RegionalSales.reducer acc item)) as (Hs & Hn & Hk).
    destruct (reducer_keys acc item) as [Hn1 Hk1].
    split; [|split].
    + intros H. apply Hs, reducer_slots, H.
    + intros H. apply Hn, Hn1, H.
    + intros k. rewrite Hk, Hk1. split.
      * intros [[H|[H1 H2]]|(H1 & i & Hi & H2)];
          [auto|subst; right; split; [exact H2|]; eauto|eauto 7].
      * intros [H|(H1 & i & [Hi|Hi] & H2)]; subst; eauto 7.
Qed.

Lemma mapM_toChartData_throws (l : list (string * RegionalSales.slot)) :
  Exists (fun kv => snd kv = RegionalSales.Text) l ->
  JS.mapM RegionalSales.toChartData l = JS.Throw JS.TypeError.
Proof.
  induction 1 as [kv l H|kv l _ IH]; simpl.
  - unfold RegionalSales.toChartData. rewrite H. reflexivity.
  - unfold RegionalSales.toChartData at 1.
    destruct (snd kv); simpl; [|reflexivity]. rewrite IH. reflexivity.
Qed.

Lemma mapM_toChartData_returns (l : list (string * RegionalSales.slot)) :
  Forall (fun kv => snd kv <> RegionalSales.Text) l ->
  exists out, JS.mapM RegionalSales.toChartData l = JS.Ok out.
Proof.
  induction 1 as [|kv l H _ [out IH]]; simpl; [eexists; reflexivity|].
  unfold RegionalSales.toChartData at 1.
  destruct (snd kv); [|contradiction]. simpl. rewrite IH. simpl.
  eexists. reflexivity.
Qed.

Lemma mapM_toChartData_names (l : list (string * RegionalSales.slot))
    (out : list RegionalSales.ChartData) :
  JS.mapM RegionalSales.toChartData l = JS.Ok out ->
  map RegionalSales.name out = map fst l.
Proof.
  intros H. apply mapM_Ok_Forall2 in H.
  induction H as [|kv r l out Hr _ IH]; simpl; [reflexivity|].
  rewrite IH. unfold RegionalSales.toChartData in Hr.
  destruct (snd kv); inversion Hr; subst. reflexivity.
Qed.

Lemma sortedData_throws_iff (data : list SalesData.t) :
  (Exists Spec.method_region data ->
   RegionalSales.sortedData data = JS.Throw JS.TypeError)
  /\ (Forall (fun item => ~ Spec.method_region item) data ->
      exists sorted, RegionalSales.sortedData data = JS.Ok sorted).
Proof.
  destruct (fold_reducer_keys_slots data []) as (Hs & _ & Hk).
  specialize (Hs (Forall_nil _)).
  assert (He : Forall Spec.slot_of_key
                 (JS.entries (fold_left RegionalSales.reducer data []))).
  { eapply Permutation_Forall; [apply Permutation_sym, entries_perm|exact Hs]. }
  unfold RegionalSales.sortedData. split; intros H.
  - rewrite mapM_toChartData_throws; [reflexivity|].
    apply Exists_exists in H. destruct H as (item & Hi & Hm).
    assert (Hin : In (RegionalSales.regionOf item)
                    (map fst (fold_left RegionalSales.reducer data []))).
    { apply Hk. right. split; [apply method_inherits, Hm|]. eauto. }
    apply in_map_iff in Hin. destruct Hin as ([k s] & Ek & Hin).
    simpl in Ek. subst k.
    apply Exists_exists. exists (RegionalSales.regionOf item, s).
    split; [eapply Permutation_in;
            [apply Permutation_sym, entries_perm|exact Hin]|].
    rewrite Forall_forall in Hs. specialize (Hs _ Hin).
    unfold Spec.slot_of_key in Hs. simpl in *.
    destruct s as [q|]; [|reflexivity].
    destruct (method_inherits _ Hm). congruence.
  - destruct (mapM_toChartData_returns
                (JS.entries (fold_left RegionalSales.reducer data [])))
      as [out Ho].
    + rewrite Forall_forall in He |- *. intros [k s] Hin Et.
      simpl in Et. subst s. specialize (He _ Hin).
      unfold Spec.slot_of_key in He. simpl in He.
      assert (Hkin : In k (map fst
                             (fold_left RegionalSales.reducer data []))).
      { apply (in_map fst) in Hin. simpl in Hin.
        eapply Permutation_in;
          [apply Permutation_map, entries_perm|exact Hin]. }
      apply Hk in Hkin. destruct Hkin as [[]|(_ & item & Hi & Er)].
      rewrite Forall_forall in H. apply (H item Hi).
      unfold Spec.method_region. rewrite Er. exact He.
    + rewrite Ho. simpl. eexists. reflexivity.
Qed.

(** X13. The regional chart throws, and then [TypeError], exactly when
    the region of some record names a method of [Object.prototype], such
    as ["constructor"] or ["toString"]; otherwise it returns. *)
Theorem chartData_throws_iff (data : list SalesData.t) (isMobile : bool) :
  (Exists Spec.method_region data ->
   RegionalSales.chartData data isMobile = JS.Throw JS.TypeError)
  /\ (Forall (fun item => ~ Spec.method_region item) data ->
      exists out, RegionalSales.chartData data isMobile = JS.Ok out).
Proof.
  destruct (sortedData_throws_iff data) as [Ht Hr].
  unfold RegionalSales.chartData. split; intros H.
  - destruct data as [|item data]; [inversion H|].
    rewrite (Ht H). reflexivity.
  - destruct data as [|item data]; [eexists; reflexivity|].
    destruct (Hr H) as [sorted Hs]. rewrite Hs. simpl.
    destruct (isMobile && _); eexists; reflexivity.
Qed.

Lemma chartData_throws_iff_witness :
  RegionalSales.chartData
    (Sample.seven_regions
       ++ [Sample.order "2024-03-08" "Toys" "toString" "Kite" 1 5 5 1])
    true
  = JS.Throw JS.TypeError
  /\ exists out,
       RegionalSales.chartData Sample.seven_regions true = JS.Ok out.
Proof.
  split.
  - apply (chartData_throws_iff _ true).
    apply Exists_exists. eexists. split.
    + apply in_or_app. right. left. reflexivity.
    + unfold Spec.method_region. simpl. tauto.
  - apply (chartData_throws_iff Sample.seven_regions true).
    repeat constructor; unfold Spec.method_region; simpl;
      intros H; repeat (destruct H as [H|H]; [discriminate|]); exact H.
Defined.

Lemma Ok_inj {A : Type} (a b : A) : JS.Ok a = JS.Ok b -> a = b.
Proof. congruence. Qed.

(** X14. On a constrained display the regional chart never has more
    than five entries. *)
Theorem chartData_mobile_at_most_five (data : list SalesData.t)
    (out : list RegionalSales.ChartData) :
  RegionalSales.chartData data true = JS.Ok out ->
  (List.length out <= 5)%nat.
Proof.
  unfold RegionalSales.chartData. destruct data as [|item data].
  - intros H; inversion H. simpl. lia.
  - destruct (RegionalSales.sortedData (item :: data)) as [sorted|e];
      cbn [JS.bind]; [|discriminate].
    destruct (Nat.ltb_spec 5 (List.length sorted)) as [Hlen|Hlen];
      cbn [andb]; intros H; apply Ok_inj in H; subst out.
    + unfold JS.slice_to.
      rewrite length_app, length_firstn, Nat.min_l by lia. simpl. lia.
    + assumption.
Qed.

Lemma chartData_mobile_at_most_five_witness :
  (List.length
     [ {| RegionalSales.name := "North"; RegionalSales.value := 7025 # 100 |};
       {| RegionalSales.name := "South"; RegionalSales.value := 6020 # 100 |};
       {| RegionalSales.name := "East"; RegionalSales.value := 5050 # 100 |};
       {| RegionalSales.name := "West"; RegionalSales.value := 4004 # 100 |};
       {| RegionalSales.name := "Other";
          RegionalSales.value := 6199 # 100 |} ] <= 5)%nat.
Proof.
  apply (chartData_mobile_at_most_five Sample.seven_regions).
  vm_compute. reflexivity.
Defined.

(** X15. Before the collapse the chart has one entry per region: the
    names are pairwise distinct, and they are exactly the regions of the
    records (["Unknown"] for a record without one), ["__proto__"]
    excepted, which is lost. *)
Theorem sortedData_one_entry_per_region (data : list SalesData.t)
    (sorted : list RegionalSales.ChartData) :
  RegionalSales.sortedData data = JS.Ok sorted ->
  NoDup (map RegionalSales.name sorted)
  /\ forall n,
       In n (map RegionalSales.name sorted)
       <-> n <> "__proto__"
           /\ exists item,
                In item data /\ RegionalSales.regionOf item = n.
Proof.
  unfold RegionalSales.sortedData.
  destruct (JS.mapM _ _) as [out|e] eqn:Eo; simpl; [|discriminate].
  intros H; inversion H; subst; clear H.
  destruct (fold_reducer_keys_slots data []) as (_ & Hn & Hk).
  assert (Hp : Permutation
                 (map RegionalSales.name
                    (JS.sort RegionalSales.by_value out))
                 (map fst (fold_left RegionalSales.reducer data []))).
  { eapply Permutation_trans; [apply Permutation_map, sort_perm|].
    rewrite (mapM_toChartData_names _ _ Eo).
    apply Permutation_map, entries_perm. }
  split.
  - eapply Permutation_NoDup; [apply Permutation_sym, Hp|].
    apply Hn. constructor.
  - intros n. split; intros H.
    + eapply Permutation_in in H; [|exact Hp].
      apply Hk in H. destruct H as [[]|H]. exact H.
    + eapply Permutation_in; [apply Permutation_sym, Hp|].
      apply Hk. right. exact H.
Qed.

Lemma sortedData_one_entry_per_region_witness :
  let sorted :=
    [ {| RegionalSales.name := "East"; RegionalSales.value := 3000 # 100 |};
      {| RegionalSales.name := "West"; RegionalSales.value := 2000 # 100 |} ] in
  NoDup (map RegionalSales.name sorted)
  /\ forall n,
       In n (map RegionalSales.name sorted)
       <-> n <> "__proto__"
           /\ exists item,
                In item Sample.january /\ RegionalSales.regionOf item = n.
Proof.
  intros sorted.
  apply (sortedData_one_entry_per_region Sample.january sorted).
  vm_compute. reflexivity.
Defined.

Lemma reducer_amounts_hold (C : Q -> Prop)
    (acc : JS.object RegionalSales.slot) (item : SalesData.t) :
  C 0 -> (forall x y, C x -> C y -> C (x + y)) ->
  C (RegionalSales.lineTotal item) ->
  Forall (Spec.amounts C) acc ->
  Forall (Spec.amounts C) (RegionalSales.reducer acc item).
Proof.
  intros C0 Cplus Ht H. unfold RegionalSales.reducer.
  destruct (JS.get acc (RegionalSales.regionOf item)) as [[q|]|] eqn:Hg.
  - apply set_Forall_entry; [exact H|]. unfold Spec.amounts; simpl.
    apply Cplus; [|exact Ht].
    rewrite Forall_forall in H. specialize (H _ (get_In _ _ _ Hg)).
    destruct (Qeq_bool q 0); [exact C0|exact H].
  - apply set_Forall_entry; [exact H|exact I].
  - destruct (String.eqb (RegionalSales.regionOf item) "__proto__");
      [exact H|].
    destruct (JS.inherits (RegionalSales.regionOf item));
      (apply set_Forall_entry; [exact H|]); [exact I|].
    unfold Spec.amounts; simpl. apply Cplus; assumption.
Qed.

Lemma toFixed2_nonneg (x : Q) : 0 <= x -> 0 <= JS.toFixed2 x.
Proof.
  intros H. unfold JS.toFixed2.
  rewrite (proj2 (Qle_bool_iff 0 x) H).
  assert (Hn : (0 <= Qfloor (Qabs x * inject_Z 100 + (1 # 2)))%Z).
  { change 0%Z with (Qfloor 0). apply Qfloor_resp_le.
    rewrite Qabs_pos by exact H.
    assert (0 <= x * inject_Z 100)
      by (apply Qmult_le_0_compat; [exact H|discriminate]).
    lra. }
  set (n := Qfloor (Qabs x * inject_Z 100 + (1 # 2))) in *.
  unfold Qle. cbn [Qnum Qden]. lia.
Qed.

(** X16. When no line total is negative, no value of the chart is
    negative, the value of ["Other"] included. *)
Theorem chartData_nonnegative (data : list SalesData.t) (isMobile : bool)
    (out : list RegionalSales.ChartData) :
  Forall (fun item => 0 <= RegionalSales.lineTotal item) data ->
  RegionalSales.chartData data isMobile = JS.Ok out ->
  Forall (fun r => 0 <= RegionalSales.value r) out.
Proof.
  intros Hd.
  assert (Hs : forall sorted,
            RegionalSales.sortedData data = JS.Ok sorted ->
            Forall (fun r => 0 <= RegionalSales.value r) sorted).
  { unfold RegionalSales.sortedData. intros sorted.
    destruct (JS.mapM _ _) as [l|e] eqn:El; simpl; [|discriminate].
    intros H; inversion H; subst; clear H.
    eapply Permutation_Forall; [apply Permutation_sym, sort_perm|].
    assert (Ha : Forall (Spec.amounts (fun q => 0 <= q))
                   (JS.entries (fold_left RegionalSales.reducer data []))).
    { eapply Permutation_Forall; [apply Permutation_sym, entries_perm|].
      clear El. generalize (Forall_nil (Spec.amounts (fun q => 0 <= q))).
      generalize (@nil (string * RegionalSales.slot)).
      induction Hd as [|item data Hi _ IH]; intros acc Hacc; simpl;
        [exact Hacc|].
      apply IH, reducer_amounts_hold; auto; [lra|intros; lra]. }
    apply mapM_Ok_Forall2 in El.
    induction El as [|kv r ? ? Hr _ IH]; constructor.
    - inversion Ha as [|? ? Hkv _]; subst.
      unfold RegionalSales.toChartData in Hr. unfold Spec.amounts in Hkv.
      destruct (snd kv); inversion Hr; subst; simpl.
      apply toFixed2_nonneg, Hkv.
    - apply IH. inversion Ha; assumption. }
  unfold RegionalSales.chartData. destruct data as [|item data].
  - intros H; inversion H. constructor.
  - destruct (RegionalSales.sortedData (item :: data)) as [sorted|e];
      cbn [JS.bind]; [|discriminate].
    specialize (Hs sorted eq_refl).
    destruct (isMobile && (5 <? List.length sorted)%nat);
      intros H; apply Ok_inj in H; subst out; [|exact Hs].
    apply Forall_app. split; [apply Forall_firstn_of, Hs|].
    constructor; [|constructor]. cbn [RegionalSales.value].
    apply toFixed2_nonneg. rewrite total_sum.
    unfold JS.slice_from.
    assert (Hk : Forall (fun r => 0 <= RegionalSales.value r)
                   (skipn 4 sorted)).
    { rewrite Forall_forall in Hs. apply Forall_forall. intros r Hr.
      apply Hs. rewrite <- (firstn_skipn 4 sorted). apply in_or_app.
      right. exact Hr. }
    induction Hk as [|r l Hr _ IH]; simpl; [lra|]. lra.
Qed.

Lemma chartData_nonnegative_witness :
  Forall (fun r => 0 <= RegionalSales.value r)
    [ {| RegionalSales.name := "East"; RegionalSales.value := 3000 # 100 |};
      {| RegionalSales.name := "West"; RegionalSales.value := 2000 # 100 |} ].
Proof.
  apply (chartData_nonnegative Sample.january false).
  - repeat constructor; vm_compute; discriminate.
  - vm_compute. reflexivity.
Defined.

(* ================================================================== *)
(** * [app/page.tsx]: the CSV export *)
(* ================================================================== *)

Lemma append_assoc (a b c : string) : ((a ++ b) ++ c = a ++ (b ++ c))%string.
Proof. induction a as [|x a IH]; simpl; [reflexivity|now rewrite IH]. Qed.

Lemma append_inv_head (a b c : string) : (a ++ b = a ++ c)%string -> b = c.
Proof.
  induction a as [|x a IH]; simpl; intros H; [exact H|].
  injection H as H. auto.
Qed.

Lemma concat_cons (sep x : string) (ls : list string) :
  String.concat sep (x :: ls) = (x ++ Spec.joined sep ls)%string.
Proof.
  revert x. induction ls as [|y ls IH]; intros x.
  - simpl. induction x as [|c x IHx]; simpl; [reflexivity|now rewrite <- IHx].
  - change (String.concat sep (x :: y :: ls))
      with (x ++ sep ++ String.concat sep (y :: ls))%string.
    rewrite IH. reflexivity.
Qed.

Lemma replace_quotes_inj (s t r1 r2 : string) :
  Spec.unquoted r1 -> Spec.unquoted r2 ->
  (ExportData.replace_quotes s ++ String ExportData.quote r1
   = ExportData.replace_quotes t ++ String ExportData.quote r2)%string ->
  s = t /\ r1 = r2.
Proof.
  intros H1 H2. revert t.
  induction s as [|c s IH]; intros [|d t]; simpl.
  - intros H. injection H as H. auto.
  - destruct (Ascii.eqb_spec d ExportData.quote) as [->|Hd]; simpl; intros H.
    + injection H as H. subst r1. exfalso. now apply H1.
    + injection H as H _. congruence.
  - destruct (Ascii.eqb_spec c ExportData.quote) as [->|Hc]; simpl; intros H.
    + injection H as H. subst r2. exfalso. now apply H2.
    + injection H as H _. congruence.
  - destruct (Ascii.eqb_spec c ExportData.quote) as [->|Hc],
             (Ascii.eqb_spec d ExportData.quote) as [->|Hd]; simpl; intros H.
    + injection H as H. destruct (IH _ H) as [-> ->]. auto.
    + injection H as H _. congruence.
    + injection H as H _. congruence.
    + injection H as Hcd H. destruct (IH _ H) as [-> ->]. subst. auto.
Qed.

Lemma quoted_app (s r : string) :
  (ExportData.quoted s ++ r
   = String ExportData.quote
       (ExportData.replace_quotes s ++ String ExportData.quote r))%string.
Proof.
  unfold ExportData.quoted. simpl. now rewrite append_assoc.
Qed.

Lemma joined_unquoted (c : ascii) (sep : string) (ls : list string)
    (r : string) :
  c <> ExportData.quote -> Spec.unquoted r ->
  Spec.unquoted (Spec.joined (String c sep) ls ++ r).
Proof. intros Hc Hr. destruct ls as [|x ls]; simpl; assumption. Qed.

Lemma cells_inj (xs ys : list string) (r1 r2 : string) :
  List.length xs = List.length ys ->
  Spec.unquoted r1 -> Spec.unquoted r2 ->
  (Spec.joined ExportData.comma (map ExportData.quoted xs) ++ r1
   = Spec.joined ExportData.comma (map ExportData.quoted ys) ++ r2)%string ->
  xs = ys /\ r1 = r2.
Proof.
  intros Hlen H1 H2. revert ys Hlen.
  induction xs as [|x xs IH]; intros [|y ys] Hlen; try discriminate Hlen.
  - simpl. auto.
  - cbn [map Spec.joined]. rewrite !append_assoc, !quoted_app.
    unfold ExportData.comma at 1 3. cbn [append]. intros H.
    injection H as H.
    apply replace_quotes_inj in H;
      try (apply joined_unquoted; [discriminate|assumption]).
    destruct H as [-> H]. injection Hlen as Hlen.
    destruct (IH _ Hlen H) as [-> ->]. auto.
Qed.

Lemma line_inj (xs ys : list string) (r1 r2 : string) :
  List.length xs = List.length ys ->
  Spec.unquoted r1 -> Spec.unquoted r2 ->
  (String.concat ExportData.comma (map ExportData.quoted xs) ++ r1
   = String.concat ExportData.comma (map ExportData.quoted ys) ++ r2)%string ->
  xs = ys /\ r1 = r2.
Proof.
  intros Hlen H1 H2.
  destruct xs as [|x xs], ys as [|y ys]; try discriminate Hlen.
  - simpl. auto.
  - cbn [map]. rewrite !concat_cons, !append_assoc, !quoted_app.
    intros H. injection H as H.
    apply replace_quotes_inj in H;
      try (apply joined_unquoted; [discriminate|assumption]).
    destruct H as [-> H]. injection Hlen as Hlen.
    destruct (cells_inj _ _ _ _ Hlen H1 H2 H) as [-> ->]. auto.
Qed.

Lemma rows_inj (n : nat) (R1 R2 : list (list string)) :
  Forall (fun r => List.length r = n) R1 ->
  Forall (fun r => List.length r = n) R2 ->
  Spec.joined ExportData.line_feed
    (map (fun r => String.concat ExportData.comma (map ExportData.quoted r))
       R1)
  = Spec.joined ExportData.line_feed
      (map (fun r => String.concat ExportData.comma (map ExportData.quoted r))
         R2) ->
  R1 = R2.
Proof.
  intros HR1. revert R2.
  induction HR1 as [|r1 R1 Hr1 HR1 IH]; intros R2 HR2; destruct HR2 as [|r2 R2 Hr2 HR2].
  - reflexivity.
  - discriminate.
  - discriminate.
  - cbn [map Spec.joined]. unfold ExportData.line_feed at 1 3. cbn [append].
    intros H. injection H as H.
    apply line_inj in H.
    + destruct H as [-> H]. rewrite (IH _ HR2 H). reflexivity.
    + congruence.
    + destruct R1; simpl; [exact I|discriminate].
    + destruct R2; simpl; [exact I|discriminate].
Qed.

Section ExportFacts.

Variables Row V : Type.
Variable Object_keys : Row -> list string.
Variable read : Row -> string -> V.
Variable truthy : V -> bool.
Variable ToString : V -> string.

Lemma csvContent_unfold (first : Row) (rest : list Row) :
  ExportData.csvContent Row V Object_keys read truthy ToString (first :: rest)
  = Some (String.concat ExportData.comma (Object_keys first)
          ++ Spec.joined ExportData.line_feed
               (map (fun r => String.concat ExportData.comma
                                (map ExportData.quoted r))
                  (map (Spec.texts read truthy ToString (Object_keys first))
                     (first :: rest))))%string.
Proof.
  unfold ExportData.csvContent. rewrite concat_cons. do 3 f_equal.
  rewrite map_map. apply map_ext. intros row.
  unfold ExportData.line, Spec.texts. rewrite map_map. reflexivity.
Qed.

(** X17. The quoting of the export loses nothing.  Two non-empty record
    sets whose first records have the same keys export to the same text
    exactly when they have the same cell texts, record by record and
    column by column: commas, quotes and line feeds inside a value cannot
    move a cell boundary. *)
Theorem csvContent_lossless (first1 first2 : Row) (rest1 rest2 : list Row) :
  Object_keys first1 = Object_keys first2 ->
  ExportData.csvContent Row V Object_keys read truthy ToString
    (first1 :: rest1)
  = ExportData.csvContent Row V Object_keys read truthy ToString
      (first2 :: rest2)
  <-> map (Spec.texts read truthy ToString (Object_keys first1))
        (first1 :: rest1)
      = map (Spec.texts read truthy ToString (Object_keys first1))
          (first2 :: rest2).
Proof.
  intros Hk. rewrite !csvContent_unfold, <- Hk. split.
  - intros H.
    apply (rows_inj (List.length (Object_keys first1)));
      try (apply Forall_forall; intros r Hr; apply in_map_iff in Hr;
           destruct Hr as [row [<- _]]; unfold Spec.texts; apply length_map).
    apply (append_inv_head
             (String.concat ExportData.comma (Object_keys first1))).
    congruence.
  - intros H. rewrite H. reflexivity.
Qed.

End ExportFacts.

Lemma csvContent_lossless_witness :
  Sample.Object_keys (hd [] Sample.noted)
  = Sample.Object_keys (hd [] Sample.unnoted)
  /\ (ExportData.csvContent _ _ Sample.Object_keys Sample.read Sample.truthy
        Sample.ToString Sample.noted
      = ExportData.csvContent _ _ Sample.Object_keys Sample.read
          Sample.truthy Sample.ToString Sample.unnoted
      <-> map (Spec.texts Sample.read Sample.truthy Sample.ToString
                 ["product"; "note"]) Sample.noted
          = map (Spec.texts Sample.read Sample.truthy Sample.ToString
                   ["product"; "note"]) Sample.unnoted).
Proof.
  split; [reflexivity|].
  apply (csvContent_lossless Sample.Row (option string) Sample.Object_keys
           Sample.read Sample.truthy Sample.ToString
           [("product", "Kite"); ("note", "fragile, large")]
           [("product", "Kite"); ("note", "fragile, large")]
           [[("product", "Atlas"); ("note", "")]]
           [[("product", "Atlas")]]).
  reflexivity.
Defined.

(* ================================================================== *)
(** * The charts with the numbers of the engine *)
(* ================================================================== *)

(** ** Running sums and the dictionary of buckets *)

Lemma set_Forall_update {V : Type} (R R' : string * V -> Prop)
    (o : JS.object V) (k : string) (v : V) :
  NoDup (map fst o) -> Forall R o ->
  (forall kv, R kv -> fst kv <> k -> R' kv) -> R' (k, v) ->
  Forall R' (JS.set o k v).
Proof.
  intros Hnd Ho Hother Hv.
  induction Ho as [|[k' v'] o Hkv Ho IH]; simpl.
  - constructor; [exact Hv|constructor].
  - inversion Hnd as [|? ? Hout Hnd']; subst.
    destruct (String.eqb_spec k' k) as [->|Hne].
    + constructor; [exact Hv|].
      apply Forall_forall. intros kv Hin.
      rewrite Forall_forall in Ho. apply Hother; [apply Ho, Hin|].
      intros E. apply Hout. rewrite <- E. apply in_map, Hin.
    + constructor; [apply Hother; assumption|apply IH, Hnd'].
Qed.

Section RunningFacts.
Variable A : Arith.t.
Context {T : Type} (f : T -> Arith.num A).

Lemma running_snoc (l : list T) (x : T) :
  Spec.running A f (l ++ [x])
  = Arith.add A (Spec.running A f l) (f x).
Proof. unfold Spec.running. rewrite fold_left_app. reflexivity. Qed.

End RunningFacts.

Lemma of_day_iff (L : DateFns.t) (day : string) (item : SalesData.t) :
  Spec.of_day L day item = true
  <-> SalesTrend.dateKey L item = JS.Ok (Some day).
Proof.
  unfold Spec.of_day.
  destruct (SalesTrend.dateKey L item) as [[key|]|e];
    try (split; discriminate).
  destruct (String.eqb_spec key day) as [->|Hne]; split; congruence.
Qed.

Lemma filter_snoc {T : Type} (p : T -> bool) (l : list T) (x : T) :
  filter p (l ++ [x]) = (filter p l ++ if p x then [x] else [])%list.
Proof. rewrite filter_app. simpl. destruct (p x); reflexivity. Qed.

Section MachineBuckets.
Variable A : Arith.t.
Variable sort :
  (Machine.SalesTrend.DailyData (Arith.num A) -> Machine.SalesTrend.DailyData (Arith.num A) ->
   JS.number) ->
  list (Machine.SalesTrend.DailyData (Arith.num A)) ->
  list (Machine.SalesTrend.DailyData (Arith.num A)).
Hypothesis Hsort : Engine.Sorts sort.
Variable L : DateFns.t.


(** A column of the buckets: [g] is where the callback adds [f]. *)
Variable f : SalesData.t -> Arith.num A.
Variable g : Machine.SalesTrend.DailyData (Arith.num A) -> Arith.num A.
Hypothesis g_accumulate :
  forall b item,
    g (Machine.SalesTrend.accumulate A b item) = Arith.add A (g b) (f item).
Hypothesis g_fresh :
  forall day,
    g (Machine.SalesTrend.Build_DailyData day (Arith.zero A)
         (Arith.zero A) (Arith.zero A))
    = Arith.zero A.

Lemma filed_nil : Spec.filed A L f g [] [].
Proof.
  split; simpl; try constructor. intros item key [].
Qed.

Lemma filter_of_day_none (seen : list SalesData.t)
    (o : JS.object (Machine.SalesTrend.DailyData (Arith.num A))) (key : string) :
  Spec.filed A L f g seen o -> JS.inherits key = false -> JS.get o key = None ->
  filter (Spec.of_day L key) seen = [].
Proof.
  intros F Hown Hget.
  destruct (filter (Spec.of_day L key) seen) as [|item l] eqn:E;
    [reflexivity|].
  assert (Hin : In item (filter (Spec.of_day L key) seen))
    by (rewrite E; left; reflexivity).
  apply filter_In in Hin. destruct Hin as [Hin Hday].
  apply of_day_iff in Hday.
  exfalso. exact (Spec.filed_cover A L f g _ _ F item key Hin Hday Hown Hget).
Qed.

Lemma step_filed (seen : list SalesData.t)
    (o o' : JS.object (Machine.SalesTrend.DailyData (Arith.num A)))
    (item : SalesData.t) :
  Spec.filed A L f g seen o ->
  Machine.SalesTrend.step A L o item = JS.Ok o' ->
  Spec.filed A L f g (seen ++ [item]) o'.
Proof.
  intros F. unfold Machine.SalesTrend.step.
  destruct (SalesTrend.dateKey L item) as [[key|]|e] eqn:Hk;
    cbn [JS.bind]; [| |discriminate].
  - assert (Hself : Spec.of_day L key item = true)
      by (apply of_day_iff; exact Hk).
    assert (Hother : forall k, k <> key -> Spec.of_day L k item = false).
    { intros k Hne. destruct (Spec.of_day L k item) eqn:E; [|reflexivity].
      apply of_day_iff in E. congruence. }
    destruct (JS.get o key) as [b|] eqn:Hget.
    + intros E; inversion E; subst o'; clear E.
      pose proof (get_In _ _ _ Hget) as Hin.
      pose proof (Spec.filed_own A L f g _ _ F) as Hown.
      rewrite Forall_forall in Hown. destruct (Hown _ Hin) as [Hd Hi].
      simpl in Hd, Hi.
      split.
      * apply set_keys_NoDup, (Spec.filed_keys A L f g _ _ F).
      * apply set_Forall_entry; [exact (Spec.filed_own A L f g _ _ F)|].
        simpl. split; [exact Hd|exact Hi].
      * intros it k Hit Hkey Hik Hnone.
        apply get_None_iff in Hnone. apply Hnone. apply set_keys_In.
        apply in_app_or in Hit. destruct Hit as [Hit|[<-|[]]].
        -- left. destruct (in_dec string_dec k (map fst o)) as [H|H];
             [exact H|].
           apply get_None_iff in H.
           exfalso. exact (Spec.filed_cover A L f g _ _ F it k Hit Hkey Hik H).
        -- right. congruence.
      * apply (set_Forall_update
                 (fun kb => g (snd kb)
                            = Spec.running A f
                                (filter (Spec.of_day L (fst kb)) seen)));
          [exact (Spec.filed_keys A L f g _ _ F)|exact (Spec.filed_sums A L f g _ _ F)| |].
        -- intros [k v] Hkv Hne. simpl in *.
           rewrite filter_snoc, (Hother k Hne), app_nil_r. exact Hkv.
        -- simpl. rewrite filter_snoc, Hself, running_snoc, g_accumulate.
           f_equal.
           pose proof (Spec.filed_sums A L f g _ _ F) as Hs.
           rewrite Forall_forall in Hs. exact (Hs _ Hin).
    + destruct (JS.inherits key) eqn:Hinh.
      * intros E; inversion E; subst o'; clear E.
        split.
        -- exact (Spec.filed_keys A L f g _ _ F).
        -- exact (Spec.filed_own A L f g _ _ F).
        -- intros it k Hit Hkey Hik.
           apply in_app_or in Hit. destruct Hit as [Hit|[<-|[]]].
           ++ exact (Spec.filed_cover A L f g _ _ F it k Hit Hkey Hik).
           ++ congruence.
        -- pose proof (Spec.filed_sums A L f g _ _ F) as Hs.
           apply Forall_forall. intros [k v] Hin.
           rewrite Forall_forall in Hs. specialize (Hs _ Hin).
           simpl in *.
           rewrite filter_snoc, Hother, app_nil_r; [exact Hs|].
           intros ->. apply (in_map fst) in Hin. simpl in Hin.
           apply get_None_iff in Hget. contradiction.
      * intros E; inversion E; subst o'; clear E.
        split.
        -- apply set_keys_NoDup, (Spec.filed_keys A L f g _ _ F).
        -- apply set_Forall_entry; [exact (Spec.filed_own A L f g _ _ F)|].
           simpl. split; [reflexivity|exact Hinh].
        -- intros it k Hit Hkey Hik Hnone.
           apply get_None_iff in Hnone. apply Hnone. apply set_keys_In.
           apply in_app_or in Hit. destruct Hit as [Hit|[<-|[]]].
           ++ left. destruct (in_dec string_dec k (map fst o)) as [H|H];
                [exact H|].
              apply get_None_iff in H.
              exfalso. exact (Spec.filed_cover A L f g _ _ F it k Hit Hkey Hik H).
           ++ right. congruence.
        -- apply (set_Forall_update
                    (fun kb => g (snd kb)
                               = Spec.running A f
                                   (filter (Spec.of_day L (fst kb)) seen)));
             [exact (Spec.filed_keys A L f g _ _ F)|exact (Spec.filed_sums A L f g _ _ F)| |].
           ++ intros [k v] Hkv Hne. simpl in *.
              rewrite filter_snoc, (Hother k Hne), app_nil_r. exact Hkv.
           ++ simpl.
              rewrite filter_snoc, Hself,
                (filter_of_day_none seen o key F Hinh Hget).
              simpl. rewrite g_accumulate, g_fresh. reflexivity.
  - intros E; inversion E; subst o'; clear E.
    assert (Hnone : forall k, Spec.of_day L k item = false).
    { intros k. unfold Spec.of_day. rewrite Hk. reflexivity. }
    split.
    + exact (Spec.filed_keys A L f g _ _ F).
    + exact (Spec.filed_own A L f g _ _ F).
    + intros it k Hit Hkey Hik.
      apply in_app_or in Hit. destruct Hit as [Hit|[<-|[]]].
      * exact (Spec.filed_cover A L f g _ _ F it k Hit Hkey Hik).
      * congruence.
    + eapply Forall_impl; [|exact (Spec.filed_sums A L f g _ _ F)].
      intros [k v] Hkv. simpl in *.
      rewrite filter_snoc, Hnone, app_nil_r. exact Hkv.
Qed.

Lemma forEach_filed (rest seen : list SalesData.t)
    (o o' : JS.object (Machine.SalesTrend.DailyData (Arith.num A))) :
  Spec.filed A L f g seen o ->
  JS.forEachM (Machine.SalesTrend.step A L) rest o = JS.Ok o' ->
  Spec.filed A L f g (seen ++ rest) o'.
Proof.
  revert seen o. induction rest as [|item rest IH]; intros seen o F; simpl.
  - intros E; inversion E; subst. rewrite app_nil_r. exact F.
  - destruct (Machine.SalesTrend.step A L o item) as [o1|e] eqn:E1;
      cbn [JS.bind]; [|discriminate].
    intros E. change (item :: rest) with ([item] ++ rest)%list.
    rewrite app_assoc. apply (IH _ o1); [|exact E].
    apply (step_filed seen o); assumption.
Qed.

Lemma processData_filed (data : list SalesData.t)
    (buckets : list (Machine.SalesTrend.DailyData (Arith.num A))) :
  Machine.SalesTrend.processData A sort L data = JS.Ok buckets ->
  exists o,
    Spec.filed A L f g data o
    /\ buckets = sort (Machine.SalesTrend.by_date A L) (JS.values o).
Proof.
  unfold Machine.SalesTrend.processData. destruct data as [|item data].
  - intros E; inversion E; subst. exists []. split; [apply filed_nil|].
    symmetry. apply Permutation_nil, Permutation_sym.
    apply (Engine.sort_permutes sort Hsort).
  - destruct (JS.forEachM (Machine.SalesTrend.step A L) (item :: data) [])
      as [o|e] eqn:E; cbn [JS.bind]; [|discriminate].
    intros E'; inversion E'; subst. exists o. split; [|reflexivity].
    apply (forEach_filed (item :: data) [] [] o filed_nil E).
Qed.

Lemma bucket_entry (o : JS.object (Machine.SalesTrend.DailyData (Arith.num A)))
    (b : Machine.SalesTrend.DailyData (Arith.num A)) :
  In b (sort (Machine.SalesTrend.by_date A L) (JS.values o)) ->
  exists k, In (k, b) o.
Proof.
  intros H.
  apply (Permutation_in _
           (Engine.sort_permutes sort Hsort
              (Machine.SalesTrend.by_date A L) (JS.values o)))
    in H.
  unfold JS.values in H. apply in_map_iff in H.
  destruct H as [[k v] [<- H]].
  apply (Permutation_in _ (entries_perm o)) in H. exists k. exact H.
Qed.

Lemma processData_day_sums (data : list SalesData.t)
    (buckets : list (Machine.SalesTrend.DailyData (Arith.num A))) :
  Machine.SalesTrend.processData A sort L data = JS.Ok buckets ->
  Forall (Spec.holds_day_sum A L f g data) buckets.
Proof.
  intros E. destruct (processData_filed data buckets E) as (o & F & ->).
  apply Forall_forall. intros b Hb.
  destruct (bucket_entry o b Hb) as [k Hin].
  pose proof (Spec.filed_own A L f g _ _ F) as Hown. pose proof (Spec.filed_sums A L f g _ _ F) as Hs.
  rewrite Forall_forall in Hown, Hs.
  destruct (Hown _ Hin) as [Hd _]. specialize (Hs _ Hin). simpl in Hd, Hs.
  unfold Spec.holds_day_sum. rewrite Hd. exact Hs.
Qed.

End MachineBuckets.

(** ** Exact arithmetic *)

Section ExactFacts.
Variable A : Arith.t.
Hypothesis HA : Arith.Exact A.
Context {T : Type} (f : T -> Arith.num A).

Lemma fold_add_shift (l : list T) (a x : Arith.num A) :
  fold_left (fun sum y => Arith.add A sum (f y)) l (Arith.add A x a)
  = Arith.add A x (fold_left (fun sum y => Arith.add A sum (f y)) l a).
Proof.
  revert a. induction l as [|y l IH]; intros a; simpl; [reflexivity|].
  rewrite <- (Arith.add_assoc A HA). apply IH.
Qed.

Lemma running_cons (x : T) (l : list T) :
  Spec.running A f (x :: l) = Arith.add A (f x) (Spec.running A f l).
Proof.
  unfold Spec.running. simpl.
  rewrite (Arith.add_comm A HA (Arith.zero A) (f x)).
  apply fold_add_shift.
Qed.

Lemma running_perm (l l' : list T) :
  Permutation l l' -> Spec.running A f l = Spec.running A f l'.
Proof.
  induction 1 as [|x l l' _ IH|x y l|l l' l'' _ IH1 _ IH2].
  - reflexivity.
  - rewrite !running_cons, IH. reflexivity.
  - rewrite !running_cons, !(Arith.add_assoc A HA).
    rewrite (Arith.add_comm A HA (f y) (f x)). reflexivity.
  - rewrite IH1. exact IH2.
Qed.

End ExactFacts.

Lemma running_map (A : Arith.t) {T U : Type} (f : U -> Arith.num A)
    (h : T -> U) (l : list T) :
  Spec.running A f (map h l) = Spec.running A (fun x => f (h x)) l.
Proof.
  unfold Spec.running. generalize (Arith.zero A).
  induction l as [|x l IH]; intros a; simpl; [reflexivity|apply IH].
Qed.

Lemma running_sub (A : Arith.t) (HA : Arith.Exact A) {T : Type}
    (f h : T -> Arith.num A) (l : list T) :
  Spec.running A (fun x => Arith.sub A (f x) (h x)) l
  = Arith.sub A (Spec.running A f l) (Spec.running A h l).
Proof.
  unfold Spec.running. rewrite <- (Arith.sub_zero A HA) at 1.
  generalize (Arith.zero A) at 2 4. generalize (Arith.zero A).
  induction l as [|x l IH]; intros a b; simpl; [reflexivity|].
  rewrite <- (Arith.sub_add A HA). apply IH.
Qed.

Section ExactObject.
Variable A : Arith.t.
Hypothesis HA : Arith.Exact A.
Context {V : Type} (g : V -> Arith.num A).

Lemma set_absent_app (o : JS.object V) (k : string) (v : V) :
  JS.get o k = None -> JS.set o k v = (o ++ [(k, v)])%list.
Proof.
  induction o as [|[k' v'] o IH]; simpl; [reflexivity|].
  destruct (String.eqb k' k); [discriminate|].
  intros H. rewrite (IH H). reflexivity.
Qed.

Lemma set_running_absent (o : JS.object V) (k : string) (v : V) :
  JS.get o k = None ->
  Spec.running A (fun kv => g (snd kv)) (JS.set o k v)
  = Arith.add A (Spec.running A (fun kv => g (snd kv)) o) (g v).
Proof.
  intros H. rewrite (set_absent_app o k v H), running_snoc. reflexivity.
Qed.

Lemma set_running_present (o : JS.object V) (k : string) (b v : V)
    (x : Arith.num A) :
  JS.get o k = Some b -> g v = Arith.add A (g b) x ->
  Spec.running A (fun kv => g (snd kv)) (JS.set o k v)
  = Arith.add A (Spec.running A (fun kv => g (snd kv)) o) x.
Proof.
  intros Hget Hv. induction o as [|[k' v'] o IH]; simpl in *;
    [discriminate|].
  destruct (String.eqb k' k).
  - inversion Hget; subst v'.
    rewrite !(running_cons A HA). simpl. rewrite Hv.
    rewrite <- !(Arith.add_assoc A HA). f_equal.
    apply (Arith.add_comm A HA).
  - rewrite !(running_cons A HA), (IH Hget).
    apply (Arith.add_assoc A HA).
Qed.

Lemma values_running (o : JS.object V) :
  Spec.running A g (JS.values o)
  = Spec.running A (fun kv => g (snd kv)) o.
Proof.
  unfold JS.values. rewrite running_map.
  apply (running_perm A HA), entries_perm.
Qed.

End ExactObject.

Section MachineTotals.
Variable A : Arith.t.
Hypothesis HA : Arith.Exact A.
Variable sort :
  (Machine.SalesTrend.DailyData (Arith.num A) -> Machine.SalesTrend.DailyData (Arith.num A) ->
   JS.number) ->
  list (Machine.SalesTrend.DailyData (Arith.num A)) ->
  list (Machine.SalesTrend.DailyData (Arith.num A)).
Hypothesis Hsort : Engine.Sorts sort.
Variable L : DateFns.t.
Hypothesis HL : DateFns.Laws L.

Variable f : SalesData.t -> Arith.num A.
Variable g : Machine.SalesTrend.DailyData (Arith.num A) -> Arith.num A.
Hypothesis g_accumulate :
  forall b item,
    g (Machine.SalesTrend.accumulate A b item) = Arith.add A (g b) (f item).
Hypothesis g_fresh :
  forall day,
    g (Machine.SalesTrend.Build_DailyData day (Arith.zero A)
         (Arith.zero A) (Arith.zero A))
    = Arith.zero A.

Lemma step_total (o : JS.object (Machine.SalesTrend.DailyData (Arith.num A)))
    (item : SalesData.t) :
  Spec.has_valid_date L item ->
  exists o',
    Machine.SalesTrend.step A L o item = JS.Ok o'
    /\ Spec.running A (fun kb => g (snd kb)) o'
       = Arith.add A (Spec.running A (fun kb => g (snd kb)) o) (f item).
Proof.
  intros Hv. destruct (dateKey_valid L HL item Hv) as (key & Hk & Hown).
  unfold Machine.SalesTrend.step. rewrite Hk. cbn [JS.bind].
  destruct (JS.get o key) as [b|] eqn:Hget.
  - eexists. split; [reflexivity|].
    apply (set_running_present A HA g o key b _ _ Hget), g_accumulate.
  - rewrite Hown. eexists. split; [reflexivity|].
    rewrite (set_running_absent A g o key _ Hget), g_accumulate, g_fresh.
    rewrite (Arith.add_zero A HA). reflexivity.
Qed.

Lemma forEach_total (data : list SalesData.t)
    (o : JS.object (Machine.SalesTrend.DailyData (Arith.num A))) :
  Forall (Spec.has_valid_date L) data ->
  exists o',
    JS.forEachM (Machine.SalesTrend.step A L) data o = JS.Ok o'
    /\ Spec.running A (fun kb => g (snd kb)) o'
       = fold_left (fun sum x => Arith.add A sum (f x)) data
           (Spec.running A (fun kb => g (snd kb)) o).
Proof.
  intros H; revert o; induction H as [|item data Hi _ IH]; intros o; simpl.
  - exists o. split; reflexivity.
  - destruct (step_total o item Hi) as (o1 & E1 & S1).
    rewrite E1; cbn [JS.bind].
    destruct (IH o1) as (o' & E' & S'). exists o'. split; [exact E'|].
    rewrite S', S1. reflexivity.
Qed.

Lemma processData_total (data : list SalesData.t) :
  Forall (Spec.has_valid_date L) data ->
  exists buckets,
    Machine.SalesTrend.processData A sort L data = JS.Ok buckets
    /\ Spec.running A g buckets = Spec.running A f data.
Proof.
  intros H. unfold Machine.SalesTrend.processData.
  destruct data as [|item data]; [exists []; split; reflexivity|].
  destruct (forEach_total (item :: data) [] H) as (o & E & S).
  rewrite E. cbn [JS.bind]. eexists. split; [reflexivity|].
  rewrite (running_perm A HA g _ _ (Engine.sort_permutes sort Hsort _ _)).
  rewrite (values_running A HA g o), S. reflexivity.
Qed.

End MachineTotals.

Lemma processData_returns (A : Arith.t)
    (sort :
       (Machine.SalesTrend.DailyData (Arith.num A) -> Machine.SalesTrend.DailyData (Arith.num A) ->
        JS.number) ->
       list (Machine.SalesTrend.DailyData (Arith.num A)) ->
       list (Machine.SalesTrend.DailyData (Arith.num A)))
    (L : DateFns.t) (HL : DateFns.Laws L) (data : list SalesData.t) :
  Forall (Spec.has_valid_date L) data ->
  exists buckets, Machine.SalesTrend.processData A sort L data = JS.Ok buckets.
Proof.
  intros H. unfold Machine.SalesTrend.processData.
  destruct data as [|item data]; [exists []; reflexivity|].
  assert (E : forall o, exists o',
             JS.forEachM (Machine.SalesTrend.step A L) (item :: data) o
             = JS.Ok o').
  { induction H as [|it rest Hi _ IH]; intros o; simpl;
      [exists o; reflexivity|].
    destruct (dateKey_valid L HL it Hi) as (key & Hk & Hown).
    unfold Machine.SalesTrend.step at 1. rewrite Hk. cbn [JS.bind].
    destruct (JS.get o key); [apply IH|]. rewrite Hown. apply IH. }
  destruct (E []) as [o Ho]. rewrite Ho. cbn [JS.bind]. eexists. reflexivity.
Qed.

Lemma whole_cents_comp (x y : Q) :
  x == y -> Spec.whole_cents x -> Spec.whole_cents y.
Proof. intros E [z Hz]. exists z. rewrite <- E. exact Hz. Qed.

Lemma this_Q2Qc (q : Q) : Qcanon.this (Qcanon.Q2Qc q) == q.
Proof. simpl. apply Qred_correct. Qed.

Lemma Q2Qc_this (x : Qcanon.Qc) : Qcanon.Q2Qc (Qcanon.this x) = x.
Proof. apply Qcanon.Qc_is_canon. apply this_Q2Qc. Qed.

Lemma exact_cents (x : Qcanon.Qc) :
  Arith.toFixed2 Arith.exact x = x <-> Spec.whole_cents (Qcanon.this x).
Proof.
  simpl. split.
  - intros E. apply (whole_cents_comp (JS.toFixed2 (Qcanon.this x))).
    + rewrite <- E at 2. symmetry. apply this_Q2Qc.
    + apply whole_cents_toFixed2.
  - intros H. rewrite <- (Q2Qc_this x) at 2.
    apply Qcanon.Q2Qc_eq_iff, toFixed2_whole_cents, H.
Qed.

(** The rationals are exact. *)
Lemma exact_Exact : Arith.Exact Arith.exact.
Proof.
  split; simpl.
  - apply Qcanon.Qcplus_comm.
  - apply Qcanon.Qcplus_assoc.
  - apply Qcanon.Qcplus_0_l.
  - apply Qcanon.Qc_is_canon. reflexivity.
  - intros x y x' y'. apply Qcanon.Qc_is_canon.
    unfold Qcanon.Qcminus, Qcanon.Qcplus, Qcanon.Qcopp, Qcanon.Q2Qc.
    cbn [Qcanon.this]. rewrite !Qred_correct. ring.
  - intros x H. apply negb_false_iff, Qeq_bool_eq in H.
    apply Qcanon.Qc_is_canon. rewrite H. reflexivity.
  - apply Qcanon.Qc_is_canon. reflexivity.
  - intros x. apply (exact_cents (Qcanon.Q2Qc (JS.toFixed2 (Qcanon.this x)))).
    apply (whole_cents_comp (JS.toFixed2 (Qcanon.this x)));
      [symmetry; apply this_Q2Qc|apply whole_cents_toFixed2].
  - intros x y Hx Hy.
    apply (exact_cents x) in Hx. apply (exact_cents y) in Hy.
    apply (exact_cents (Qcanon.Qcplus x y)).
    apply (whole_cents_comp (Qcanon.this x + Qcanon.this y));
      [symmetry; apply this_Q2Qc|apply whole_cents_plus; assumption].
Qed.

(** Binary64 is not: its addition is not associative. *)
Lemma binary64_not_Exact : ~ Arith.Exact Arith.binary64.
Proof.
  intros H.
  pose proof (Arith.add_assoc _ H (Binary64.Number (1 # 10))
                (Binary64.Number (2 # 10)) (Binary64.Number (3 # 10))) as E.
  vm_compute in E. discriminate E.
Qed.

(** ** The sort of the engine *)

Lemma consistent_on_spec {T : Type} (cmp : T -> T -> JS.number)
    (l : list T) :
  Spec.consistent_on cmp l = true ->
  JS.consistent (fun x => In x l) cmp.
Proof.
  unfold Spec.consistent_on. rewrite forallb_forall. intros H. split.
  - intros a b Ha Hb Hp. specialize (H a Ha).
    rewrite forallb_forall in H. specialize (H b Hb).
    apply andb_prop in H. destruct H as [H _].
    rewrite Hp in H. simpl in H. unfold JS.before.
    apply negb_true_iff, H.
  - intros a b c Ha Hb Hc Hab Hbc. specialize (H a Ha).
    rewrite forallb_forall in H. specialize (H b Hb).
    apply andb_prop in H. destruct H as [_ H].
    rewrite forallb_forall in H. specialize (H c Hc).
    unfold JS.before in *. rewrite Hab, Hbc in H. simpl in H.
    apply negb_true_iff, H.
Qed.

(** Sorting by insertion is a sort. *)
Lemma sort_Sorts {T : Type} : Engine.Sorts (@JS.sort T).
Proof.
  split.
  - intros cmp l. apply sort_perm.
  - intros cmp l H. apply (sort_sorted cmp _ H).
    apply Forall_forall. trivial.
Qed.

(* ================================================================== *)
(** * [sales-trend.tsx] with the numbers of the engine *)
(* ================================================================== *)

Lemma january_valid : Forall (Spec.has_valid_date DateFns.v3) Sample.january.
Proof.
  repeat constructor;
    (eexists; eexists; split; [reflexivity|split; [discriminate|reflexivity]]).
Qed.

(** C1, the claim as stated fails.  Two days with two sales each, of
    0.1 and 0.1, and of 0.4 and 1.1: binary64 rounds the second bucket to
    1.5, the buckets add up to 1.7 and the records to
    1.7000000000000002; the sums of the reals the numbers stand for
    differ as well. *)
Lemma processData_sales_counterexample :
  Forall (Spec.has_valid_date DateFns.v3) Sample.two_days
  /\ Machine.SalesTrend.processData Arith.binary64 JS.sort DateFns.v3
       Sample.two_days
     = JS.Ok [ Sample.bucket "2024-01-15" (2 # 10) 0 (2 # 10);
               Sample.bucket "2024-01-20" (15 # 10) 0 (15 # 10) ]
  /\ Spec.running Arith.binary64
       (Machine.SalesTrend.sales)
       [ Sample.bucket "2024-01-15" (2 # 10) 0 (2 # 10);
         Sample.bucket "2024-01-20" (15 # 10) 0 (15 # 10) ]
     = Binary64.Number (17 # 10)
  /\ Spec.running Arith.binary64
       (Machine.SalesTrend.saleAmount Arith.binary64) Sample.two_days
     = Binary64.Number (17000000000000002 # 10000000000000000)
  /\ Binary64.Number (17 # 10)
     <> Binary64.Number (17000000000000002 # 10000000000000000)
  /\ ~ Spec.real_sum (Machine.SalesTrend.sales)
         [ Sample.bucket "2024-01-15" (2 # 10) 0 (2 # 10);
           Sample.bucket "2024-01-20" (15 # 10) 0 (15 # 10) ]
       == Spec.real_sum (Machine.SalesTrend.saleAmount Arith.binary64)
            Sample.two_days.
Proof.
  split.
  { repeat constructor;
      (eexists; eexists;
       split; [reflexivity|split; [discriminate|reflexivity]]). }
  split; [vm_compute; reflexivity|].
  split; [vm_compute; reflexivity|].
  split; [vm_compute; reflexivity|].
  split; [vm_compute; discriminate|].
  vm_compute. discriminate.
Qed.

(** C1 as amended.  When every record has a valid date, [processData]
    returns one bucket per day, every record has the bucket of its day,
    and the [sales] of each bucket is the running sum of the sale amounts
    of the records of that day: added in the order of the input, from
    [0], with the arithmetic of the engine, whatever it is and whatever
    order its sort leaves the buckets in.  No record is counted twice and
    none is lost.  In exact arithmetic the [sales] of the buckets then add
    up to the sale amounts of the records. *)
Theorem processData_files_sales (A : Arith.t)
    (sort :
       (Machine.SalesTrend.DailyData (Arith.num A) -> Machine.SalesTrend.DailyData (Arith.num A) ->
        JS.number) ->
       list (Machine.SalesTrend.DailyData (Arith.num A)) ->
       list (Machine.SalesTrend.DailyData (Arith.num A)))
    (Hsort : Engine.Sorts sort)
    (L : DateFns.t) (HL : DateFns.Laws L) (data : list SalesData.t) :
  Forall (Spec.has_valid_date L) data ->
  exists buckets,
    Machine.SalesTrend.processData A sort L data = JS.Ok buckets
    /\ NoDup (map (Machine.SalesTrend.date) buckets)
    /\ (forall item, In item data ->
        exists b,
          In b buckets
          /\ Spec.of_day L (Machine.SalesTrend.date b) item = true)
    /\ Forall
         (Spec.holds_day_sum A L (Machine.SalesTrend.saleAmount A)
            (Machine.SalesTrend.sales) data)
         buckets
    /\ (Arith.Exact A ->
        Spec.running A (Machine.SalesTrend.sales) buckets
        = Spec.running A (Machine.SalesTrend.saleAmount A) data).
Proof.
  intros H. destruct (processData_returns A sort L HL data H) as [buckets E].
  exists buckets. split; [exact E|].
  pose proof (processData_filed A sort Hsort L
                (Machine.SalesTrend.saleAmount A)
                (Machine.SalesTrend.sales) (fun _ _ => eq_refl)
                (fun _ => eq_refl) data buckets E) as (o & F & Hb).
  split; [|split; [|split]].
  - subst buckets.
    apply (Permutation_NoDup
             (Permutation_map _
                (Permutation_sym (Engine.sort_permutes sort Hsort _ _)))).
    unfold JS.values. rewrite map_map.
    apply (Permutation_NoDup
             (Permutation_map _ (Permutation_sym (entries_perm o)))).
    pose proof (Spec.filed_own _ _ _ _ _ _ F) as Hown.
    rewrite (map_ext_in _ fst); [exact (Spec.filed_keys _ _ _ _ _ _ F)|].
    intros kb Hin. rewrite Forall_forall in Hown. apply (Hown _ Hin).
  - intros item Hin. rewrite Forall_forall in H.
    destruct (dateKey_valid L HL item (H _ Hin)) as (key & Hk & Hown).
    destruct (JS.get o key) as [b|] eqn:Hget.
    + exists b. pose proof (get_In _ _ _ Hget) as Hkb.
      pose proof (Spec.filed_own _ _ _ _ _ _ F) as Ho.
      rewrite Forall_forall in Ho. destruct (Ho _ Hkb) as [Hd _].
      simpl in Hd. split.
      * subst buckets.
        apply (Permutation_in _
                 (Permutation_sym (Engine.sort_permutes sort Hsort _ _))).
        unfold JS.values. apply in_map_iff. exists (key, b).
        split; [reflexivity|].
        apply (Permutation_in _ (Permutation_sym (entries_perm o))), Hkb.
      * rewrite Hd. apply of_day_iff, Hk.
    + exfalso.
      exact (Spec.filed_cover _ _ _ _ _ _ F item key Hin Hk Hown Hget).
  - apply (processData_day_sums A sort Hsort L _ _ (fun _ _ => eq_refl)
             (fun _ => eq_refl) data buckets E).
  - intros HA.
    destruct (processData_total A HA sort Hsort L HL
                (Machine.SalesTrend.saleAmount A)
                (Machine.SalesTrend.sales) (fun _ _ => eq_refl)
                (fun _ => eq_refl) data H) as (buckets' & E' & S).
    rewrite E in E'. inversion E'; subst. exact S.
Qed.

(** The theorem on [Sample.january], with the numbers of the engine and
    with exact ones, where the totals agree. *)
Lemma processData_files_sales_witness :
  (exists buckets,
     Machine.SalesTrend.processData Arith.binary64 JS.sort DateFns.v3
       Sample.january
     = JS.Ok buckets
     /\ NoDup (map (Machine.SalesTrend.date) buckets)
     /\ (forall item, In item Sample.january ->
         exists b,
           In b buckets
           /\ Spec.of_day DateFns.v3
                (Machine.SalesTrend.date b) item = true)
     /\ Forall
          (Spec.holds_day_sum Arith.binary64 DateFns.v3
             (Machine.SalesTrend.saleAmount Arith.binary64)
             (Machine.SalesTrend.sales) Sample.january)
          buckets
     /\ (Arith.Exact Arith.binary64 ->
         Spec.running Arith.binary64
           (Machine.SalesTrend.sales) buckets
         = Spec.running Arith.binary64
             (Machine.SalesTrend.saleAmount Arith.binary64) Sample.january))
  /\ (exists buckets,
        Machine.SalesTrend.processData Arith.exact JS.sort DateFns.v3
          Sample.january
        = JS.Ok buckets
        /\ Spec.running Arith.exact (Machine.SalesTrend.sales) buckets
           = Spec.running Arith.exact
               (Machine.SalesTrend.saleAmount Arith.exact) Sample.january).
Proof.
  split.
  - apply (processData_files_sales Arith.binary64 JS.sort sort_Sorts
             DateFns.v3 v3_laws Sample.january).
    repeat constructor;
      (eexists; eexists;
       split; [reflexivity|split; [discriminate|reflexivity]]).
  - destruct (processData_files_sales Arith.exact JS.sort sort_Sorts
                DateFns.v3 v3_laws Sample.january january_valid)
      as (buckets & E & _ & _ & _ & S).
    exists buckets. split; [exact E|exact (S exact_Exact)].
Defined.

(** C9, the claim as stated fails.  One day with two sales of 0.3 and
    0.7, each with a profit of 0.1: in binary64 the differences add up
    to 0.7999999999999999, where the sales of the bucket less its profit
    are 0.8; the reals the numbers stand for differ as well. *)
Lemma processData_revenue_counterexample :
  let b :=
    Sample.bucket "2024-01-15" 1 (2 # 10)
      (7999999999999999 # 10000000000000000) in
  Machine.SalesTrend.processData Arith.binary64 JS.sort DateFns.v3
    Sample.one_day
  = JS.Ok [b]
  /\ Spec.derived_revenue Arith.binary64 b = Binary64.Number (8 # 10)
  /\ Machine.SalesTrend.revenue b
     <> Spec.derived_revenue Arith.binary64 b
  /\ ~ Spec.real (Machine.SalesTrend.revenue b)
       == Spec.real (Machine.SalesTrend.sales b)
          - Spec.real (Machine.SalesTrend.profit b).
Proof.
  split; [vm_compute; reflexivity|].
  split; [vm_compute; reflexivity|].
  split; [vm_compute; discriminate|].
  vm_compute. discriminate.
Qed.

(** C9 as amended.  Whenever [processData] returns, every bucket holds
    three running sums over the records of its day: of the sale amounts
    in [sales], of the profit amounts in [profit], and of the differences
    [sale - profit] in [revenue], whatever the arithmetic.  In exact
    arithmetic [revenue] is then the revenue of the specification, the
    [sales] of the bucket less its [profit]. *)
Theorem processData_revenue_sums (A : Arith.t)
    (sort :
       (Machine.SalesTrend.DailyData (Arith.num A) -> Machine.SalesTrend.DailyData (Arith.num A) ->
        JS.number) ->
       list (Machine.SalesTrend.DailyData (Arith.num A)) ->
       list (Machine.SalesTrend.DailyData (Arith.num A)))
    (Hsort : Engine.Sorts sort) (L : DateFns.t)
    (data : list SalesData.t)
    (buckets : list (Machine.SalesTrend.DailyData (Arith.num A))) :
  Machine.SalesTrend.processData A sort L data = JS.Ok buckets ->
  Forall
    (fun b =>
       Spec.holds_day_sum A L (Machine.SalesTrend.saleAmount A)
         (Machine.SalesTrend.sales) data b
       /\ Spec.holds_day_sum A L (Machine.SalesTrend.profitAmount A)
            (Machine.SalesTrend.profit) data b
       /\ Spec.holds_day_sum A L (Spec.margin A)
            (Machine.SalesTrend.revenue) data b)
    buckets
  /\ (Arith.Exact A ->
      Forall
        (fun b =>
           Machine.SalesTrend.revenue b = Spec.derived_revenue A b)
        buckets).
Proof.
  intros E.
  pose proof (processData_day_sums A sort Hsort L (Machine.SalesTrend.saleAmount A)
                (Machine.SalesTrend.sales) (fun _ _ => eq_refl)
                (fun _ => eq_refl) data buckets E) as Hs.
  pose proof (processData_day_sums A sort Hsort L (Machine.SalesTrend.profitAmount A)
                (Machine.SalesTrend.profit) (fun _ _ => eq_refl)
                (fun _ => eq_refl) data buckets E) as Hp.
  pose proof (processData_day_sums A sort Hsort L (Spec.margin A)
                (Machine.SalesTrend.revenue) (fun _ _ => eq_refl)
                (fun _ => eq_refl) data buckets E) as Hr.
  rewrite Forall_forall in Hs, Hp, Hr.
  split.
  - apply Forall_forall. intros b Hb. auto.
  - intros HA. apply Forall_forall. intros b Hb.
    unfold Spec.derived_revenue.
    rewrite (Hs b Hb), (Hp b Hb), (Hr b Hb).
    apply (running_sub A HA).
Qed.

(** The theorem on [Sample.one_day], with the numbers of the engine and
    with exact ones, where [revenue] is [sales - profit]. *)
Lemma processData_revenue_sums_witness :
  (let buckets :=
     [ Sample.bucket "2024-01-15" 1 (2 # 10)
         (7999999999999999 # 10000000000000000) ] in
   Forall
     (fun b =>
        Spec.holds_day_sum Arith.binary64 DateFns.v3
          (Machine.SalesTrend.saleAmount Arith.binary64)
          (Machine.SalesTrend.sales) Sample.one_day b
        /\ Spec.holds_day_sum Arith.binary64 DateFns.v3
             (Machine.SalesTrend.profitAmount Arith.binary64)
             (Machine.SalesTrend.profit) Sample.one_day b
        /\ Spec.holds_day_sum Arith.binary64 DateFns.v3
             (Spec.margin Arith.binary64)
             (Machine.SalesTrend.revenue) Sample.one_day b)
     buckets
   /\ (Arith.Exact Arith.binary64 ->
       Forall
         (fun b =>
            Machine.SalesTrend.revenue b
            = Spec.derived_revenue Arith.binary64 b)
         buckets))
  /\ (exists buckets,
        Machine.SalesTrend.processData Arith.exact JS.sort DateFns.v3
          Sample.one_day
        = JS.Ok buckets
        /\ Forall
             (fun b =>
                Machine.SalesTrend.revenue b
                = Spec.derived_revenue Arith.exact b)
             buckets).
Proof.
  split.
  - intros buckets.
    apply (processData_revenue_sums Arith.binary64 JS.sort sort_Sorts
             DateFns.v3 Sample.one_day buckets).
    vm_compute. reflexivity.
  - assert (Hv : Forall (Spec.has_valid_date DateFns.v3) Sample.one_day).
    { repeat constructor;
        (eexists; eexists;
         split; [reflexivity|split; [discriminate|reflexivity]]). }
    destruct (processData_returns Arith.exact JS.sort DateFns.v3 v3_laws
                Sample.one_day Hv) as [buckets E].
    exists buckets. split; [exact E|].
    exact (proj2 (processData_revenue_sums Arith.exact JS.sort sort_Sorts
                    DateFns.v3 Sample.one_day buckets E) exact_Exact).
Defined.

(* ================================================================== *)
(** * [regional-sales.tsx] with the numbers of the engine *)
(* ================================================================== *)

Lemma of_region_iff (region : string) (item : SalesData.t) :
  Spec.of_region region item = true
  <-> RegionalSales.regionOf item = region.
Proof. unfold Spec.of_region. apply String.eqb_eq. Qed.

Section MachineRegions.
Variable A : Arith.t.

Lemma mapped_nil : Spec.mapped A [] [].
Proof. split; simpl; try constructor. intros item []. Qed.

Lemma region_total_snoc (region : string) (seen : list SalesData.t)
    (item : SalesData.t) :
  RegionalSales.regionOf item = region ->
  Spec.region_total A region (seen ++ [item])
  = Machine.RegionalSales.add_line A (Spec.region_total A region seen) item.
Proof.
  intros E. unfold Spec.region_total.
  rewrite filter_snoc, (proj2 (of_region_iff region item) E), fold_left_app.
  reflexivity.
Qed.

Lemma region_total_other (region : string) (seen : list SalesData.t)
    (item : SalesData.t) :
  RegionalSales.regionOf item <> region ->
  Spec.region_total A region (seen ++ [item])
  = Spec.region_total A region seen.
Proof.
  intros E. unfold Spec.region_total. rewrite filter_snoc.
  destruct (Spec.of_region region item) eqn:H.
  - apply of_region_iff in H. contradiction.
  - rewrite app_nil_r. reflexivity.
Qed.

Lemma slot_holds_other (seen : list SalesData.t) (item : SalesData.t)
    (kv : string * Machine.RegionalSales.slot (Arith.num A)) :
  Spec.slot_holds A seen kv -> fst kv <> RegionalSales.regionOf item ->
  Spec.slot_holds A (seen ++ [item]) kv.
Proof.
  destruct kv as [k [x|]]; unfold Spec.slot_holds; simpl; [|auto].
  intros [Hi Hx] Hne. split; [exact Hi|].
  rewrite region_total_other; [exact Hx|congruence].
Qed.

Lemma cover_snoc (seen : list SalesData.t) (item : SalesData.t)
    (o o' : JS.object (Machine.RegionalSales.slot (Arith.num A))) :
  Spec.mapped A seen o ->
  (forall k, In k (map fst o) -> In k (map fst o')) ->
  (JS.inherits (RegionalSales.regionOf item) = false ->
   In (RegionalSales.regionOf item) (map fst o')) ->
  forall it,
    In it (seen ++ [item]) -> JS.inherits (RegionalSales.regionOf it) = false ->
    JS.get o' (RegionalSales.regionOf it) <> None.
Proof.
  intros F Hkeep Hnew it Hit Hown Hnone.
  apply get_None_iff in Hnone. apply Hnone.
  apply in_app_or in Hit. destruct Hit as [Hit|[<-|[]]].
  - apply Hkeep.
    destruct (in_dec string_dec (RegionalSales.regionOf it) (map fst o))
      as [H|H]; [exact H|].
    apply get_None_iff in H.
    exfalso. exact (Spec.mapped_cover A _ _ F it Hit Hown H).
  - apply Hnew, Hown.
Qed.

Lemma reducer_mapped (seen : list SalesData.t)
    (o : JS.object (Machine.RegionalSales.slot (Arith.num A))) (item : SalesData.t) :
  Spec.mapped A seen o ->
  Spec.mapped A (seen ++ [item]) (Machine.RegionalSales.reducer A o item).
Proof.
  intros F. unfold Machine.RegionalSales.reducer.
  remember (RegionalSales.regionOf item) as region eqn:Hreg.
  symmetry in Hreg.
  destruct (JS.get o region) as [[x|]|] eqn:Hget.
  - pose proof (get_In _ _ _ Hget) as Hin.
    pose proof (Spec.mapped_slots A _ _ F) as Hs. rewrite Forall_forall in Hs.
    destruct (Hs _ Hin) as [Hi Hx]. simpl in Hi, Hx.
    split.
    + apply set_keys_NoDup, (Spec.mapped_keys A _ _ F).
    + apply (cover_snoc seen item o); [exact F| |].
      * intros k Hk. apply set_keys_In. left. exact Hk.
      * intros _. apply set_keys_In. right. exact Hreg.
    + apply (set_Forall_update (Spec.slot_holds A seen));
        [exact (Spec.mapped_keys A _ _ F)|exact (Spec.mapped_slots A _ _ F)| |].
      * intros kv Hkv Hne. apply slot_holds_other; [exact Hkv|congruence].
      * unfold Spec.slot_holds. simpl. split; [exact Hi|].
        rewrite (region_total_snoc region seen item Hreg), <- Hx.
        reflexivity.
  - pose proof (get_In _ _ _ Hget) as Hin.
    pose proof (Spec.mapped_slots A _ _ F) as Hs. rewrite Forall_forall in Hs.
    pose proof (Hs _ Hin) as Hi. unfold Spec.slot_holds in Hi. simpl in Hi.
    split.
    + apply set_keys_NoDup, (Spec.mapped_keys A _ _ F).
    + apply (cover_snoc seen item o); [exact F| |].
      * intros k Hk. apply set_keys_In. left. exact Hk.
      * intros _. apply set_keys_In. right. exact Hreg.
    + apply (set_Forall_update (Spec.slot_holds A seen));
        [exact (Spec.mapped_keys A _ _ F)|exact (Spec.mapped_slots A _ _ F)| |].
      * intros kv Hkv Hne. apply slot_holds_other; [exact Hkv|congruence].
      * unfold Spec.slot_holds. simpl. exact Hi.
  - assert (Hothers : Forall (Spec.slot_holds A (seen ++ [item])) o).
    { pose proof (Spec.mapped_slots A _ _ F) as Hs.
      apply Forall_forall. intros kv Hin.
      rewrite Forall_forall in Hs. apply slot_holds_other; [apply Hs, Hin|].
      intros E. apply get_None_iff in Hget. apply Hget.
      rewrite <- Hreg, <- E. apply in_map, Hin. }
    destruct (String.eqb_spec region "__proto__") as [Hp|Hp].
    + split.
      * exact (Spec.mapped_keys A _ _ F).
      * intros it Hit Hown.
        apply in_app_or in Hit. destruct Hit as [Hit|[<-|[]]].
        -- exact (Spec.mapped_cover A _ _ F it Hit Hown).
        -- rewrite Hreg, Hp in Hown. discriminate Hown.
      * exact Hothers.
    + destruct (JS.inherits region) eqn:Hinh.
      * split.
        -- apply set_keys_NoDup, (Spec.mapped_keys A _ _ F).
        -- apply (cover_snoc seen item o); [exact F| |].
           ++ intros k Hk. apply set_keys_In. left. exact Hk.
           ++ intros _. apply set_keys_In. right. exact Hreg.
        -- apply set_Forall_entry; [exact Hothers|].
           unfold Spec.slot_holds. simpl. exact Hinh.
      * split.
        -- apply set_keys_NoDup, (Spec.mapped_keys A _ _ F).
        -- apply (cover_snoc seen item o); [exact F| |].
           ++ intros k Hk. apply set_keys_In. left. exact Hk.
           ++ intros _. apply set_keys_In. right. exact Hreg.
        -- apply set_Forall_entry; [exact Hothers|].
           unfold Spec.slot_holds. simpl. split; [exact Hinh|].
           rewrite (region_total_snoc region seen item Hreg). f_equal.
           unfold Spec.region_total.
           destruct (filter (Spec.of_region region) seen) as [|it l] eqn:E;
             [reflexivity|].
           assert (Hit : In it (filter (Spec.of_region region) seen))
             by (rewrite E; left; reflexivity).
           apply filter_In in Hit. destruct Hit as [Hit Hr].
           apply of_region_iff in Hr. exfalso.
           apply (Spec.mapped_cover A _ _ F it Hit); rewrite Hr; assumption.
Qed.

Lemma fold_reducer_mapped (rest seen : list SalesData.t)
    (o : JS.object (Machine.RegionalSales.slot (Arith.num A))) :
  Spec.mapped A seen o ->
  Spec.mapped A (seen ++ rest) (fold_left (Machine.RegionalSales.reducer A) rest o).
Proof.
  revert seen o. induction rest as [|item rest IH]; intros seen o F; simpl.
  - rewrite app_nil_r. exact F.
  - change (item :: rest) with ([item] ++ rest)%list. rewrite app_assoc.
    apply IH, reducer_mapped, F.
Qed.

Lemma mapM_toChartData_entries
    (l : list (string * Machine.RegionalSales.slot (Arith.num A)))
    (out : list (Machine.RegionalSales.ChartData (Arith.num A))) :
  JS.mapM (Machine.RegionalSales.toChartData A) l = JS.Ok out ->
  Forall2
    (fun kv r =>
       snd kv = Machine.RegionalSales.Amount
                  (match snd kv with
                   | Machine.RegionalSales.Amount x => x
                   | Machine.RegionalSales.Text => Arith.zero A
                   end)
       /\ Machine.RegionalSales.name r = fst kv
       /\ Machine.RegionalSales.value r
          = Arith.toFixed2 A
              (match snd kv with
               | Machine.RegionalSales.Amount x => x
               | Machine.RegionalSales.Text => Arith.zero A
               end))
    l out.
Proof.
  revert out. induction l as [|[k s] l IH]; intros out; simpl.
  - intros E; inversion E; subst. constructor.
  - unfold Machine.RegionalSales.toChartData at 1. simpl.
    destruct s as [x|]; cbn [JS.bind]; [|discriminate].
    destruct (JS.mapM (Machine.RegionalSales.toChartData A) l) as [r|e];
      cbn [JS.bind]; [|discriminate].
    intros E; inversion E; subst. constructor; [|apply IH; reflexivity].
    simpl. auto.
Qed.

Variable sort :
  (Machine.RegionalSales.ChartData (Arith.num A) -> Machine.RegionalSales.ChartData (Arith.num A) ->
   JS.number) ->
  list (Machine.RegionalSales.ChartData (Arith.num A)) ->
  list (Machine.RegionalSales.ChartData (Arith.num A)).
Hypothesis Hsort : Engine.Sorts sort.

(** Every entry of the sorted list holds the rounded total of its
    region. *)
Lemma sortedData_rounds (data : list SalesData.t)
    (sorted : list (Machine.RegionalSales.ChartData (Arith.num A))) :
  Machine.RegionalSales.sortedData A sort data = JS.Ok sorted ->
  Forall (Spec.rounds_total A data) sorted.
Proof.
  unfold Machine.RegionalSales.sortedData.
  set (o := fold_left (Machine.RegionalSales.reducer A) data []).
  pose proof (fold_reducer_mapped data [] [] mapped_nil) as F.
  simpl in F. fold o in F.
  destruct (JS.mapM (Machine.RegionalSales.toChartData A) (JS.entries o))
    as [l|e] eqn:E; cbn [JS.bind]; [|discriminate].
  intros E'; inversion E'; subst sorted; clear E'.
  apply (Permutation_Forall
           (Permutation_sym (Engine.sort_permutes sort Hsort _ l))).
  apply mapM_toChartData_entries in E.
  assert (Hs : Forall (Spec.slot_holds A data) (JS.entries o)).
  { apply (Permutation_Forall (Permutation_sym (entries_perm o))).
    exact (Spec.mapped_slots A _ _ F). }
  clear F. induction E as [|[k s] r l0 l1 (Hk & Hn & Hv) _ IH];
    [constructor|].
  inversion Hs as [|? ? Hkv Hs']; subst.
  constructor; [|apply IH, Hs'].
  simpl in *. unfold Spec.rounds_total. rewrite Hv, Hn.
  unfold Spec.slot_holds in Hkv. simpl in Hkv. rewrite Hk in Hkv.
  destruct Hkv as [_ ->]. reflexivity.
Qed.


End MachineRegions.

Section ExactRegions.
Variable A : Arith.t.
Hypothesis HA : Arith.Exact A.
Variable sort :
  (Machine.RegionalSales.ChartData (Arith.num A) -> Machine.RegionalSales.ChartData (Arith.num A) ->
   JS.number) ->
  list (Machine.RegionalSales.ChartData (Arith.num A)) ->
  list (Machine.RegionalSales.ChartData (Arith.num A)).
Hypothesis Hsort : Engine.Sorts sort.


Lemma running_cents {T : Type} (f : T -> Arith.num A) (l : list T) :
  Forall (fun x => Arith.toFixed2 A (f x) = f x) l ->
  Arith.toFixed2 A (Spec.running A f l) = Spec.running A f l.
Proof.
  unfold Spec.running. intros H.
  pose proof (Arith.toFixed2_zero A HA) as Hz. revert Hz.
  generalize (Arith.zero A).
  induction H as [|x l Hx _ IH]; intros a Ha; simpl; [exact Ha|].
  apply IH, (Arith.toFixed2_add A HA); assumption.
Qed.







End ExactRegions.

Lemma sortedData_sorted (A : Arith.t)
    (sort :
       (Machine.RegionalSales.ChartData (Arith.num A) ->
        Machine.RegionalSales.ChartData (Arith.num A) -> JS.number) ->
       list (Machine.RegionalSales.ChartData (Arith.num A)) ->
       list (Machine.RegionalSales.ChartData (Arith.num A)))
    (Hsort : Engine.Sorts sort)
    (data : list SalesData.t)
    (sorted : list (Machine.RegionalSales.ChartData (Arith.num A))) :
  Machine.RegionalSales.sortedData A sort data = JS.Ok sorted ->
  Spec.comparable A sorted ->
  Spec.descending_by_value A sorted.
Proof.
  unfold Machine.RegionalSales.sortedData.
  destruct (JS.mapM _ _) as [l|e]; cbn [JS.bind]; [|discriminate].
  intros E; inversion E; subst sorted; clear E. intros Hc.
  apply (Engine.sort_orders sort Hsort).
  destruct Hc as [Ht Hr]. split.
  - intros a b Ha Hb. apply Ht;
      apply (Permutation_in _
               (Permutation_sym (Engine.sort_permutes sort Hsort _ l)));
      assumption.
  - intros a b c Ha Hb Hc'. apply Hr;
      apply (Permutation_in _
               (Permutation_sym (Engine.sort_permutes sort Hsort _ l)));
      assumption.
Qed.


Lemma rounded_fixed (A : Arith.t) (HA : Arith.Exact A)
    (data : list SalesData.t)
    (sorted : list (Machine.RegionalSales.ChartData (Arith.num A))) :
  Forall (Spec.rounds_total A data) sorted ->
  Forall (fun r => Arith.toFixed2 A (Machine.RegionalSales.value r)
                   = Machine.RegionalSales.value r) sorted.
Proof.
  apply Forall_impl. intros r Hr. unfold Spec.rounds_total in Hr.
  rewrite Hr. apply (Arith.toFixed2_idem A HA).
Qed.




(** C6, the claim as stated fails.  The seven regions of the scenario:
    the values of ranks 5 to 7 are 30.99, 20.49 and 10.51, which binary64
    adds to 61.989999999999995; ["Other"] has 61.99, that sum rounded to
    hundredths.  The real that 61.99 stands for is not the sum of the
    reals of the three values either. *)
Lemma chartData_collapse_counterexample :
  Machine.RegionalSales.sortedData Arith.binary64 JS.sort
    Sample.seven_regions
  = JS.Ok [ Sample.entry "North" (7025 # 100);
            Sample.entry "South" (6020 # 100);
            Sample.entry "East" (5050 # 100);
            Sample.entry "West" (4004 # 100);
            Sample.entry "Centre" (3099 # 100);
            Sample.entry "Islands" (2049 # 100);
            Sample.entry "Abroad" (1051 # 100) ]
  /\ Machine.RegionalSales.chartData Arith.binary64 JS.sort
       Sample.seven_regions true
     = JS.Ok [ Sample.entry "North" (7025 # 100);
               Sample.entry "South" (6020 # 100);
               Sample.entry "East" (5050 # 100);
               Sample.entry "West" (4004 # 100);
               Sample.entry "Other" (6199 # 100) ]
  /\ Spec.running Arith.binary64
       (Machine.RegionalSales.value)
       [ Sample.entry "Centre" (3099 # 100);
         Sample.entry "Islands" (2049 # 100);
         Sample.entry "Abroad" (1051 # 100) ]
     = Binary64.Number (61989999999999995 # 1000000000000000)
  /\ Binary64.Number (6199 # 100)
     <> Binary64.Number (61989999999999995 # 1000000000000000)
  /\ ~ Spec.real (Binary64.Number (6199 # 100))
       == Spec.real_sum (Machine.RegionalSales.value)
            [ Sample.entry "Centre" (3099 # 100);
              Sample.entry "Islands" (2049 # 100);
              Sample.entry "Abroad" (1051 # 100) ].
Proof.
  split; [vm_compute; reflexivity|].
  split; [vm_compute; reflexivity|].
  split; [vm_compute; reflexivity|].
  split; vm_compute; discriminate.
Qed.

(** C6 as amended.  On a constrained display, when there are more than
    five regions and their values compare consistently (with binary64:
    none is [NaN]), [chartData] has exactly five entries: the first four
    of the regions in descending order of value, then one entry
    ["Other"] whose value is the running sum of the values of all the
    others, rounded to hundredths; the cut is by rank.  In exact
    arithmetic the rounding changes nothing, and the value is the sum
    itself. *)
Theorem chartData_collapse_rounds (A : Arith.t)
    (sort :
       (Machine.RegionalSales.ChartData (Arith.num A) ->
        Machine.RegionalSales.ChartData (Arith.num A) -> JS.number) ->
       list (Machine.RegionalSales.ChartData (Arith.num A)) ->
       list (Machine.RegionalSales.ChartData (Arith.num A)))
    (Hsort : Engine.Sorts sort)
    (data : list SalesData.t)
    (sorted : list (Machine.RegionalSales.ChartData (Arith.num A))) :
  Machine.RegionalSales.sortedData A sort data = JS.Ok sorted ->
  (5 < List.length sorted)%nat ->
  Spec.comparable A sorted ->
  exists other,
    Machine.RegionalSales.chartData A sort data true
    = JS.Ok (firstn 4 sorted ++ [other])%list
    /\ Machine.RegionalSales.name other = "Other"
    /\ Machine.RegionalSales.value other
       = Arith.toFixed2 A
           (Spec.running A (Machine.RegionalSales.value)
              (skipn 4 sorted))
    /\ List.length (firstn 4 sorted ++ [other])%list = 5%nat
    /\ Spec.descending_by_value A sorted
    /\ (Arith.Exact A ->
        Machine.RegionalSales.value other
        = Spec.running A (Machine.RegionalSales.value) (skipn 4 sorted)).
Proof.
  intros Hs Hlen Hc.
  unfold Machine.RegionalSales.chartData. destruct data as [|item data].
  - unfold Machine.RegionalSales.sortedData in Hs. simpl in Hs.
    apply Ok_inj in Hs. subst sorted.
    rewrite (Permutation_nil
               (Permutation_sym (Engine.sort_permutes sort Hsort _ [])))
      in Hlen.
    simpl in Hlen. lia.
  - rewrite Hs. cbn [JS.bind].
    destruct (Nat.ltb_spec 5 (List.length sorted)) as [_|]; [|lia].
    cbn [andb]. eexists. split; [reflexivity|].
    cbn [Machine.RegionalSales.name Machine.RegionalSales.value].
    split; [reflexivity|]. split; [reflexivity|].
    split; [|split].
    + rewrite length_app, length_firstn, Nat.min_l by lia. reflexivity.
    + apply (sortedData_sorted A sort Hsort (item :: data)); assumption.
    + intros HA. apply (running_cents A HA).
      pose proof (rounded_fixed A HA _ _
                    (sortedData_rounds A sort Hsort (item :: data) sorted
                       Hs)) as H.
      rewrite <- (firstn_skipn 4 sorted) in H. apply Forall_app in H.
      apply H.
Qed.

(** The theorem on the seven regions, with the numbers of the engine and
    with exact ones, where ["Other"] has the sum itself. *)
Lemma chartData_collapse_rounds_witness :
  (let sorted :=
       [ Sample.entry "North" (7025 # 100);
         Sample.entry "South" (6020 # 100);
         Sample.entry "East" (5050 # 100);
         Sample.entry "West" (4004 # 100);
         Sample.entry "Centre" (3099 # 100);
         Sample.entry "Islands" (2049 # 100);
         Sample.entry "Abroad" (1051 # 100) ] in
     exists other,
       Machine.RegionalSales.chartData Arith.binary64 JS.sort
         Sample.seven_regions true
       = JS.Ok (firstn 4 sorted ++ [other])%list
       /\ Machine.RegionalSales.name other = "Other"
       /\ Machine.RegionalSales.value other
          = Arith.toFixed2 Arith.binary64
              (Spec.running Arith.binary64
                 (Machine.RegionalSales.value)
                 (skipn 4 sorted))
       /\ List.length (firstn 4 sorted ++ [other])%list = 5%nat
       /\ Spec.descending_by_value Arith.binary64 sorted
       /\ (Arith.Exact Arith.binary64 ->
           Machine.RegionalSales.value other
           = Spec.running Arith.binary64
               (Machine.RegionalSales.value) (skipn 4 sorted)))
  /\ (let sorted :=
        [ Sample.exact_entry "North" (7025 # 100);
          Sample.exact_entry "South" (6020 # 100);
          Sample.exact_entry "East" (5050 # 100);
          Sample.exact_entry "West" (4004 # 100);
          Sample.exact_entry "Centre" (3099 # 100);
          Sample.exact_entry "Islands" (2049 # 100);
          Sample.exact_entry "Abroad" (1051 # 100) ] in
      exists other,
        Machine.RegionalSales.chartData Arith.exact JS.sort
          Sample.seven_regions true
        = JS.Ok (firstn 4 sorted ++ [other])%list
        /\ Machine.RegionalSales.value other
           = Spec.running Arith.exact (Machine.RegionalSales.value)
               (skipn 4 sorted)).
Proof.
  split.
  - intros sorted.
    apply (chartData_collapse_rounds Arith.binary64 JS.sort sort_Sorts
             Sample.seven_regions sorted).
    + vm_compute. reflexivity.
    + simpl. lia.
    + apply consistent_on_spec. vm_compute. reflexivity.
  - intros sorted.
    assert (Hs : Machine.RegionalSales.sortedData Arith.exact JS.sort
                   Sample.seven_regions = JS.Ok sorted)
      by (vm_compute; reflexivity).
    assert (Hl : (5 < List.length sorted)%nat) by (simpl; lia).
    assert (Hc : Spec.comparable Arith.exact sorted)
      by (apply consistent_on_spec; vm_compute; reflexivity).
    destruct (chartData_collapse_rounds Arith.exact JS.sort sort_Sorts
                Sample.seven_regions sorted Hs Hl Hc)
      as (other & E & _ & _ & _ & _ & S).
    exists other. split; [exact E|exact (S exact_Exact)].
Defined.

(* ================================================================== *)
(** * [top-products.tsx]: the import of [useMemo] *)
(* ================================================================== *)

(** C3, the failing input: any.  [top-products.tsx] imports [useMemo]
    from ['recharts'], which exports no such hook: the binding is
    [undefined], and the call of line 40 throws [TypeError] before a
    record is read, so the component returns no list, of at most [limit]
    entries or otherwise.  The factory is not at fault: with the hook of
    ['react'], which the other charts import, the same call returns its
    list, of at most [limit] entries (5 on a constrained display, 10
    otherwise), the first [limit] of the ranking, turned round for the
    constrained display. *)
Theorem topProducts_throws (data : list SalesData.t) (isMobile : bool) :
  TopProducts.topProducts Recharts.published data isMobile
  = JS.Throw JS.TypeError
  /\ let limit := (if isMobile then 5 else 10)%nat in
     let shown := TopProducts.factory data isMobile in
     TopProducts.topProducts {| Recharts.useMemo := Some React.useMemo |}
       data isMobile = JS.Ok shown
     /\ (List.length shown <= limit)%nat
     /\ (if isMobile then rev shown else shown)
        = firstn limit (TopProducts.ranking data).
Proof.
  split; [reflexivity|].
  cbv zeta. split; [reflexivity|].
  unfold TopProducts.factory, TopProducts.processed, JS.slice_to.
  destruct isMobile.
  - rewrite length_rev, rev_involutive.
    split; [apply firstn_le_length | reflexivity].
  - split; [apply firstn_le_length | reflexivity].
Qed.
